(** * Soniox transcription node for n8n: a model of the node and its properties

    The development follows the node's source, [Soniox.node.ts], in the
    revision with auto-delete, error hints and the [delete] operation, and
    the test that the credential type declares. Where the earlier revision
    of the node differs on a property, module [Earlier] has its code.

    Conventions of the embedding:
    - a JavaScript value is a [JsVal]; an object is an association list of
      its own enumerable properties in insertion order;
    - a string is a sequence of code units below 256, so the white space that
      [String.prototype.trim] removes is tab, LF, VT, FF, CR, space and NBSP;
    - a [number] is an integer ([Z]); fractions, NaN and infinities are not
      represented;
    - [async] code is sequential: every [await] is a call whose answer the
      environment [Env] scripts, and the requests a run issues are logged;
    - [while (true)] is a recursion on fuel; [OutOfFuel] says nothing about
      the run. *)

From Stdlib Require Import ZArith String Ascii List Lia Bool DecimalString HexadecimalString.
From stdpp Require Import base option list gmap strings.

Local Open Scope Z_scope.
Set Warnings "-register-all".
Set Default Proof Using "Type".

(** ** JavaScript values *)

Inductive JsVal : Type :=
| VUndefined
| VNull
| VBool (b : bool)
| VNum (n : Z)
| VStr (s : string)
| VArr (items : list JsVal)
| VObj (fields : list (string * JsVal)).

(** Own properties of an object, generic in the type of property values so
    that the same operations serve objects held by value and objects held in
    a store. *)
Section Properties.
Context {V : Type}.

Fixpoint own (k : string) (fields : list (string * V)) : option V :=
  match fields with
  | [] => None
  | (k', v) :: rest => if String.eqb k k' then Some v else own k rest
  end.

Definition hasOwnProperty (k : string) (fields : list (string * V)) : bool :=
  match own k fields with Some _ => true | None => false end.

(** [o[k] = v]: an existing property keeps its place, a new one goes last. *)
Fixpoint assign (k : string) (v : V) (fields : list (string * V))
  : list (string * V) :=
  match fields with
  | [] => [(k, v)]
  | (k', v') :: rest =>
      if String.eqb k k' then (k', v) :: rest else (k', v') :: assign k v rest
  end.

(** [{ ...data, k: v }] *)
Definition spread_with (data : list (string * V)) (k : string) (v : V)
  : list (string * V) :=
  assign k v data.
End Properties.

(** ** Strings *)

Definition is_ws (c : ascii) : bool :=
  let n := nat_of_ascii c in
  ((9 <=? n) && (n <=? 13) || (n =? 32) || (n =? 160))%nat.

Fixpoint trimStart (s : string) : string :=
  match s with
  | EmptyString => EmptyString
  | String c rest => if is_ws c then trimStart rest else s
  end.

Fixpoint trimEnd (s : string) : string :=
  match s with
  | EmptyString => EmptyString
  | String c rest =>
      match trimEnd rest with
      | EmptyString => if is_ws c then EmptyString else String c EmptyString
      | kept => String c kept
      end
  end.

Definition trim (s : string) : string := trimEnd (trimStart s).

Definition is_empty (s : string) : bool :=
  match s with EmptyString => true | _ => false end.

(** Decimal and hexadecimal text of an integer, as a template literal and
    [toString(16)] print it. *)
Definition dec (n : Z) : string :=
  DecimalString.NilZero.string_of_int (Z.to_int n).
Definition hex (n : Z) : string :=
  HexadecimalString.NilZero.string_of_int (Z.to_hex_int n).

Fixpoint join (sep : string) (parts : list string) : string :=
  match parts with
  | [] => ""
  | [p] => p
  | p :: rest => p +:+ sep +:+ join sep rest
  end.

(** ** Coercions of the language *)

(** [!!v] *)
Definition truthy (v : JsVal) : bool :=
  match v with
  | VUndefined | VNull => false
  | VBool b => b
  | VNum n => negb (n =? 0)
  | VStr s => negb (is_empty s)
  | VArr _ | VObj _ => true
  end.

(** [`${v}`] *)
Fixpoint to_text (v : JsVal) : string :=
  match v with
  | VUndefined => "undefined"
  | VNull => "null"
  | VBool true => "true"
  | VBool false => "false"
  | VNum n => dec n
  | VStr s => s
  | VArr items =>
      join "," (map (fun x => match x with
                              | VUndefined | VNull => ""
                              | _ => to_text x
                              end) items)
  | VObj _ => "[object Object]"
  end.

(** ** Errors and results *)

(** The shape the node reads a failed HTTP call through ([SonioxApiError]). *)
Record ApiErrorInner := {
  inner_message : option string;
  inner_detail : option string;
  inner_code : option string }.

Record ApiErrorCause := {
  cause_message : option string;
  cause_code : option string;
  cause_error : option ApiErrorInner }.

Record ApiErrorBody := {
  body_message : option string;
  body_detail : option string;
  body_error : option string;
  body_code : option string }.

Record ApiErrorResponse := {
  response_statusCode : option Z;
  response_body : option ApiErrorBody }.

Record SonioxApiError := {
  err_message : option string;
  err_description : option string;
  err_httpCode : option Z;
  err_cause : option ApiErrorCause;
  err_response : option ApiErrorResponse }.

Inductive Error : Type :=
| NodeOperationError (message : string) (description : option string)
| ApplicationError (message : string)
| SyntaxError (message : string)
| TypeError
| RequestError (e : SonioxApiError)      (* thrown by the host's HTTP helper *)
| HostError (message : string)           (* thrown by another host helper *)
| ExecutionCancelled                     (* thrown by an aborted sleep *)
| WrappedError (inner : Error) (itemIndex : nat).

Inductive Res (A : Type) : Type :=
| Ok (a : A)
| Throw (e : Error)
| OutOfFuel.
Arguments Ok {A} a.
Arguments Throw {A} e.
Arguments OutOfFuel {A}.

(** ** Computations that log what they ask of the outside world *)

Inductive Body : Type :=
| NoBody
| JsonBody (fields : list (string * JsVal))
| RawBody (bytes : string) (contentType : string).

Record Request := {
  req_method : string;
  req_url : string;
  req_body : Body }.

Inductive Event : Type :=
| Call (r : Request)
| Sleep (ms : Z).

Definition M (A : Type) : Type := list Event * Res A.

Definition ret {A} (a : A) : M A := ([], Ok a).
Definition throw {A} (e : Error) : M A := ([], Throw e).
Definition emit (ev : Event) : M unit := ([ev], Ok tt).
Definition lift {A} (r : Res A) : M A := ([], r).

(** A call of a host helper that returns or throws, and issues no request. *)
Definition host {A} (r : Error + A) : M A :=
  match r with
  | inl e => throw e
  | inr a => ret a
  end.

Definition bind {A B} (m : M A) (k : A -> M B) : M B :=
  match m with
  | (t, Ok a) => let '(t', r) := k a in (t ++ t', r)
  | (t, Throw e) => (t, Throw e)
  | (t, OutOfFuel) => (t, OutOfFuel)
  end.

(** [try { m } catch (e) { handler e }] *)
Definition try_catch {A} (m : M A) (handler : Error -> M A) : M A :=
  match m with
  | (t, Throw e) => let '(t', r) := handler e in (t ++ t', r)
  | _ => m
  end.

Notation "'let!' x ':=' m 'in' k" := (bind m (fun x => k))
  (at level 10, x name, m at level 100, k at level 200).
Notation "'run!' m 'in' k" := (bind m (fun _ => k))
  (at level 10, m at level 100, k at level 200).

Definition trace {A} (m : M A) : list Event := fst m.
Definition outcome {A} (m : M A) : Res A := snd m.

(** ** Helpers of the node *)

Definition STATUS_COMPLETED : string := "completed".
Definition STATUS_ERROR : string := "error".

(** [v === s] for a string literal [s] *)
Definition is_string (v : JsVal) (s : string) : bool :=
  match v with VStr s' => String.eqb s' s | _ => false end.

(** [v.k]: reading a property of [null] or [undefined] throws. Only own
    properties are modelled. *)
Definition get (v : JsVal) (k : string) : Res JsVal :=
  match v with
  | VUndefined | VNull => Throw TypeError
  | VObj fields => Ok (default VUndefined (own k fields))
  | _ => Ok VUndefined
  end.

(** [v?.k] *)
Definition get_opt (v : JsVal) (k : string) : JsVal :=
  match v with
  | VObj fields => default VUndefined (own k fields)
  | _ => VUndefined
  end.

(** [target.k = v] in strict mode. An array accepts the named property, but
    it is no part of the array's items, which is all the model keeps. *)
Definition set_prop (target : JsVal) (k : string) (v : JsVal) : Res JsVal :=
  match target with
  | VObj fields => Ok (VObj (assign k v fields))
  | VArr items => Ok (VArr items)
  | _ => Throw TypeError
  end.

Definition isNonEmptyString (value : JsVal) : bool :=
  match value with
  | VStr s => negb (is_empty (trim s))
  | _ => false
  end.

Definition REDACTED : string := "[REDACTED]".
Definition SECRET_KEY : string := "webhook_auth_header_value".

Definition redactWebhookAuthHeaderValue (data : JsVal) : JsVal :=
  match data with
  | VObj fields =>
      if hasOwnProperty SECRET_KEY fields
      then VObj (spread_with fields SECRET_KEY (VStr REDACTED))
      else data
  | _ => data
  end.

(** The same function over a store of objects, where a value is a primitive
    or a reference, so that identity and mutation can be told apart. *)
Module Store.
Definition loc := positive.

Inductive Ref : Type :=
| RUndefined
| RNull
| RBool (b : bool)
| RNum (n : Z)
| RStr (s : string)
| RPtr (l : loc).

Inductive Cell : Type :=
| CObj (fields : list (string * Ref))
| CArr (items : list Ref).

Abbreviation heap := (gmap loc Cell).

Definition alloc (h : heap) (c : Cell) : heap * loc :=
  let l := fresh (dom h) in (<[l := c]> h, l).

Definition redactWebhookAuthHeaderValue (h : heap) (data : Ref) : heap * Ref :=
  match data with
  | RPtr l =>
      match h !! l with
      | Some (CObj fields) =>
          if hasOwnProperty SECRET_KEY fields
          then let '(h', l') :=
                 alloc h (CObj (spread_with fields SECRET_KEY (RStr REDACTED)))
               in (h', RPtr l')
          else (h, data)
      | _ => (h, data)
      end
  | _ => (h, data)
  end.

(** The value a reference stands for, through at most [depth] pointers. *)
Fixpoint read (depth : nat) (h : heap) (r : Ref) : option JsVal :=
  match r with
  | RUndefined => Some VUndefined
  | RNull => Some VNull
  | RBool b => Some (VBool b)
  | RNum n => Some (VNum n)
  | RStr s => Some (VStr s)
  | RPtr l =>
      match depth with
      | O => None
      | S depth' =>
          match h !! l with
          | Some (CObj fields) =>
              VObj <$> mapM (fun kr => pair (fst kr) <$> read depth' h (snd kr))
                            fields
          | Some (CArr items) => VArr <$> mapM (read depth' h) items
          | None => None
          end
      end
  end.
End Store.

(** Reading along a path of property names and array indices. *)
Inductive Step : Type :=
| Prop_ (k : string)
| Index (i : nat).

Fixpoint get_path (v : JsVal) (path : list Step) : option JsVal :=
  match path with
  | [] => Some v
  | Prop_ k :: rest =>
      match v with
      | VObj fields =>
          match own k fields with
          | Some v' => get_path v' rest
          | None => None
          end
      | _ => None
      end
  | Index i :: rest =>
      match v with
      | VArr items =>
          match nth_error items i with
          | Some v' => get_path v' rest
          | None => None
          end
      | _ => None
      end
  end.

(** ** Parameter assembly *)

Section Node.
(** [JSON.parse]: the value read, or the message of the [SyntaxError]. *)
Variable JSON_parse : string -> JsVal + string.

Definition CONTEXT_NOT_OBJECT : string :=
  "Context must be a JSON object, not an array or primitive".

(** [Object.keys(o).length > 0 ? o : undefined] *)
Definition non_empty_object (fields : list (string * JsVal)) : JsVal :=
  match fields with
  | [] => VUndefined
  | _ => VObj fields
  end.

Definition parseStructuredContext (value : JsVal) : Res JsVal :=
  if negb (truthy value) then Ok VUndefined
  else match value with
       | VObj fields => Ok (non_empty_object fields)
       | VStr s =>
           let trimmed := trim s in
           if is_empty trimmed then Ok VUndefined
           else match JSON_parse trimmed with
                | inr msg => Throw (SyntaxError msg)
                | inl (VObj fields) => Ok (non_empty_object fields)
                | inl _ => Throw (ApplicationError CONTEXT_NOT_OBJECT)
                end
       | _ => Ok VUndefined
       end.

(** [languages.map((entry) => entry.code)] *)
Fixpoint map_code (languages : list JsVal) : Res (list JsVal) :=
  match languages with
  | [] => Ok []
  | entry :: rest =>
      match get entry "code" with
      | Ok code =>
          match map_code rest with
          | Ok codes => Ok (code :: codes)
          | Throw e => Throw e
          | OutOfFuel => OutOfFuel
          end
      | Throw e => Throw e
      | OutOfFuel => OutOfFuel
      end
  end.

Definition normalizeLanguageHints (input : JsVal) : Res (list JsVal) :=
  match input with
  | VObj fields =>
      match own "languages" fields with
      | Some (VArr languages) =>
          match map_code languages with
          | Ok codes => Ok (List.filter isNonEmptyString codes)
          | Throw e => Throw e
          | OutOfFuel => OutOfFuel
          end
      | _ => Ok []
      end
  | _ => Ok []
  end.

(** ** Errors of remote calls *)

Definition text_truthy (s : option string) : bool :=
  match s with Some s => negb (is_empty s) | None => false end.

Definition num_truthy (n : option Z) : bool :=
  match n with Some n => negb (n =? 0) | None => false end.

(** [a || b] on optional strings and numbers *)
Definition or_text (a b : option string) : option string :=
  if text_truthy a then a else b.
Definition or_num (a b : option Z) : option Z :=
  if num_truthy a then a else b.

Definition codeHints : list (string * string) :=
  [ ("invalid_api_key", "Check that your API key is correct in the Soniox credentials.");
    ("insufficient_credits", "Your Soniox account may need more credits. Visit dashboard.soniox.com.");
    ("file_too_large", "The audio file exceeds the maximum size limit. Try a smaller file.");
    ("unsupported_format", "This audio format is not supported. Supported formats include WAV, MP3, FLAC, and more.");
    ("transcription_not_found", "The transcription ID does not exist or has been deleted.");
    ("rate_limit_exceeded", "You have exceeded the API rate limit. Wait a moment and try again.") ].

Definition statusHints : list (Z * string) :=
  [ (400, "Check your request parameters. The API received invalid input.");
    (401, "Authentication failed. Verify your Soniox API key in the credentials.");
    (403, "Access denied. Your API key may not have permission for this operation.");
    (404, "Resource not found. The transcription ID may be invalid or deleted.");
    (413, "The audio file is too large. Try a smaller file or use a URL instead.");
    (422, "Invalid request data. Check that all required fields are filled correctly.");
    (429, "Rate limit exceeded. Wait a moment before retrying.");
    (500, "Soniox server error. Try again later or contact Soniox support.");
    (502, "Soniox service temporarily unavailable. Try again in a few moments.");
    (503, "Soniox service is under maintenance. Try again later.") ].

Fixpoint status_hint (code : Z) (table : list (Z * string)) : option string :=
  match table with
  | [] => None
  | (c, h) :: rest => if c =? code then Some h else status_hint code rest
  end.

(** Both tables are read by own keys only. *)
Definition getErrorHint (statusCode : option Z) (errorCode : option string)
  : string :=
  match (if text_truthy errorCode
         then own (default "" errorCode) codeHints else None) with
  | Some hint => hint
  | None =>
      match (if num_truthy statusCode
             then status_hint (default 0 statusCode) statusHints else None) with
      | Some hint => hint
      | None => ""
      end
  end.

Record ErrorDetails := {
  details_message : string;
  details_statusCode : option Z;
  details_errorCode : option string }.

Definition cause_error_of (error : SonioxApiError) : option ApiErrorInner :=
  err_cause error ≫= cause_error.
Definition response_body_of (error : SonioxApiError) : option ApiErrorBody :=
  err_response error ≫= response_body.

Definition extractErrorDetails (error : SonioxApiError) : ErrorDetails :=
  let statusCode :=
    or_num (err_httpCode error) (err_response error ≫= response_statusCode) in
  let errorCode :=
    let c := or_text (or_text (cause_error_of error ≫= inner_code)
                              (err_cause error ≫= cause_code))
                     (response_body_of error ≫= body_code) in
    if text_truthy c then c else None in
  let detail :=
    if text_truthy (cause_error_of error ≫= inner_detail)
    then default "" (cause_error_of error ≫= inner_detail)
    else if text_truthy (cause_error_of error ≫= inner_message)
    then default "" (cause_error_of error ≫= inner_message)
    else if text_truthy (response_body_of error ≫= body_detail)
    then default "" (response_body_of error ≫= body_detail)
    else if text_truthy (response_body_of error ≫= body_message)
    then default "" (response_body_of error ≫= body_message)
    else if text_truthy (response_body_of error ≫= body_error)
    then default "" (response_body_of error ≫= body_error)
    else if text_truthy (err_description error)
    then default "" (err_description error)
    else if text_truthy (err_message error)
    then default "" (err_message error)
    else "" in
  {| details_message := detail;
     details_statusCode := statusCode;
     details_errorCode := errorCode |}.

(** ** The outside world of one item *)

Inductive HttpResult : Type :=
| HttpOk (response : JsVal)
| HttpFail (error : SonioxApiError).

(** With [json: false] the helper hands back text, a buffer or a value. *)
Inductive RawResponse : Type :=
| Structured (v : JsVal)
| Buffer (bytes : string).

Inductive RawResult : Type :=
| RawOk (response : RawResponse)
| RawFail (error : SonioxApiError).

Record BinaryData := {
  fileName : option string;
  fileExtension : option string;
  mimeType : option string }.

Record Env := {
  assertBinaryData : string -> Error + BinaryData;   (* [inl]: it throws *)
  getBinaryDataBuffer : string -> Error + string;
  boundary_now : Z;              (* [Date.now()] when the boundary is made *)
  boundary_random : string;      (* [Math.random().toString(16).slice(2)] *)
  upload_answer : RawResult;     (* POST /v1/files *)
  create_answer : HttpResult;    (* POST /v1/transcriptions *)
  poll_start : Z;                (* [Date.now()] at loop entry *)
  status_answer : nat -> HttpResult;  (* i-th GET /v1/transcriptions/{id} *)
  clock_at : nat -> Z;           (* [Date.now()] in the i-th iteration *)
  sleep_aborted : nat -> bool;   (* is the i-th sleep cancelled? *)
  transcript_answer : HttpResult;
  details_answer : HttpResult;   (* the GET of the [delete] operation *)
  delete_transcription_answer : HttpResult;
  delete_file_answer : HttpResult;
  continueOnFail : bool }.

Definition sonioxApiRequest_error (error : SonioxApiError) : Error :=
  let d := extractErrorDetails error in
  let hint := getErrorHint (details_statusCode d) (details_errorCode d) in
  let errorMessage :=
    if negb (is_empty (details_message d))
    then "Soniox API error: " +:+ details_message d
    else if num_truthy (details_statusCode d)
    then "Soniox API error (HTTP " +:+ dec (default 0 (details_statusCode d)) +:+ ")"
    else "Soniox API error" in
  NodeOperationError errorMessage (if is_empty hint then None else Some hint).

Definition sonioxApiRequest (answer : HttpResult)
    (method url : string) (body : Body) : M JsVal :=
  run! emit (Call {| req_method := method; req_url := url; req_body := body |}) in
  match answer with
  | HttpOk response => ret response
  | HttpFail error => throw (sonioxApiRequest_error error)
  end.

(** ** Upload *)

Definition CR : ascii := ascii_of_nat 13.
Definition LF : ascii := ascii_of_nat 10.
Definition QUOTE : ascii := ascii_of_nat 34.
Definition lineBreak : string := String CR (String LF EmptyString).
Definition quoted (s : string) : string :=
  String QUOTE s +:+ String QUOTE EmptyString.

(** The file name without CR, LF and double quotes. *)
Fixpoint safeFileName (fileName : string) : string :=
  match fileName with
  | EmptyString => EmptyString
  | String c rest =>
      if Ascii.eqb c CR || Ascii.eqb c LF || Ascii.eqb c QUOTE
      then safeFileName rest
      else String c (safeFileName rest)
  end.

Definition createMultipartPayload (env : Env)
    (fileBuffer fileName contentType : string) : Body :=
  let boundary :=
    "----n8nFormBoundary" +:+ hex (boundary_now env) +:+ boundary_random env in
  let header :=
    join lineBreak
      [ "--" +:+ boundary;
        "Content-Disposition: form-data; name=" +:+ quoted "file"
          +:+ "; filename=" +:+ quoted (safeFileName fileName);
        "Content-Type: " +:+ contentType;
        EmptyString;
        EmptyString ] in
  let footer := lineBreak +:+ "--" +:+ boundary +:+ "--" +:+ lineBreak in
  RawBody (header +:+ fileBuffer +:+ footer)
          ("multipart/form-data; boundary=" +:+ boundary).

Definition parse_or_null (text : string) : JsVal :=
  match JSON_parse text with
  | inl v => v
  | inr _ => VNull
  end.

Definition uploadFile (env : Env) (binaryPropertyName : string) : M JsVal :=
  let! binaryData := host (assertBinaryData env binaryPropertyName) in
  let! buffer := host (getBinaryDataBuffer env binaryPropertyName) in
  let fileName' :=
    if text_truthy (fileName binaryData) then default "" (fileName binaryData)
    else if text_truthy (fileExtension binaryData)
    then "audio." +:+ default "" (fileExtension binaryData)
    else "audio" in
  let contentType :=
    if text_truthy (mimeType binaryData) then default "" (mimeType binaryData)
    else "application/octet-stream" in
  let multipart := createMultipartPayload env buffer fileName' contentType in
  run! emit (Call {| req_method := "POST"; req_url := "/v1/files";
                     req_body := multipart |}) in
  match upload_answer env with
  | RawFail error => throw (RequestError error)
  | RawOk response =>
      let uploadResponse :=
        match response with
        | Structured (VObj _ as v) | Structured (VArr _ as v) => v
        | Structured v => if truthy v then parse_or_null (to_text v) else VNull
        | Buffer bytes => parse_or_null bytes
        end in
      let id := get_opt uploadResponse "id" in
      if negb (truthy id)
      then throw (NodeOperationError "File upload did not return a file ID"
                    (Some "The file upload response was unexpected. Ensure the file is a valid audio file and try again."))
      else ret id
  end.

(** ** Polling *)

Record PollOptions := {
  opt_transcriptionId : JsVal;
  opt_pollIntervalSec : Z;
  opt_maxWaitSec : Z }.

Record TranscriptResult := {
  result_status : JsVal;
  result_transcript : JsVal }.

Definition sleepWithAbort (ms : Z) (aborted : bool) : M unit :=
  run! emit (Sleep ms) in
  if aborted then throw ExecutionCancelled else ret tt.

Definition job_failed (statusResponse : JsVal) (description : string) : Error :=
  let errorMessage :=
    if truthy (get_opt statusResponse "error_message")
    then ": " +:+ to_text (get_opt statusResponse "error_message")
    else "" in
  NodeOperationError
    ("Transcription failed with status " +:+ quoted STATUS_ERROR +:+ errorMessage)
    (Some description).

Definition JOB_FAILED_IS : string :=
  "The transcription could not be completed. Check that the audio file is valid and in a supported format.".
Definition JOB_FAILED_WAS : string :=
  "The transcription could not be completed. Check that the audio file was valid and in a supported format.".

Definition poll_timeout (maxWaitSec : Z) (status : JsVal) : Error :=
  let statusText :=
    if truthy status then " (last status: " +:+ to_text status +:+ ")" else "" in
  NodeOperationError
    ("Polling timed out after " +:+ dec maxWaitSec +:+ " seconds" +:+ statusText)
    (Some ("The transcription is taking longer than expected. Try increasing the "
           +:+ quoted "Max Wait" +:+ " setting, or disable "
           +:+ quoted "Wait for Completion" +:+ " and fetch results later.")).

Definition status_url (transcriptionId : JsVal) : string :=
  "/v1/transcriptions/" +:+ to_text transcriptionId.

(** The [while (true)] loop from its [i]-th iteration on; it returns the
    status response it broke out with. *)
Fixpoint poll_loop (env : Env) (options : PollOptions)
    (timeoutAt pollDelay : Z) (fuel i : nat) : M JsVal :=
  match fuel with
  | O => lift OutOfFuel
  | S fuel' =>
      let! statusResponse :=
        sonioxApiRequest (status_answer env i) "GET"
          (status_url (opt_transcriptionId options)) NoBody in
      let status := get_opt statusResponse "status" in
      if is_string status STATUS_COMPLETED then ret statusResponse
      else if is_string status STATUS_ERROR
      then throw (job_failed statusResponse JOB_FAILED_IS)
      else if clock_at env i >? timeoutAt
      then throw (poll_timeout (opt_maxWaitSec options) status)
      else
        run! sleepWithAbort pollDelay (sleep_aborted env i) in
        poll_loop env options timeoutAt pollDelay fuel' (S i)
  end.

Definition pollForCompletion (env : Env) (fuel : nat) (options : PollOptions)
  : M TranscriptResult :=
  let timeoutAt := poll_start env + Z.max 1 (opt_maxWaitSec options) * 1000 in
  let pollDelay := Z.max 1 (opt_pollIntervalSec options) * 1000 in
  let! statusResponse := poll_loop env options timeoutAt pollDelay fuel 0 in
  let! transcript :=
    sonioxApiRequest (transcript_answer env) "GET"
      (status_url (opt_transcriptionId options) +:+ "/transcript") NoBody in
  ret {| result_status := statusResponse; result_transcript := transcript |}.

(** ** Deleting remote resources *)

Record DeleteResult := {
  deleted : list (string * JsVal);
  warnings : list string }.

Definition tryDeleteResource (answer : HttpResult) (url description : string)
  : M (option string) :=
  run! emit (Call {| req_method := "DELETE"; req_url := url; req_body := NoBody |}) in
  match answer with
  | HttpOk _ => ret None
  | HttpFail error =>
      let message := details_message (extractErrorDetails error) in
      ret (Some ("Failed to delete " +:+ description +:+ ": "
                 +:+ (if negb (is_empty message) then message else "Unknown error")))
  end.

Definition deleteResources (env : Env) (transcriptionId fileId : JsVal)
  : M DeleteResult :=
  let result := {| deleted := []; warnings := [] |} in
  let! result :=
    if truthy transcriptionId then
      let! warning :=
        tryDeleteResource (delete_transcription_answer env)
          ("/v1/transcriptions/" +:+ to_text transcriptionId)
          ("transcription " +:+ to_text transcriptionId) in
      match warning with
      | Some w => ret {| deleted := deleted result;
                         warnings := warnings result ++ [w] |}
      | None => ret {| deleted := assign "transcription" transcriptionId (deleted result);
                       warnings := warnings result |}
      end
    else ret result in
  if truthy fileId then
    let! warning :=
      tryDeleteResource (delete_file_answer env)
        ("/v1/files/" +:+ to_text fileId) ("file " +:+ to_text fileId) in
    match warning with
    | Some w => ret {| deleted := deleted result;
                       warnings := warnings result ++ [w] |}
    | None => ret {| deleted := assign "file" fileId (deleted result);
                     warnings := warnings result |}
    end
  else ret result.

(** ** One item *)

(** The parameters of an item, as [getNodeParameter] resolves them. *)
Record Config := {
  resource : string;
  operation : string;
  audioSource : string;
  model : JsVal;
  binaryPropertyName : string;
  audioUrl : JsVal;
  fileId : JsVal;
  languageHints : JsVal;
  languageHintsStrict : bool;
  enableLanguageIdentification : bool;
  enableSpeakerDiarization : bool;
  contextMode : string;
  contextText : JsVal;
  contextJson : JsVal;
  clientReferenceId : JsVal;
  webhookUrl : JsVal;
  webhookAuthHeaderName : JsVal;
  webhookAuthHeaderValue : JsVal;
  translationType : string;
  targetLanguage : JsVal;
  languageA : JsVal;
  languageB : JsVal;
  waitForCompletion : bool;
  pollIntervalSec : Z;
  maxWaitSec : Z;
  outputMode : string;
  autoDelete : bool;
  transcriptionId : JsVal;
  deleteTranscriptionId : JsVal }.

Definition CREATE_URL : string := "/v1/transcriptions".

(** [outputMode === 'textOnly' ? { text: transcript?.text ?? '' }
                               : redactWebhookAuthHeaderValue(transcript)] *)
Definition shape_output (outputMode : string) (transcript : JsVal) : JsVal :=
  if String.eqb outputMode "textOnly"
  then VObj [("text", match get_opt transcript "text" with
                      | VUndefined | VNull => VStr ""
                      | text => text
                      end)]
  else redactWebhookAuthHeaderValue transcript.

(** The two locals [audioUrl] and [fileId] after the audio source is read. *)
Definition audio_source (env : Env) (cfg : Config) : M (JsVal * JsVal) :=
  if String.eqb (audioSource cfg) "binary" then
    let! id := uploadFile env (binaryPropertyName cfg) in
    ret (VUndefined, id)
  else if String.eqb (audioSource cfg) "url" then
    if negb (isNonEmptyString (audioUrl cfg))
    then throw (NodeOperationError "Audio URL is required"
                  (Some "Provide a publicly accessible URL to your audio file (e.g., https://example.com/audio.wav)."))
    else ret (audioUrl cfg, VUndefined)
  else if String.eqb (audioSource cfg) "fileId" then
    if negb (isNonEmptyString (fileId cfg))
    then throw (NodeOperationError "File ID is required"
                  (Some "Provide the ID of a file previously uploaded to Soniox."))
    else ret (VUndefined, fileId cfg)
  else throw (NodeOperationError ("Unsupported audio source: " +:+ audioSource cfg)
                (Some "Select a valid audio source: Binary File, Audio URL, or File ID.")).

Definition EXACTLY_ONE_SOURCE : string :=
  "Provide exactly one audio source (audio URL or file ID)".

(** [parseStructuredContext] throws an [ApplicationError] or the
    [SyntaxError] of [JSON.parse], both with a message. *)
Definition read_context (cfg : Config) : M JsVal :=
  if String.eqb (contextMode cfg) "text" then
    ret (if isNonEmptyString (contextText cfg) then contextText cfg else VUndefined)
  else if String.eqb (contextMode cfg) "structured" then
    try_catch (lift (parseStructuredContext (contextJson cfg)))
      (fun e =>
         let message :=
           match e with
           | ApplicationError m | SyntaxError m | NodeOperationError m _
           | HostError m => m
           | _ => EmptyString
           end in
         throw (NodeOperationError ("Invalid context: " +:+ message)
                  (Some "Check that your context JSON is valid. The API expects an object with optional fields: general, text, terms, translation_terms.")))
  else ret VUndefined.

Definition set_if (cond : bool) (k : string) (v : JsVal)
    (body : list (string * JsVal)) : list (string * JsVal) :=
  if cond then assign k v body else body.

Definition has_keys (v : JsVal) : bool :=
  match v with
  | VObj (_ :: _) | VArr (_ :: _) => true
  | _ => false
  end.

Definition translation (cfg : Config) (body : list (string * JsVal))
  : M (list (string * JsVal)) :=
  if String.eqb (translationType cfg) "one_way" then
    if negb (isNonEmptyString (targetLanguage cfg))
    then throw (NodeOperationError "Target language is required for one-way translation"
                  (Some ("Specify the language code to translate to (e.g., "
                         +:+ quoted "en" +:+ ", " +:+ quoted "es" +:+ ", "
                         +:+ quoted "fr" +:+ ").")))
    else ret (assign "translation"
                (VObj [("type", VStr "one_way");
                       ("target_language", targetLanguage cfg)]) body)
  else if String.eqb (translationType cfg) "two_way" then
    if negb (isNonEmptyString (languageA cfg)) || negb (isNonEmptyString (languageB cfg))
    then throw (NodeOperationError "Language A and Language B are required for two-way translation"
                  (Some ("Specify both language codes for bidirectional translation (e.g., "
                         +:+ quoted "en" +:+ " and " +:+ quoted "es" +:+ ").")))
    else ret (assign "translation"
                (VObj [("type", VStr "two_way");
                       ("language_a", languageA cfg);
                       ("language_b", languageB cfg)]) body)
  else ret body.

(** The request body, up to the translation settings. *)
Definition assemble_body (cfg : Config) (audioUrl' fileId' : JsVal)
    (hints : list JsVal) (context : JsVal) : list (string * JsVal) :=
  let body := [("model", model cfg)] in
  let body := set_if (truthy audioUrl') "audio_url" audioUrl' body in
  let body := set_if (truthy fileId') "file_id" fileId' body in
  let body := set_if (negb (Nat.eqb (length hints) 0))
                "language_hints" (VArr hints) body in
  let body := set_if (languageHintsStrict cfg)
                "language_hints_strict" (VBool true) body in
  let body := set_if (enableLanguageIdentification cfg)
                "enable_language_identification" (VBool true) body in
  let body := set_if (enableSpeakerDiarization cfg)
                "enable_speaker_diarization" (VBool true) body in
  let body :=
    match context with
    | VStr _ => set_if (isNonEmptyString context) "context" context body
    | _ => set_if (truthy context && has_keys context) "context" context body
    end in
  let body := set_if (isNonEmptyString (clientReferenceId cfg))
                "client_reference_id" (clientReferenceId cfg) body in
  let body := set_if (isNonEmptyString (webhookUrl cfg))
                "webhook_url" (webhookUrl cfg) body in
  let body := set_if (isNonEmptyString (webhookAuthHeaderName cfg))
                "webhook_auth_header_name" (webhookAuthHeaderName cfg) body in
  set_if (isNonEmptyString (webhookAuthHeaderValue cfg))
    "webhook_auth_header_value" (webhookAuthHeaderValue cfg) body.

(** The [create] operation once the job is created: poll, clean up, then
    rethrow or shape the output. *)
Definition wait_and_clean (env : Env) (fuel : nat) (cfg : Config)
    (fileId' transcriptionId' : JsVal) : M JsVal :=
  (* try { result = await pollForCompletion(...) } catch (error) { pollError = error } *)
  let! polled :=
    try_catch
      (let! result :=
         pollForCompletion env fuel
           {| opt_transcriptionId := transcriptionId';
              opt_pollIntervalSec := pollIntervalSec cfg;
              opt_maxWaitSec := maxWaitSec cfg |} in
       ret (inl result))
      (fun pollError => ret (inr pollError)) in
  (* Auto-delete if enabled (always, even on failure - best effort cleanup) *)
  let! deleteWarnings :=
    if autoDelete cfg then
      let fileIdToDelete :=
        if String.eqb (audioSource cfg) "binary" then fileId' else VUndefined in
      let! deleteResult := deleteResources env transcriptionId' fileIdToDelete in
      ret (warnings deleteResult)
    else ret [] in
  (* Re-throw the original error after cleanup *)
  match polled with
  | inr pollError => throw pollError
  | inl result =>
      let output := shape_output (outputMode cfg) (result_transcript result) in
      match deleteWarnings with
      | [] => ret output
      | _ => lift (set_prop output "_deleteWarnings" (VArr (map VStr deleteWarnings)))
      end
  end.

Definition create (env : Env) (fuel : nat) (cfg : Config) : M JsVal :=
  if negb (isNonEmptyString (model cfg))
  then throw (NodeOperationError "Model is required"
                (Some ("Specify a Soniox model ID (e.g., " +:+ quoted "stt-async-v3"
                       +:+ "). Check Soniox documentation for available models.")))
  else
  let! source := audio_source env cfg in
  let audioUrl' := fst source in
  let fileId' := snd source in
  if (truthy audioUrl' && truthy fileId')
     || (negb (truthy audioUrl') && negb (truthy fileId'))
  then throw (NodeOperationError EXACTLY_ONE_SOURCE
                (Some "Select one audio source type and provide the required value."))
  else
  let! hints := lift (normalizeLanguageHints (languageHints cfg)) in
  let! context := read_context cfg in
  let! body := translation cfg (assemble_body cfg audioUrl' fileId' hints context) in
  let! response :=
    sonioxApiRequest (create_answer env) "POST" CREATE_URL (JsonBody body) in
  if negb (waitForCompletion cfg)
  then ret (redactWebhookAuthHeaderValue response)
  else
  let! transcriptionId' := lift (get response "id") in
  if negb (truthy transcriptionId')
  then throw (NodeOperationError "Transcription creation did not return an ID"
                (Some "The Soniox API response was unexpected. Please try again or contact Soniox support."))
  else
  wait_and_clean env fuel cfg fileId' transcriptionId'.

Definition delete (env : Env) (cfg : Config) : M JsVal :=
  if negb (isNonEmptyString (deleteTranscriptionId cfg))
  then throw (NodeOperationError "Transcription ID is required"
                (Some "Provide the ID of the transcription you want to delete."))
  else
  let! fileIdToDelete :=
    try_catch
      (let! transcriptionDetails :=
         sonioxApiRequest (details_answer env) "GET"
           (status_url (deleteTranscriptionId cfg)) NoBody in
       ret (get_opt transcriptionDetails "file_id"))
      (fun _ => ret VUndefined) in
  let! deleteResult :=
    deleteResources env (deleteTranscriptionId cfg)
      (if isNonEmptyString fileIdToDelete then fileIdToDelete else VUndefined) in
  ret (VObj [("success", VBool (Nat.eqb (length (warnings deleteResult)) 0));
             ("deleted", VObj (deleted deleteResult));
             ("warnings", match warnings deleteResult with
                          | [] => VUndefined
                          | ws => VArr (map VStr ws)
                          end)]).

Definition getResults (env : Env) (fuel : nat) (cfg : Config) : M JsVal :=
  if negb (isNonEmptyString (transcriptionId cfg))
  then throw (NodeOperationError "Transcription ID is required"
                (Some "Provide the transcription ID returned when creating a transcription, or from a webhook callback."))
  else if negb (waitForCompletion cfg) then
    let! statusResponse :=
      sonioxApiRequest (status_answer env 0) "GET"
        (status_url (transcriptionId cfg)) NoBody in
    let status := get_opt statusResponse "status" in
    if is_string status STATUS_COMPLETED then
      let! transcript :=
        sonioxApiRequest (transcript_answer env) "GET"
          (status_url (transcriptionId cfg) +:+ "/transcript") NoBody in
      ret (shape_output (outputMode cfg) transcript)
    else if is_string status STATUS_ERROR
    then throw (job_failed statusResponse JOB_FAILED_WAS)
    else ret (redactWebhookAuthHeaderValue statusResponse)
  else
    let! result :=
      pollForCompletion env fuel
        {| opt_transcriptionId := transcriptionId cfg;
           opt_pollIntervalSec := pollIntervalSec cfg;
           opt_maxWaitSec := maxWaitSec cfg |} in
    ret (shape_output (outputMode cfg) (result_transcript result)).

(** The body of the [try] block for one item. *)
Definition item_body (env : Env) (fuel : nat) (cfg : Config) : M JsVal :=
  if negb (String.eqb (resource cfg) "transcription")
  then throw (NodeOperationError ("Unsupported resource: " +:+ resource cfg) None)
  else if String.eqb (operation cfg) "create" then create env fuel cfg
  else if String.eqb (operation cfg) "delete" then delete env cfg
  else if String.eqb (operation cfg) "getResults" then getResults env fuel cfg
  else throw (NodeOperationError ("Unsupported operation: " +:+ operation cfg) None).

Record ItemOutput := {
  out_json : JsVal;
  out_error : option Error;
  out_pairedItem : nat }.

Record Item := {
  item_json : JsVal;
  item_config : Config;
  item_env : Env }.

Definition execute_item (fuel itemIndex : nat) (item : Item) : M ItemOutput :=
  try_catch
    (let! json := item_body (item_env item) fuel (item_config item) in
     ret {| out_json := json; out_error := None; out_pairedItem := itemIndex |})
    (fun error =>
       if continueOnFail (item_env item)
       then ret {| out_json := item_json item; out_error := Some error;
                   out_pairedItem := itemIndex |}
       else match error with
            | NodeOperationError _ _ => throw error
            | _ => throw (WrappedError error itemIndex)
            end).

Fixpoint execute_from (fuel itemIndex : nat) (items : list Item)
  : M (list ItemOutput) :=
  match items with
  | [] => ret []
  | item :: rest =>
      let! output := execute_item fuel itemIndex item in
      let! outputs := execute_from fuel (S itemIndex) rest in
      ret (output :: outputs)
  end.

Definition execute (fuel : nat) (items : list Item) : M (list ItemOutput) :=
  execute_from fuel 0%nat items.
End Node.

(** ** The credential test

    The credential type declares its test as data: a request and rules on
    the response code. The host interprets the rules. *)
Record TestRule := {
  rule_type : string;
  rule_value : Z;
  rule_message : string }.

Record CredentialTest := {
  test_baseURL : string;
  test_url : string;
  test_method : string;
  test_rules : list TestRule }.

Definition SonioxApi_test : CredentialTest :=
  {| test_baseURL := "={{$credentials.baseUrl}}";
     test_url := "/v1/transcriptions/credential-test";
     test_method := "GET";
     test_rules :=
       [ {| rule_type := "responseCode";
            rule_value := 404;
            rule_message := "Authentication failed. Verify your Soniox API key." |} ] |}.

(** ** The credential type: [authenticate]

    The credentials are taken as their properties declare them: the API key,
    and a base URL that is a string when it is there. *)
Definition DEFAULT_BASE_URL : string := "https://api.soniox.com".

Record Credentials := {
  apiKey : JsVal;
  baseUrl : option string }.

Record RequestOptions := {
  baseURL : option string;
  headers : option (list (string * JsVal));
  otherOptions : list (string * JsVal) }.

(** [s.replace(/\/$/, '')] *)
Fixpoint dropFinalSlash (s : string) : string :=
  match s with
  | EmptyString => EmptyString
  | String c rest =>
      match rest with
      | EmptyString => if Ascii.eqb c "/" then EmptyString else s
      | String _ _ => String c (dropFinalSlash rest)
      end
  end.

Definition authenticate (credentials : Credentials)
    (requestOptions : RequestOptions) : RequestOptions :=
  let baseUrl' :=
    if text_truthy (baseUrl credentials)
    then default "" (baseUrl credentials) else DEFAULT_BASE_URL in
  {| baseURL := Some (dropFinalSlash baseUrl');
     headers :=
       Some (spread_with (default [] (headers requestOptions))
               "Authorization"
               (VStr ("Bearer " +:+ to_text (apiKey credentials))));
     otherOptions := otherOptions requestOptions |}.

(** ** The earlier revision of the node

    Before [parseStructuredContext] and [extractErrorDetails] were written,
    the structured context was read by [parseJsonValue] and a failed call
    without a detail rethrew the error of the HTTP helper. *)
Module Earlier.
Definition parseJsonValue (JSON_parse : string → JsVal + string)
    (value fallback : JsVal) : JsVal :=
  match value with
  | VStr s =>
      if truthy value
      then match JSON_parse s with
           | inl parsed => parsed
           | inr _ => fallback
           end
      else fallback
  | VObj _ | VArr _ => value
  | _ => fallback
  end.

Definition read_context (JSON_parse : string → JsVal + string) (cfg : Config)
  : JsVal :=
  if String.eqb (contextMode cfg) "text" then
    if isNonEmptyString (contextText cfg) then contextText cfg else VUndefined
  else if String.eqb (contextMode cfg) "structured" then
    parseJsonValue JSON_parse (contextJson cfg) (VObj [])
  else VUndefined.

Definition sonioxApiRequest_error (error : SonioxApiError) : Error :=
  let detail :=
    if text_truthy (cause_error_of error ≫= inner_detail)
    then default "" (cause_error_of error ≫= inner_detail)
    else if text_truthy (cause_error_of error ≫= inner_message)
    then default "" (cause_error_of error ≫= inner_message)
    else if text_truthy (response_body_of error ≫= body_detail)
    then default "" (response_body_of error ≫= body_detail)
    else if text_truthy (response_body_of error ≫= body_message)
    then default "" (response_body_of error ≫= body_message)
    else if text_truthy (response_body_of error ≫= body_error)
    then default "" (response_body_of error ≫= body_error)
    else if text_truthy (err_description error)
    then default "" (err_description error)
    else "" in
  if negb (is_empty detail)
  then NodeOperationError ("Soniox API error: " +:+ detail) None
  else RequestError error.
End Earlier.

(** ** A reader for a fragment of JSON

    One function that [JSON_parse] can stand for: it reads [null], [true],
    [false], integers, strings without escapes, arrays and objects, and
    reports anything else as a syntax error. *)
Module Reader.
Definition is_digit (c : ascii) : bool :=
  ((48 <=? nat_of_ascii c) && (nat_of_ascii c <=? 57))%nat.

Definition is_space (c : ascii) : bool :=
  let n := nat_of_ascii c in
  ((n =? 9) || (n =? 10) || (n =? 13) || (n =? 32))%nat.

Fixpoint skip (s : string) : string :=
  match s with
  | String c rest => if is_space c then skip rest else s
  | EmptyString => s
  end.

Fixpoint digits (acc : Z) (s : string) : Z * string :=
  match s with
  | String c rest =>
      if is_digit c
      then digits (acc * 10 + Z.of_nat (nat_of_ascii c - 48)) rest
      else (acc, s)
  | EmptyString => (acc, s)
  end.

(** The characters up to the closing quote. *)
Fixpoint text (s : string) : option (string * string) :=
  match s with
  | EmptyString => None
  | String c rest =>
      if Ascii.eqb c (ascii_of_nat 34) then Some (EmptyString, rest)
      else if Ascii.eqb c (ascii_of_nat 92) then None
      else match text rest with
           | Some (t, rest') => Some (String c t, rest')
           | None => None
           end
  end.

(** A member put before the members that follow it; of two members with
    one key the later value stays, at the place of the earlier. *)
Definition member (k : string) (v : JsVal) (later : list (string * JsVal))
  : list (string * JsVal) :=
  match own k later with
  | Some v' =>
      (k, v') :: List.filter (fun kv => negb (String.eqb k (fst kv))) later
  | None => (k, v) :: later
  end.

Fixpoint value (fuel : nat) (s : string) : option (JsVal * string) :=
  match fuel with
  | O => None
  | S fuel' =>
      match skip s with
      | String "n" (String "u" (String "l" (String "l" rest))) =>
          Some (VNull, rest)
      | String "t" (String "r" (String "u" (String "e" rest))) =>
          Some (VBool true, rest)
      | String "f" (String "a" (String "l" (String "s" (String "e" rest)))) =>
          Some (VBool false, rest)
      | String "[" rest =>
          match skip rest with
          | String "]" rest' => Some (VArr [], rest')
          | _ => match items fuel' rest with
                 | Some (vs, rest') => Some (VArr vs, rest')
                 | None => None
                 end
          end
      | String "{" rest =>
          match skip rest with
          | String "}" rest' => Some (VObj [], rest')
          | _ => match members fuel' rest with
                 | Some (fs, rest') => Some (VObj fs, rest')
                 | None => None
                 end
          end
      | String "-" (String c rest) =>
          if is_digit c
          then let '(n, rest') := digits 0 (String c rest) in Some (VNum (- n), rest')
          else None
      | String c rest =>
          if Ascii.eqb c (ascii_of_nat 34)
          then match text rest with
               | Some (t, rest') => Some (VStr t, rest')
               | None => None
               end
          else if is_digit c
          then let '(n, rest') := digits 0 (String c rest) in Some (VNum n, rest')
          else None
      | EmptyString => None
      end
  end
with items (fuel : nat) (s : string) : option (list JsVal * string) :=
  match fuel with
  | O => None
  | S fuel' =>
      match value fuel' s with
      | Some (v, rest) =>
          match skip rest with
          | String "]" rest' => Some ([v], rest')
          | String "," rest' =>
              match items fuel' rest' with
              | Some (vs, rest'') => Some (v :: vs, rest'')
              | None => None
              end
          | _ => None
          end
      | None => None
      end
  end
with members (fuel : nat) (s : string)
  : option (list (string * JsVal) * string) :=
  match fuel with
  | O => None
  | S fuel' =>
      match skip s with
      | String q rest =>
          if Ascii.eqb q (ascii_of_nat 34)
          then match text rest with
               | Some (k, rest1) =>
                   match skip rest1 with
                   | String ":" rest2 =>
                       match value fuel' rest2 with
                       | Some (v, rest3) =>
                           match skip rest3 with
                           | String "}" rest4 => Some ([(k, v)], rest4)
                           | String "," rest4 =>
                               match members fuel' rest4 with
                               | Some (fs, rest5) => Some (member k v fs, rest5)
                               | None => None
                               end
                           | _ => None
                           end
                       | None => None
                       end
                   | _ => None
                   end
               | None => None
               end
          else None
      | EmptyString => None
      end
  end.

Definition parse (s : string) : JsVal + string :=
  match value (2 * String.length s + 2) s with
  | Some (v, rest) =>
      if is_empty (skip rest) then inl v else inr "Unexpected token in JSON"
  | None => inr "Unexpected token in JSON"
  end.
End Reader.

(** * Vocabulary of the properties *)

(** A string that is empty or holds white space only. *)
Fixpoint blank (s : string) : bool :=
  match s with
  | EmptyString => true
  | String c rest => is_ws c && blank rest
  end.

(** A language code that is kept: a string that is not blank. *)
Definition kept_code (c : JsVal) : Prop :=
  ∃ s, c = VStr s ∧ blank s = false.

(** The codes as entered, one per entry of the list. *)
Definition entered_codes (languages : list JsVal) : list JsVal :=
  map (fun entry => get_opt entry "code") languages.

Definition nullish (v : JsVal) : bool :=
  match v with VUndefined | VNull => true | _ => false end.

(** The places a message is looked for, in the order of the specification:
    cause.error.detail, cause.error.message, response.body.detail,
    response.body.message, response.body.error, description, message. *)
Definition message_probes : list (SonioxApiError → option string) :=
  [ (fun e => (err_cause e ≫= cause_error) ≫= inner_detail);
    (fun e => (err_cause e ≫= cause_error) ≫= inner_message);
    (fun e => (err_response e ≫= response_body) ≫= body_detail);
    (fun e => (err_response e ≫= response_body) ≫= body_message);
    (fun e => (err_response e ≫= response_body) ≫= body_error);
    err_description;
    err_message ].

(** The first probe that yields a message: a string that is not empty. *)
Fixpoint first_present (probes : list (SonioxApiError → option string))
    (e : SonioxApiError) : option string :=
  match probes with
  | [] => None
  | probe :: rest =>
      match probe e with
      | Some (String c m) => Some (String c m)
      | _ => first_present rest e
      end
  end.

(** The status that ends polling: ["completed"] or ["error"]. *)
Definition terminal (statusResponse : JsVal) : bool :=
  is_string (get_opt statusResponse "status") STATUS_COMPLETED
  || is_string (get_opt statusResponse "status") STATUS_ERROR.

(** The deadline, fixed once when the loop is entered. *)
Definition deadline (env : Env) (options : PollOptions) : Z :=
  poll_start env + Z.max 1 (opt_maxWaitSec options) * 1000.

(** The [i]-th status request is answered, and with a status that is not
    terminal. *)
Definition pending (env : Env) (i : nat) : Prop :=
  ∃ statusResponse,
    status_answer env i = HttpOk statusResponse
    ∧ terminal statusResponse = false.

(** The [i]-th iteration goes round: the job is pending, the deadline has
    not passed and the sleep is not cancelled. *)
Definition goes_round (env : Env) (options : PollOptions) (i : nat) : Prop :=
  pending env i
  ∧ clock_at env i <= deadline env options
  ∧ sleep_aborted env i = false.

Definition contains (part whole : string) : Prop :=
  ∃ before after, whole = before +:+ part +:+ after.

Definition status_request (options : PollOptions) : Event :=
  Call {| req_method := "GET";
          req_url := status_url (opt_transcriptionId options);
          req_body := NoBody |}.

(** The first character of the message of an error of the node. *)
Definition message_head (e : Error) : option ascii :=
  match e with
  | NodeOperationError m _ => String.get 0 m
  | _ => None
  end.

(** The bodies of the create calls (POST /v1/transcriptions) in a trace. *)
Definition is_create_call (r : Request) : bool :=
  String.eqb (req_method r) "POST" && String.eqb (req_url r) CREATE_URL.

Fixpoint create_calls (t : list Event) : list Body :=
  match t with
  | [] => []
  | Call r :: rest =>
      if is_create_call r then req_body r :: create_calls rest
      else create_calls rest
  | Sleep _ :: rest => create_calls rest
  end.

(** A computation that issues no create call. *)
Definition quiet {A} (m : M A) : Prop := create_calls (trace m) = [].

(** A body with exactly one of [audio_url] and [file_id]. *)
Definition one_source (body : Body) : Prop :=
  ∃ fields,
    body = JsonBody fields
    ∧ xorb (hasOwnProperty "audio_url" fields)
           (hasOwnProperty "file_id" fields) = true.

Definition succeeds {A} (m : M A) : bool :=
  match outcome m with Ok _ => true | _ => false end.

(** Which audio source the parameters populate: an audio URL, or a file id
    (given, or obtained from the upload). *)
Definition url_populated (cfg : Config) : bool :=
  String.eqb (audioSource cfg) "url" && isNonEmptyString (audioUrl cfg).

Definition file_populated (JSON_parse : string → JsVal + string)
    (env : Env) (cfg : Config) : bool :=
  String.eqb (audioSource cfg) "fileId" && isNonEmptyString (fileId cfg)
  || String.eqb (audioSource cfg) "binary"
     && succeeds (uploadFile JSON_parse env (binaryPropertyName cfg)).

Definition is_validation_error (e : Error) : Prop :=
  ∃ message description, e = NodeOperationError message description.

(** The run of [create] reaches polling: the parameters are accepted, the
    job is created with the identifier [id], and waiting is asked for;
    [f] is the local [fileId] at that point. *)
Definition reaches_polling (JSON_parse : string → JsVal + string)
    (env : Env) (cfg : Config) (f id : JsVal) : Prop :=
  isNonEmptyString (model cfg) = true
  ∧ waitForCompletion cfg = true
  ∧ ∃ a hints context body response,
      outcome (audio_source JSON_parse env cfg) = Ok (a, f)
      ∧ normalizeLanguageHints (languageHints cfg) = Ok hints
      ∧ outcome (read_context JSON_parse cfg) = Ok context
      ∧ outcome (translation cfg (assemble_body cfg a f hints context)) = Ok body
      ∧ create_answer env = HttpOk response
      ∧ get response "id" = Ok id
      ∧ truthy id = true.

(** The poll and the cleanup that [create] runs for the job [id]. *)
Definition poll_of (env : Env) (fuel : nat) (cfg : Config) (id : JsVal)
  : M TranscriptResult :=
  pollForCompletion env fuel
    {| opt_transcriptionId := id;
       opt_pollIntervalSec := pollIntervalSec cfg;
       opt_maxWaitSec := maxWaitSec cfg |}.

Definition file_to_delete (cfg : Config) (f : JsVal) : JsVal :=
  if String.eqb (audioSource cfg) "binary" then f else VUndefined.

Definition cleanup_of (env : Env) (cfg : Config) (f id : JsVal) : M DeleteResult :=
  deleteResources env id (file_to_delete cfg f).

(** How many of the deletions attempted for a job and a file fail. *)
Definition failed (answer : HttpResult) : nat :=
  match answer with HttpFail _ => 1 | HttpOk _ => 0 end.

Definition failed_deletions (env : Env) (transcriptionId fileId : JsVal) : nat :=
  (if truthy transcriptionId then failed (delete_transcription_answer env) else 0)
  + (if truthy fileId then failed (delete_file_answer env) else 0).

Definition delete_transcription_request (id : JsVal) : Event :=
  Call {| req_method := "DELETE";
          req_url := "/v1/transcriptions/" +:+ to_text id;
          req_body := NoBody |}.

(** ** Sample inputs *)

Definition plain_error : SonioxApiError :=
  {| err_message := None; err_description := None; err_httpCode := None;
     err_cause := None; err_response := None |}.

(** A world in which the job [t1] is created, every status request is
    answered by [statuses], the clock reads [clock], the transcript has the
    text [hello], and deleting the transcription is answered by [deletion]. *)
Definition sample_env (statuses : nat → HttpResult) (clock : nat → Z)
    (deletion : HttpResult) : Env :=
  {| assertBinaryData := fun _ => inl (HostError "no binary data");
     getBinaryDataBuffer := fun _ => inl (HostError "no binary data");
     boundary_now := 0;
     boundary_random := "0";
     upload_answer := RawFail plain_error;
     create_answer := HttpOk (VObj [("id", VStr "t1"); ("status", VStr "queued")]);
     poll_start := 0;
     status_answer := statuses;
     clock_at := clock;
     sleep_aborted := fun _ => false;
     transcript_answer := HttpOk (VObj [("id", VStr "t1"); ("text", VStr "hello")]);
     details_answer := HttpFail plain_error;
     delete_transcription_answer := deletion;
     delete_file_answer := HttpOk VUndefined;
     continueOnFail := false |}.

(** Parameters of a [create] from the URL [url], with the structured
    context [context], waiting at most [wait] seconds. *)
Definition sample_cfg (url context : JsVal) (wait : Z) : Config :=
  {| resource := "transcription";
     operation := "create";
     audioSource := "url";
     model := VStr "stt-async-v3";
     binaryPropertyName := "data";
     audioUrl := url;
     fileId := VStr "";
     languageHints := VObj [];
     languageHintsStrict := false;
     enableLanguageIdentification := false;
     enableSpeakerDiarization := false;
     contextMode := "structured";
     contextText := VStr "";
     contextJson := context;
     clientReferenceId := VStr "";
     webhookUrl := VStr "";
     webhookAuthHeaderName := VStr "";
     webhookAuthHeaderValue := VStr "";
     translationType := "none";
     targetLanguage := VStr "";
     languageA := VStr "";
     languageB := VStr "";
     waitForCompletion := true;
     pollIntervalSec := 1;
     maxWaitSec := wait;
     outputMode := "full";
     autoDelete := true;
     transcriptionId := VStr "";
     deleteTranscriptionId := VStr "" |}.

Definition with_status (status : string) : HttpResult :=
  HttpOk (VObj [("id", VStr "t1"); ("status", VStr status)]).

(** The clock reads 10 ms after each full second since the loop was
    entered. *)
Definition ticking (i : nat) : Z := 1000 * Z.of_nat i + 10.

Definition sample_options (wait : Z) : PollOptions :=
  {| opt_transcriptionId := VStr "t1";
     opt_pollIntervalSec := 1;
     opt_maxWaitSec := wait |}.

Definition sample_url : JsVal := VStr "https://example.com/audio.wav".

(** ** Vocabulary of the further properties *)

(** The places an error code is looked for, in order. *)
Definition code_probes : list (SonioxApiError → option string) :=
  [ (fun e => (err_cause e ≫= cause_error) ≫= inner_code);
    (fun e => err_cause e ≫= cause_code);
    (fun e => (err_response e ≫= response_body) ≫= body_code) ].


(** The characters that [safeFileName] removes. *)
Definition breaks_header (c : ascii) : bool :=
  Ascii.eqb c CR || Ascii.eqb c LF || Ascii.eqb c QUOTE.

(** The world [env] with another answer to the upload. *)
Definition with_upload (env : Env) (answer : RawResult) : Env :=
  {| assertBinaryData := assertBinaryData env;
     getBinaryDataBuffer := getBinaryDataBuffer env;
     boundary_now := boundary_now env;
     boundary_random := boundary_random env;
     upload_answer := answer;
     create_answer := create_answer env;
     poll_start := poll_start env;
     status_answer := status_answer env;
     clock_at := clock_at env;
     sleep_aborted := sleep_aborted env;
     transcript_answer := transcript_answer env;
     details_answer := details_answer env;
     delete_transcription_answer := delete_transcription_answer env;
     delete_file_answer := delete_file_answer env;
     continueOnFail := continueOnFail env |}.

Definition NO_FILE_ID : string := "File upload did not return a file ID".

Definition is_upload_call (ev : Event) : bool :=
  match ev with
  | Call r => String.eqb (req_method r) "POST" && String.eqb (req_url r) "/v1/files"
  | Sleep _ => false
  end.

(** The delay between two status requests, in milliseconds. *)
Definition poll_delay (options : PollOptions) : Z :=
  Z.max 1 (opt_pollIntervalSec options) * 1000.

Definition transcript_request (options : PollOptions) : Event :=
  Call {| req_method := "GET";
          req_url := status_url (opt_transcriptionId options) +:+ "/transcript";
          req_body := NoBody |}.

(** [n] iterations that go round: a status request and a sleep each. *)
Fixpoint rounds (n : nat) (options : PollOptions) : list Event :=
  match n with
  | O => []
  | S n' => status_request options :: Sleep (poll_delay options) :: rounds n' options
  end.

(** What follows the status request of the iteration that ends the loop. *)
Definition poll_tail (env : Env) (options : PollOptions) (n : nat) : list Event :=
  match status_answer env n with
  | HttpFail _ => []
  | HttpOk statusResponse =>
      if is_string (get_opt statusResponse "status") STATUS_COMPLETED
      then [transcript_request options]
      else if is_string (get_opt statusResponse "status") STATUS_ERROR then []
      else if clock_at env n >? deadline env options then []
      else [Sleep (poll_delay options)]
  end.

(** A trace that only reads: sleeps and GET requests. *)
Definition reads_only (t : list Event) : Prop :=
  Forall (fun ev => match ev with
                    | Call r => req_method r = "GET"
                    | Sleep _ => True
                    end) t.

(** A world with binary data, and the text of an upload answer. *)
Definition upload_env : Env :=
  {| assertBinaryData := fun _ =>
       inr {| fileName := None; fileExtension := Some "mp3"; mimeType := None |};
     getBinaryDataBuffer := fun _ => inr "RIFF";
     boundary_now := 255;
     boundary_random := "abc";
     upload_answer := RawFail plain_error;
     create_answer := HttpFail plain_error;
     poll_start := 0;
     status_answer := fun _ => HttpFail plain_error;
     clock_at := fun _ => 0;
     sleep_aborted := fun _ => false;
     transcript_answer := HttpFail plain_error;
     details_answer := HttpFail plain_error;
     delete_transcription_answer := HttpFail plain_error;
     delete_file_answer := HttpFail plain_error;
     continueOnFail := false |}.

Definition upload_text : string :=
  "{" +:+ quoted "id" +:+ ":" +:+ quoted "f1" +:+ "}".

(** The [n]-th iteration ends the loop: its status request fails, or the
    status is terminal, or the deadline has passed, or the sleep is
    cancelled. *)
Definition stops (env : Env) (options : PollOptions) (n : nat) : Prop :=
  match status_answer env n with
  | HttpFail _ => True
  | HttpOk statusResponse =>
      terminal statusResponse = true
      ∨ clock_at env n > deadline env options
      ∨ sleep_aborted env n = true
  end.

(** The clock shows at least one poll delay more in each iteration. *)
Definition clock_advances (env : Env) (options : PollOptions) : Prop :=
  ∀ j, poll_start env + Z.of_nat j * poll_delay options <= clock_at env j.

(** Fuel for the status checks that fit before the deadline, and two more. *)
Definition enough_fuel (options : PollOptions) : nat :=
  Z.to_nat (Z.max 1 (opt_maxWaitSec options)
            / Z.max 1 (opt_pollIntervalSec options) + 2).

(** What a computation returns, if it returns, satisfies [P]. *)
Definition returns {A} (m : M A) (P : A → Prop) : Prop :=
  ∀ a, outcome m = Ok a → P a.

(** Every event of a computation satisfies [P]. *)
Definition issues {A} (m : M A) (P : Event → Prop) : Prop :=
  Forall P (trace m).

Definition delete_file_request (id : JsVal) : Event :=
  Call {| req_method := "DELETE";
          req_url := "/v1/files/" +:+ to_text id;
          req_body := NoBody |}.

Definition answered (answer : HttpResult) : bool :=
  match answer with HttpOk _ => true | HttpFail _ => false end.

(** The file that the [delete] operation removes with the transcription:
    the [file_id] of the details, when they come and it is a non-blank
    string. *)
Definition file_of_details (env : Env) : JsVal :=
  match details_answer env with
  | HttpOk details =>
      if isNonEmptyString (get_opt details "file_id")
      then get_opt details "file_id" else VUndefined
  | HttpFail _ => VUndefined
  end.

Definition details_request (cfg : Config) : Event :=
  Call {| req_method := "GET";
          req_url := status_url (deleteTranscriptionId cfg);
          req_body := NoBody |}.

Definition is_delete_call (ev : Event) : bool :=
  match ev with
  | Call r => String.eqb (req_method r) "DELETE"
  | Sleep _ => false
  end.

(** The status check of [getResults] without waiting. *)
Definition results_request (cfg : Config) : Event :=
  Call {| req_method := "GET";
          req_url := status_url (transcriptionId cfg);
          req_body := NoBody |}.

(** A value that shows no secret at its top level: it has no
    [webhook_auth_header_value] or the placeholder in its place. *)
Definition hides_secret (v : JsVal) : Prop :=
  ∀ fields, v = VObj fields →
    own SECRET_KEY fields = None ∨ own SECRET_KEY fields = Some (VStr REDACTED).

(** Parameters that an operation refuses before it issues a request. *)
Definition refused (cfg : Config) : bool :=
  negb (String.eqb (resource cfg) "transcription")
  || (if String.eqb (operation cfg) "create" then
        negb (isNonEmptyString (model cfg))
        || String.eqb (audioSource cfg) "url" && negb (isNonEmptyString (audioUrl cfg))
        || String.eqb (audioSource cfg) "fileId" && negb (isNonEmptyString (fileId cfg))
        || negb (String.eqb (audioSource cfg) "binary"
                 || String.eqb (audioSource cfg) "url"
                 || String.eqb (audioSource cfg) "fileId")
      else if String.eqb (operation cfg) "delete" then
        negb (isNonEmptyString (deleteTranscriptionId cfg))
      else if String.eqb (operation cfg) "getResults" then
        negb (isNonEmptyString (transcriptionId cfg))
      else true).

(** The translation settings that the parameters ask for. *)
Definition translation_of (cfg : Config) : option JsVal :=
  if String.eqb (translationType cfg) "one_way" then
    Some (VObj [("type", VStr "one_way");
                ("target_language", targetLanguage cfg)])
  else if String.eqb (translationType cfg) "two_way" then
    Some (VObj [("type", VStr "two_way");
                ("language_a", languageA cfg);
                ("language_b", languageB cfg)])
  else None.

(** The context that the parameters ask for. *)
Definition context_of (JSON_parse : string → JsVal + string) (cfg : Config)
  : option JsVal :=
  if String.eqb (contextMode cfg) "text" then
    if isNonEmptyString (contextText cfg) then Some (contextText cfg) else None
  else if String.eqb (contextMode cfg) "structured" then
    match parseStructuredContext JSON_parse (contextJson cfg) with
    | Ok (VObj fields) => Some (VObj fields)
    | _ => None
    end
  else None.

(** Translation settings that are refused: a direction without its
    language. *)
Definition translation_refused (cfg : Config) : bool :=
  String.eqb (translationType cfg) "one_way"
    && negb (isNonEmptyString (targetLanguage cfg))
  || String.eqb (translationType cfg) "two_way"
     && (negb (isNonEmptyString (languageA cfg))
         || negb (isNonEmptyString (languageB cfg))).

(** An object with each key once and no falsy value. *)
Definition well_formed (fields : list (string * JsVal)) : Prop :=
  NoDup (map fst fields) ∧ Forall (fun kv => truthy (snd kv) = true) fields.

(** Parameters of the operation [op] on the job [id], from the sample URL,
    with a context text and a webhook secret. *)
Definition other_cfg (op translate : string) (id : JsVal) (wait auto : bool)
  : Config :=
  {| resource := "transcription";
     operation := op;
     audioSource := "url";
     model := VStr "stt-async-v3";
     binaryPropertyName := "data";
     audioUrl := sample_url;
     fileId := VStr "";
     languageHints := VObj [];
     languageHintsStrict := false;
     enableLanguageIdentification := false;
     enableSpeakerDiarization := false;
     contextMode := "text";
     contextText := VStr " names: Ada ";
     contextJson := VUndefined;
     clientReferenceId := VStr "";
     webhookUrl := VStr "https://example.com/hook";
     webhookAuthHeaderName := VStr "X-Auth";
     webhookAuthHeaderValue := VStr "s3cret";
     translationType := translate;
     targetLanguage := VStr "";
     languageA := VStr "en";
     languageB := VStr "es";
     waitForCompletion := wait;
     pollIntervalSec := 1;
     maxWaitSec := 180;
     outputMode := "full";
     autoDelete := auto;
     transcriptionId := id;
     deleteTranscriptionId := id |}.

(** A world that echoes the webhook secret in what it answers. *)
Definition echo_env : Env :=
  {| assertBinaryData := fun _ => inl (HostError "no binary data");
     getBinaryDataBuffer := fun _ => inl (HostError "no binary data");
     boundary_now := 0;
     boundary_random := "0";
     upload_answer := RawFail plain_error;
     create_answer :=
       HttpOk (VObj [("id", VStr "t1"); (SECRET_KEY, VStr "s3cret")]);
     poll_start := 0;
     status_answer := fun _ =>
       HttpOk (VObj [("status", VStr "completed"); (SECRET_KEY, VStr "s3cret")]);
     clock_at := ticking;
     sleep_aborted := fun _ => false;
     transcript_answer :=
       HttpOk (VObj [("text", VStr "hello"); (SECRET_KEY, VStr "s3cret")]);
     details_answer := HttpOk (VObj [("file_id", VStr "f1")]);
     delete_transcription_answer := HttpOk VUndefined;
     delete_file_answer := HttpFail plain_error;
     continueOnFail := false |}.

(** The parameters [cfg] with the audio read from the binary property. *)
Definition from_binary (cfg : Config) : Config :=
  {| resource := resource cfg;
     operation := operation cfg;
     audioSource := "binary";
     model := model cfg;
     binaryPropertyName := binaryPropertyName cfg;
     audioUrl := audioUrl cfg;
     fileId := fileId cfg;
     languageHints := languageHints cfg;
     languageHintsStrict := languageHintsStrict cfg;
     enableLanguageIdentification := enableLanguageIdentification cfg;
     enableSpeakerDiarization := enableSpeakerDiarization cfg;
     contextMode := contextMode cfg;
     contextText := contextText cfg;
     contextJson := contextJson cfg;
     clientReferenceId := clientReferenceId cfg;
     webhookUrl := webhookUrl cfg;
     webhookAuthHeaderName := webhookAuthHeaderName cfg;
     webhookAuthHeaderValue := webhookAuthHeaderValue cfg;
     translationType := translationType cfg;
     targetLanguage := targetLanguage cfg;
     languageA := languageA cfg;
     languageB := languageB cfg;
     waitForCompletion := waitForCompletion cfg;
     pollIntervalSec := pollIntervalSec cfg;
     maxWaitSec := maxWaitSec cfg;
     outputMode := outputMode cfg;
     autoDelete := autoDelete cfg;
     transcriptionId := transcriptionId cfg;
     deleteTranscriptionId := deleteTranscriptionId cfg |}.

(** An event that deletes nothing. *)
Definition keeps (ev : Event) : Prop := is_delete_call ev = false.

(** The error that [execute] throws for the error [e] of the item
    [itemIndex]. *)
Definition rethrown (e : Error) (itemIndex : nat) : Error :=
  match e with
  | NodeOperationError _ _ => e
  | _ => WrappedError e itemIndex
  end.

(** [output] is what the item [item] at [itemIndex] gives: the result of
    its operation, or its own json with the error. *)
Definition output_of (JSON_parse : string → JsVal + string) (fuel itemIndex : nat)
    (item : Item) (output : ItemOutput) : Prop :=
  out_pairedItem output = itemIndex
  ∧ match outcome (item_body JSON_parse (item_env item) fuel (item_config item)) with
    | Ok json => out_json output = json ∧ out_error output = None
    | Throw e => out_json output = item_json item ∧ out_error output = Some e
    | OutOfFuel => False
    end.

(** The operation of the item ends within [fuel] status checks. *)
Definition finishes (JSON_parse : string → JsVal + string) (fuel : nat)
    (item : Item) : Prop :=
  outcome (item_body JSON_parse (item_env item) fuel (item_config item))
  ≠ OutOfFuel.

(** The world [env] of a node set to continue on failure. *)
Definition continuing (env : Env) : Env :=
  {| assertBinaryData := assertBinaryData env;
     getBinaryDataBuffer := getBinaryDataBuffer env;
     boundary_now := boundary_now env;
     boundary_random := boundary_random env;
     upload_answer := upload_answer env;
     create_answer := create_answer env;
     poll_start := poll_start env;
     status_answer := status_answer env;
     clock_at := clock_at env;
     sleep_aborted := sleep_aborted env;
     transcript_answer := transcript_answer env;
     details_answer := details_answer env;
     delete_transcription_answer := delete_transcription_answer env;
     delete_file_answer := delete_file_answer env;
     continueOnFail := true |}.

Definition sample_item (env : Env) (cfg : Config) : Item :=
  {| item_json := VObj [("n", VNum 1)]; item_config := cfg; item_env := env |}.

(** The base URL that the credentials name: the one entered, or the default
    when none is entered. *)
Definition named_base_url (credentials : Credentials) : string :=
  match baseUrl credentials with
  | Some url => if is_empty url then DEFAULT_BASE_URL else url
  | None => DEFAULT_BASE_URL
  end.

(** The headers of a request before and after [authenticate]. *)
Definition headers_of (requestOptions : RequestOptions) : list (string * JsVal) :=
  default [] (headers requestOptions).

Definition sample_options_in : RequestOptions :=
  {| baseURL := None;
     headers := Some [("Authorization", VStr "Basic old"); ("Accept", VStr "*/*")];
     otherOptions := [("method", VStr "GET")] |}.

(** * Properties *)

(** ** Logged computations *)

Lemma outcome_bind {A B} (m : M A) (k : A → M B) :
  outcome (bind m k)
  = match outcome m with
    | Ok a => outcome (k a)
    | Throw e => Throw e
    | OutOfFuel => OutOfFuel
    end.
Proof.
  destruct m as [t [a|e|]]; unfold bind, outcome; simpl; [|done|done].
  by destruct (k a).
Qed.

Lemma trace_bind {A B} (m : M A) (k : A → M B) :
  trace (bind m k)
  = trace m ++ match outcome m with
               | Ok a => trace (k a)
               | _ => []
               end.
Proof.
  destruct m as [t [a|e|]]; unfold bind, outcome, trace; simpl.
  - by destruct (k a).
  - by rewrite app_nil_r.
  - by rewrite app_nil_r.
Qed.

Lemma trace_lift {A} (r : Res A) : trace (lift r) = [].
Proof. reflexivity. Qed.

Lemma outcome_lift {A} (r : Res A) : outcome (lift r) = r.
Proof. reflexivity. Qed.

Lemma outcome_pair {A} (t : list Event) (r : Res A) : outcome (t, r) = r.
Proof. reflexivity. Qed.

Lemma outcome_try_catch {A} (m : M A) (handler : Error → M A) :
  outcome (try_catch m handler)
  = match outcome m with
    | Throw e => outcome (handler e)
    | r => r
    end.
Proof.
  destruct m as [t [a|e|]]; unfold try_catch, outcome; simpl; [done| |done].
  by destruct (handler e).
Qed.

Lemma trace_try_catch {A} (m : M A) (handler : Error → M A) :
  trace (try_catch m handler)
  = trace m ++ match outcome m with
               | Throw e => trace (handler e)
               | _ => []
               end.
Proof.
  destruct m as [t [a|e|]]; unfold try_catch, outcome, trace; simpl.
  - by rewrite app_nil_r.
  - by destruct (handler e).
  - by rewrite app_nil_r.
Qed.

(** ** Own properties *)

Section PropertyFacts.
Context {V : Type}.
Implicit Types (fields : list (string * V)) (k : string) (v : V).

Lemma own_assign_eq k v fields : own k (assign k v fields) = Some v.
Proof.
  induction fields as [|[k' v'] rest IH]; simpl.
  - by rewrite String.eqb_refl.
  - destruct (String.eqb k k') eqn:E; simpl; rewrite E; [done | exact IH].
Qed.

Lemma own_assign_ne k k' v fields :
  k' ≠ k → own k' (assign k v fields) = own k' fields.
Proof.
  intros Hne. induction fields as [|[k0 v0] rest IH]; simpl.
  - destruct (String.eqb k' k) eqn:E; [|done].
    apply String.eqb_eq in E. done.
  - destruct (String.eqb k k0) eqn:E; simpl.
    + apply String.eqb_eq in E. subst k0.
      destruct (String.eqb k' k) eqn:E'; [|done].
      apply String.eqb_eq in E'. done.
    + by rewrite IH.
Qed.

Lemma assign_keys k v fields :
  hasOwnProperty k fields = true →
  map fst (assign k v fields) = map fst fields.
Proof.
  unfold hasOwnProperty.
  induction fields as [|[k0 v0] rest IH]; simpl; [done|].
  destruct (String.eqb k k0) eqn:E; simpl; [done|].
  intros H. by rewrite IH.
Qed.

End PropertyFacts.

(** ** Redaction *)

Lemma redact_top_level_others (v : JsVal) (k : string) (rest : list Step) :
  k ≠ SECRET_KEY →
  get_path (redactWebhookAuthHeaderValue v) (Prop_ k :: rest)
  = get_path v (Prop_ k :: rest).
Proof.
  intros Hk. destruct v as [| | | | |items|fields]; try reflexivity.
  unfold redactWebhookAuthHeaderValue.
  destruct (hasOwnProperty SECRET_KEY fields); [|reflexivity].
  simpl. unfold spread_with. by rewrite own_assign_ne.
Qed.

(** Allocation leaves what was readable as it was. *)
Lemma read_alloc (depth : nat) (h : Store.heap) (l' : Store.loc)
    (c : Store.Cell) (r : Store.Ref) (v : JsVal) :
  h !! l' = None →
  Store.read depth h r = Some v →
  Store.read depth (<[l' := c]> h) r = Some v.
Proof.
  intros Hfresh. revert r v.
  induction depth as [|depth IH]; intros r v; destruct r; simpl; try done.
  destruct (h !! l) as [cell|] eqn:Hl; [|done].
  assert (l ≠ l') by congruence. rewrite lookup_insert_ne, Hl by done.
  destruct cell as [fields|items]; intros Hread;
    apply fmap_Some in Hread as (vs & Hvs & ->);
    apply fmap_Some; eexists; (split; [|reflexivity]);
    apply mapM_Some in Hvs; apply mapM_Some;
    (eapply Forall2_impl; [exact Hvs|]); simpl.
  - intros [k r] kv Hkv. apply fmap_Some in Hkv as (w & Hw & ->).
    apply fmap_Some. exists w. split; [by apply IH | done].
  - intros r w Hw. by apply IH.
Qed.

Lemma assign_related {A B} (R : string * A → string * B → Prop)
    (k : string) (x : A) (y : B) fields vfields :
  (∀ kr kv, R kr kv → fst kr = fst kv) →
  (∀ k', R (k', x) (k', y)) →
  Forall2 R fields vfields →
  Forall2 R (assign k x fields) (assign k y vfields).
Proof.
  intros Hkeys Hnew.
  induction 1 as [|[k1 r] [k2 v] fields vfields HR Hrest IH]; simpl.
  - constructor; [apply Hnew | constructor].
  - pose proof (Hkeys _ _ HR) as Hk. simpl in Hk. subst k2.
    destruct (String.eqb k k1); constructor; auto.
Qed.

Lemma own_related {A B} (R : string * A → string * B → Prop)
    (k : string) fields vfields :
  (∀ kr kv, R kr kv → fst kr = fst kv) →
  Forall2 R fields vfields →
  hasOwnProperty k fields = hasOwnProperty k vfields.
Proof.
  intros Hkeys. unfold hasOwnProperty.
  induction 1 as [|[k1 r] [k2 v] fields vfields HR _ IH]; simpl; [done|].
  pose proof (Hkeys _ _ HR) as Hk. simpl in Hk. subst k2.
  by destruct (String.eqb k k1).
Qed.

(** The two views of redaction agree: what the result in the store stands
    for is the redaction of what the input stood for. *)
Lemma redaction_views_agree (depth : nat) (h : Store.heap) (data : Store.Ref)
    (v : JsVal) :
  Store.read depth h data = Some v →
  Store.read depth (Store.redactWebhookAuthHeaderValue h data).1
    (Store.redactWebhookAuthHeaderValue h data).2
  = Some (redactWebhookAuthHeaderValue v).
Proof.
  destruct data as [| | | | |l].
  1-5: by destruct depth; intros [= <-].
  destruct depth as [|depth]; [done|]. simpl.
  destruct (h !! l) as [[fields|items]|] eqn:Hl; [| |done].
  - intros Hread. apply fmap_Some in Hread as (vfields & Hvs & ->).
    apply mapM_Some in Hvs.
    set (R := fun (kr : string * Store.Ref) (kv : string * JsVal) =>
                pair (fst kr) <$> Store.read depth h (snd kr) = Some kv) in Hvs.
    assert (Hkeys : ∀ kr kv, R kr kv → fst kr = fst kv).
    { intros [k r] kv Hkv. apply fmap_Some in Hkv as (w & _ & ->). done. }
    rewrite (own_related R SECRET_KEY fields vfields Hkeys Hvs).
    simpl. destruct (hasOwnProperty SECRET_KEY vfields) eqn:Hown.
    + assert (Hfresh : h !! fresh (dom h) = None).
      { apply not_elem_of_dom, is_fresh. }
      simpl. rewrite lookup_insert_eq. apply fmap_Some. eexists.
      split; [|reflexivity]. apply mapM_Some. unfold spread_with.
      apply (assign_related
               (fun kr kv => pair (fst kr)
                               <$> Store.read depth (<[fresh (dom h) := _]> h) (snd kr)
                             = Some kv)).
      * intros [k r] kv Hkv. apply fmap_Some in Hkv as (w & _ & ->). done.
      * intros k'. by destruct depth.
      * eapply Forall2_impl; [exact Hvs|]. intros [k r] kv Hkv.
        apply fmap_Some in Hkv as (w & Hw & ->). apply fmap_Some.
        exists w. split; [by apply read_alloc | done].
    + simpl. rewrite Hl. apply fmap_Some. exists vfields.
      split; [by apply mapM_Some | done].
  - intros Hread. apply fmap_Some in Hread as (vs & Hvs & ->).
    simpl. rewrite Hl. apply fmap_Some. eauto.
Qed.

(** C5. Redaction of an object held in the store. If the object has an own
    property [webhook_auth_header_value], the result is a fresh object in
    which that property is ["[REDACTED]"], every other key maps to the value
    it has in the input, the keys keep their order, and no object already in
    the store (the input among them) is changed. If it lacks the property,
    the same reference comes back and the store is the same. *)
Theorem redaction_frame (h : Store.heap) (l : Store.loc)
    (fields : list (string * Store.Ref)) :
  h !! l = Some (Store.CObj fields) →
  (hasOwnProperty SECRET_KEY fields = true →
   ∃ l' fields',
     Store.redactWebhookAuthHeaderValue h (Store.RPtr l)
       = (<[l' := Store.CObj fields']> h, Store.RPtr l')
     ∧ l' ≠ l ∧ h !! l' = None
     ∧ own SECRET_KEY fields' = Some (Store.RStr REDACTED)
     ∧ (∀ k, k ≠ SECRET_KEY → own k fields' = own k fields)
     ∧ map fst fields' = map fst fields
     ∧ (∀ l0, l0 ≠ l' → (<[l' := Store.CObj fields']> h) !! l0 = h !! l0)
     ∧ (<[l' := Store.CObj fields']> h) !! l = Some (Store.CObj fields))
  ∧ (hasOwnProperty SECRET_KEY fields = false →
     Store.redactWebhookAuthHeaderValue h (Store.RPtr l) = (h, Store.RPtr l)).
Proof.
  intros Hl. split; intros Hown.
  - set (l' := fresh (dom h)).
    assert (Hfresh : h !! l' = None).
    { apply not_elem_of_dom. apply is_fresh. }
    assert (Hne : l' ≠ l) by (intros ->; congruence).
    exists l', (spread_with fields SECRET_KEY (Store.RStr REDACTED)).
    unfold Store.redactWebhookAuthHeaderValue, Store.alloc.
    rewrite Hl, Hown. fold l'.
    split; [reflexivity|]. split; [exact Hne|]. split; [exact Hfresh|].
    split; [apply own_assign_eq|].
    split; [intros k Hk; by apply own_assign_ne|].
    split; [by apply assign_keys|].
    split; [intros l0 H0|]; rewrite lookup_insert_ne; done.
  - unfold Store.redactWebhookAuthHeaderValue. by rewrite Hl, Hown.
Qed.

(** C10. Redaction is shallow. An object whose top level lacks
    [webhook_auth_header_value] is returned as it is, also as the shaped
    output of the full mode, so a secret nested below the top level is still
    found at its path in what is emitted. *)
Theorem redaction_is_shallow (fields : list (string * JsVal))
    (path : list Step) (secret : JsVal) :
  hasOwnProperty SECRET_KEY fields = false →
  get_path (VObj fields) (path ++ [Prop_ SECRET_KEY]) = Some secret →
  redactWebhookAuthHeaderValue (VObj fields) = VObj fields
  ∧ shape_output "full" (VObj fields) = VObj fields
  ∧ path ≠ []
  ∧ get_path (redactWebhookAuthHeaderValue (VObj fields))
      (path ++ [Prop_ SECRET_KEY]) = Some secret.
Proof.
  intros Hown Hpath.
  assert (Hred : redactWebhookAuthHeaderValue (VObj fields) = VObj fields).
  { unfold redactWebhookAuthHeaderValue. by rewrite Hown. }
  repeat split.
  - exact Hred.
  - unfold shape_output. simpl. exact Hred.
  - intros ->. simpl in Hpath. unfold hasOwnProperty in Hown.
    destruct (own SECRET_KEY fields); discriminate.
  - by rewrite Hred.
Qed.

(** ** Language hints *)

Lemma trimEnd_blank (s : string) : is_empty (trimEnd s) = blank s.
Proof.
  induction s as [|c rest IH]; simpl; [done|].
  rewrite <- IH. destruct (trimEnd rest); simpl.
  - destruct (is_ws c); done.
  - by rewrite andb_false_r.
Qed.

Lemma trimStart_blank (s : string) : blank (trimStart s) = blank s.
Proof.
  induction s as [|c rest IH]; simpl; [done|].
  destruct (is_ws c) eqn:E; simpl; [exact IH | by rewrite E].
Qed.

Lemma trim_blank (s : string) : is_empty (trim s) = blank s.
Proof. unfold trim. by rewrite trimEnd_blank, trimStart_blank. Qed.

Lemma isNonEmptyString_spec (c : JsVal) : isNonEmptyString c = true ↔ kept_code c.
Proof.
  unfold kept_code. split.
  - destruct c; simpl; try discriminate. rewrite trim_blank.
    intros H. exists s. split; [done|]. by destruct (blank s).
  - intros (s & -> & Hs). simpl. by rewrite trim_blank, Hs.
Qed.

Lemma map_code_total (languages : list JsVal) :
  Forall (fun entry => nullish entry = false) languages →
  map_code languages = Ok (entered_codes languages).
Proof.
  induction 1 as [|entry rest Hentry _ IH]; simpl; [done|].
  rewrite IH. by destruct entry.
Qed.

Lemma filter_sublist {A} (P : A → bool) (l : list A) :
  List.filter P l `sublist_of` l.
Proof.
  induction l as [|x l IH]; simpl; [constructor|].
  destruct (P x); by constructor.
Qed.

Lemma filter_greatest {A} (P : A → bool) (k l : list A) :
  k `sublist_of` l → Forall (fun x => P x = true) k →
  k `sublist_of` List.filter P l.
Proof.
  induction 1 as [|x k l _ IH|x k l _ IH]; intros Hk; simpl.
  - constructor.
  - inversion Hk as [|? ? Hx Hk']; subst. rewrite Hx. constructor. by apply IH.
  - destruct (P x); [constructor|]; by apply IH.
Qed.

(** C6. For a list of language entries (none of them [null] or
    [undefined]) the normalized hints are a sub-sequence of the codes as
    entered, so order is kept and no code is altered; every hint is a string
    that is not blank; and every sub-sequence of the entered codes made of
    such strings is a sub-sequence of the hints, so exactly the blank and
    non-string codes are dropped. *)
Theorem language_hints_normalized (fields : list (string * JsVal))
    (languages : list JsVal) :
  own "languages" fields = Some (VArr languages) →
  Forall (fun entry => nullish entry = false) languages →
  ∃ hints,
    normalizeLanguageHints (VObj fields) = Ok hints
    ∧ hints `sublist_of` entered_codes languages
    ∧ Forall kept_code hints
    ∧ (∀ l, l `sublist_of` entered_codes languages → Forall kept_code l →
            l `sublist_of` hints).
Proof.
  intros Hown Hentries.
  exists (List.filter isNonEmptyString (entered_codes languages)).
  unfold normalizeLanguageHints. rewrite Hown, (map_code_total _ Hentries).
  split; [done|]. split; [apply filter_sublist|]. split.
  - apply Forall_forall. intros c Hc. apply isNonEmptyString_spec.
    apply list_elem_of_In, filter_In in Hc. tauto.
  - intros l Hl Hkept. apply filter_greatest; [done|].
    eapply Forall_impl; [exact Hkept|]. intros c. apply isNonEmptyString_spec.
Qed.

Lemma language_hints_normalized_witness :
  ∃ hints,
    normalizeLanguageHints
      (VObj [("languages",
              VArr [VObj [("code", VStr "en")]; VObj [("code", VStr "  ")];
                    VObj [("code", VStr " fr ")]; VObj []])]) = Ok hints
    ∧ hints = [VStr "en"; VStr " fr "].
Proof.
  destruct (language_hints_normalized
              [("languages",
                VArr [VObj [("code", VStr "en")]; VObj [("code", VStr "  ")];
                      VObj [("code", VStr " fr ")]; VObj []])]
              [VObj [("code", VStr "en")]; VObj [("code", VStr "  ")];
               VObj [("code", VStr " fr ")]; VObj []])
    as (hints & Hrun & _).
  - reflexivity.
  - repeat constructor.
  - exists hints. split; [exact Hrun|].
    vm_compute in Hrun. by inversion Hrun.
Defined.

(** ** Messages of failed calls *)

Lemma first_present_cons probe rest e :
  first_present (probe :: rest) e
  = if text_truthy (probe e) then probe e else first_present rest e.
Proof. simpl. by destruct (probe e) as [[|]|]. Qed.

Lemma first_present_not_empty probes e m :
  first_present probes e = Some m → is_empty m = false.
Proof.
  induction probes as [|probe rest IH]; simpl; [done|].
  destruct (probe e) as [[|c m']|]; try exact IH.
  intros [= <-]. done.
Qed.

Lemma extractErrorDetails_message (e : SonioxApiError) :
  details_message (extractErrorDetails e)
  = default "" (first_present message_probes e).
Proof.
  unfold message_probes. rewrite !first_present_cons.
  unfold extractErrorDetails, cause_error_of, response_body_of. simpl.
  repeat (match goal with
          | |- context [if text_truthy ?t then _ else _] =>
              destruct (text_truthy t) eqn:?
          end; [reflexivity|]).
  reflexivity.
Qed.

Lemma sonioxApiRequest_fail e method url body :
  sonioxApiRequest (HttpFail e) method url body
  = ([Call {| req_method := method; req_url := url; req_body := body |}],
     Throw (sonioxApiRequest_error e)).
Proof. reflexivity. Qed.

Lemma sonioxApiRequest_ok response method url body :
  sonioxApiRequest (HttpOk response) method url body
  = ([Call {| req_method := method; req_url := url; req_body := body |}],
     Ok response).
Proof. reflexivity. Qed.

(** C7. The message of a failed call is the first non-empty one among
    cause.error.detail, cause.error.message, response.body.detail,
    response.body.message, response.body.error, description and message, in
    this order, and the error raised carries it after ["Soniox API error: "].
    When none yields a message and a status code (a non-zero number) is
    known, the error raised reads ["Soniox API error (HTTP <code>)"]. *)
Theorem error_message_priority (e : SonioxApiError)
    (method url : string) (body : Body) :
  details_message (extractErrorDetails e)
    = default "" (first_present message_probes e)
  ∧ (∀ m, first_present message_probes e = Some m →
       ∃ hint, outcome (sonioxApiRequest (HttpFail e) method url body)
               = Throw (NodeOperationError ("Soniox API error: " +:+ m) hint))
  ∧ (first_present message_probes e = None →
     ∀ code, details_statusCode (extractErrorDetails e) = Some code → code ≠ 0 →
       ∃ hint, outcome (sonioxApiRequest (HttpFail e) method url body)
               = Throw (NodeOperationError
                          ("Soniox API error (HTTP " +:+ dec code +:+ ")") hint)).
Proof.
  split; [apply extractErrorDetails_message|].
  rewrite sonioxApiRequest_fail. unfold outcome, sonioxApiRequest_error.
  cbn [snd]. rewrite extractErrorDetails_message. split.
  - intros m Hm. rewrite Hm. cbn [default from_option id].
    rewrite (first_present_not_empty _ _ _ Hm). cbn [negb]. eauto.
  - intros Hnone code Hcode Hnz. rewrite Hnone, Hcode. cbn.
    destruct (code =? 0) eqn:E; [lia|]. cbn. eauto.
Qed.

Lemma extractErrorDetails_statusCode (e : SonioxApiError) :
  details_statusCode (extractErrorDetails e)
  = if num_truthy (err_httpCode e) then err_httpCode e
    else err_response e ≫= response_statusCode.
Proof. reflexivity. Qed.

(** ** The poll loop *)

Section Polling.
Variables (env : Env) (options : PollOptions).
Let timeoutAt := deadline env options.
Let pollDelay := Z.max 1 (opt_pollIntervalSec options) * 1000.

(** One iteration whose status request is answered. *)
Lemma poll_loop_answered (fuel i : nat) (statusResponse : JsVal) :
  status_answer env i = HttpOk statusResponse →
  outcome (poll_loop env options timeoutAt pollDelay (S fuel) i)
  = if is_string (get_opt statusResponse "status") STATUS_COMPLETED
    then Ok statusResponse
    else if is_string (get_opt statusResponse "status") STATUS_ERROR
    then Throw (job_failed statusResponse JOB_FAILED_IS)
    else if clock_at env i >? timeoutAt
    then Throw (poll_timeout (opt_maxWaitSec options)
                  (get_opt statusResponse "status"))
    else if sleep_aborted env i then Throw ExecutionCancelled
    else outcome (poll_loop env options timeoutAt pollDelay fuel (S i)).
Proof.
  intros Hanswer. cbn [poll_loop].
  rewrite outcome_bind, Hanswer, sonioxApiRequest_ok. cbn [outcome snd].
  destruct (is_string _ STATUS_COMPLETED); [done|].
  destruct (is_string _ STATUS_ERROR); [done|].
  destruct (clock_at env i >? timeoutAt); [done|].
  rewrite outcome_bind. unfold sleepWithAbort.
  destruct (sleep_aborted env i); done.
Qed.

Lemma poll_loop_first_request (fuel i : nat) :
  ∃ rest, trace (poll_loop env options timeoutAt pollDelay (S fuel) i)
          = status_request options :: rest.
Proof.
  cbn [poll_loop]. rewrite trace_bind. unfold sonioxApiRequest at 1.
  rewrite trace_bind. cbn. eauto.
Qed.

(** Iterations that go round only move the loop on. *)
Lemma poll_loop_rounds (n fuel start : nat) :
  (∀ i, (i < n)%nat → goes_round env options (start + i)) →
  outcome (poll_loop env options timeoutAt pollDelay (n + fuel) start)
  = outcome (poll_loop env options timeoutAt pollDelay fuel (start + n)).
Proof.
  revert start. induction n as [|n IH]; intros start Hround.
  - by rewrite Nat.add_0_r.
  - destruct (Hround 0%nat ltac:(lia)) as ((resp & Hanswer & Hterm) & Hclock & Hsleep).
    rewrite Nat.add_0_r in Hanswer, Hclock, Hsleep.
    cbn [Nat.add]. rewrite (poll_loop_answered _ _ _ Hanswer).
    unfold terminal in Hterm. apply orb_false_elim in Hterm as [-> ->].
    fold timeoutAt in Hclock.
    destruct (clock_at env start >? timeoutAt) eqn:E; [lia|].
    rewrite Hsleep, IH.
    + f_equal. f_equal. lia.
    + intros i Hi. replace (S start + i)%nat with (start + S i)%nat by lia.
      apply Hround. lia.
Qed.
End Polling.

Lemma contains_middle (a part b : string) : contains part (a +:+ part +:+ b).
Proof. by exists a, b. Qed.

Lemma append_assoc (a b c : string) : (a +:+ b) +:+ c = a +:+ b +:+ c.
Proof.
  induction a as [|ch a IH]; [done|].
  change (String ch ((a +:+ b) +:+ c) = String ch (a +:+ b +:+ c)).
  by rewrite IH.
Qed.

Lemma pollForCompletion_outcome env fuel options :
  outcome (pollForCompletion env fuel options)
  = match outcome (poll_loop env options (deadline env options)
                     (Z.max 1 (opt_pollIntervalSec options) * 1000) fuel 0) with
    | Ok statusResponse =>
        match transcript_answer env with
        | HttpOk transcript =>
            Ok {| result_status := statusResponse;
                  result_transcript := transcript |}
        | HttpFail e => Throw (sonioxApiRequest_error e)
        end
    | Throw e => Throw e
    | OutOfFuel => OutOfFuel
    end.
Proof.
  unfold pollForCompletion. rewrite outcome_bind. fold (deadline env options).
  destruct (outcome (poll_loop _ _ _ _ _ _)); [|done|done].
  rewrite outcome_bind. by destruct (transcript_answer env).
Qed.

(** For a max-wait of at least one second, the deadline is the time at loop
    entry plus the max-wait. *)
Lemma deadline_of_max_wait (env : Env) (options : PollOptions) :
  1 <= opt_maxWaitSec options →
  deadline env options = poll_start env + opt_maxWaitSec options * 1000.
Proof. intros H. unfold deadline. by rewrite Z.max_r. Qed.

(** If the clock shows at least one poll delay more in each iteration, the
    loop is bounded: with [k] iterations of fuel, of which all but one
    cover the time left to the deadline, it ends. *)
Lemma poll_loop_bounded (env : Env) (options : PollOptions) (k i : nat) :
  let pollDelay := Z.max 1 (opt_pollIntervalSec options) * 1000 in
  (∀ j, poll_start env + Z.of_nat j * pollDelay <= clock_at env j) →
  deadline env options - poll_start env - Z.of_nat i * pollDelay
    < (Z.of_nat k - 1) * pollDelay →
  (1 ≤ k)%nat →
  outcome (poll_loop env options (deadline env options) pollDelay k i)
  ≠ OutOfFuel.
Proof.
  intros pollDelay Hclock. revert i.
  assert (Hpos : 0 < pollDelay) by (unfold pollDelay; lia).
  induction k as [|k IH]; intros i Hleft Hk; [lia|].
  cbn [poll_loop]. rewrite outcome_bind.
  destruct (status_answer env i) as [resp|e];
    [rewrite sonioxApiRequest_ok | by rewrite sonioxApiRequest_fail].
  rewrite outcome_pair.
  destruct (is_string _ STATUS_COMPLETED); [done|].
  destruct (is_string _ STATUS_ERROR); [done|].
  destruct (clock_at env i >? deadline env options) eqn:Hnow; [done|].
  rewrite outcome_bind. unfold sleepWithAbort.
  destruct (sleep_aborted env i); [done|]. cbn [bind emit ret outcome snd].
  specialize (Hclock i). apply IH.
  - rewrite Nat2Z.inj_succ in *. nia.
  - rewrite Nat2Z.inj_succ in *. nia.
Qed.

Lemma pollForCompletion_ends (env : Env) (options : PollOptions) :
  let pollDelay := Z.max 1 (opt_pollIntervalSec options) * 1000 in
  (∀ j, poll_start env + Z.of_nat j * pollDelay <= clock_at env j) →
  ∃ fuel, outcome (pollForCompletion env fuel options) ≠ OutOfFuel.
Proof.
  intros pollDelay Hclock.
  exists (Z.to_nat ((deadline env options - poll_start env) / pollDelay + 2)).
  assert (Hpos : 0 < pollDelay) by (unfold pollDelay; lia).
  assert (Hleft : 0 <= deadline env options - poll_start env)
    by (unfold deadline; lia).
  pose proof (Z.div_pos _ _ Hleft Hpos) as Hq.
  pose proof (Z.mul_succ_div_gt (deadline env options - poll_start env)
                pollDelay Hpos) as Hgt.
  rewrite pollForCompletion_outcome.
  pose proof (poll_loop_bounded env options
                (Z.to_nat ((deadline env options - poll_start env) / pollDelay + 2))
                0) as Hend.
  cbv zeta in Hend. fold pollDelay in Hend.
  destruct (outcome (poll_loop _ _ _ _ _ _)) eqn:E; [|done|].
  - by destruct (transcript_answer env).
  - exfalso. apply Hend; [exact Hclock| |lia|reflexivity].
    rewrite Z2Nat.id by lia. nia.
Qed.

(** C3. When the status requests up to the [n]-th are answered with a
    status that is neither ["completed"] nor ["error"], no sleep before it is
    cancelled, and the [n]-th iteration is the first to find the clock past
    the deadline (the time at loop entry plus the max-wait, which counts as
    one second when it is less), polling fails with the timeout error, given
    fuel for [n + 1] iterations. Its message names the configured max-wait
    in seconds and, when the last status seen is a non-empty string, that
    status. *)
Theorem poll_times_out (env : Env) (options : PollOptions) (n : nat) :
  (∀ i, (i < n)%nat → goes_round env options i) →
  pending env n →
  clock_at env n > deadline env options →
  ∀ fuel, (n < fuel)%nat →
  ∃ statusResponse message description,
    status_answer env n = HttpOk statusResponse
    ∧ outcome (pollForCompletion env fuel options)
      = Throw (NodeOperationError message description)
    ∧ message
      = "Polling timed out after " +:+ dec (opt_maxWaitSec options) +:+ " seconds"
        +:+ (if truthy (get_opt statusResponse "status")
             then " (last status: "
                  +:+ to_text (get_opt statusResponse "status") +:+ ")"
             else "")
    ∧ contains (dec (opt_maxWaitSec options)) message
    ∧ (∀ s, get_opt statusResponse "status" = VStr s → contains s message).
Proof.
  intros Hrounds (resp & Hanswer & Hterm) Hclock fuel Hfuel.
  exists resp. eexists. eexists. split; [exact Hanswer|].
  rewrite pollForCompletion_outcome.
  replace fuel with (n + S (fuel - S n))%nat by lia.
  rewrite (poll_loop_rounds env options n _ 0%nat); [|exact Hrounds].
  cbn [Nat.add]. rewrite (poll_loop_answered _ _ _ _ _ Hanswer).
  unfold terminal in Hterm. apply orb_false_elim in Hterm as [-> ->].
  destruct (clock_at env n >? deadline env options) eqn:E; [|lia].
  unfold poll_timeout. split; [reflexivity|]. split; [reflexivity|]. split.
  - apply contains_middle.
  - intros s ->. cbn [truthy to_text]. destruct s as [|c s].
    + exists "", ("Polling timed out after " +:+ dec (opt_maxWaitSec options)
                  +:+ " seconds" +:+ ""). done.
    + cbn [is_empty negb].
      exists ("Polling timed out after " +:+ dec (opt_maxWaitSec options)
              +:+ " seconds" +:+ " (last status: "), ")".
      by rewrite !append_assoc.
Qed.

Lemma message_head_timeout m status :
  message_head (poll_timeout m status) = Some "P"%char.
Proof. reflexivity. Qed.

Lemma message_head_job_failed statusResponse description :
  message_head (job_failed statusResponse description) = Some "T"%char.
Proof. reflexivity. Qed.

Lemma message_head_api_error e :
  message_head (sonioxApiRequest_error e) = Some "S"%char.
Proof.
  unfold sonioxApiRequest_error. cbn [message_head].
  destruct (negb _); [reflexivity|]. destruct (num_truthy _); reflexivity.
Qed.

(** C9. The terminal statuses are checked before the deadline. Polling with
    any fuel starts with a status request, whatever the max-wait. When the
    iterations before the [n]-th go round and the [n]-th status request is
    answered ["completed"], polling returns that status with the transcript
    (or fails as the transcript request fails); answered ["error"], it fails
    with the job-failed error; in both cases whatever the clock reads in that
    iteration, and the failure is not the timeout error. *)
Theorem terminal_status_checked_first (env : Env) (options : PollOptions) :
  (∀ fuel, ∃ rest,
     trace (pollForCompletion env (S fuel) options)
     = status_request options :: rest)
  ∧ ∀ n statusResponse fuel,
      (∀ i, (i < n)%nat → goes_round env options i) →
      status_answer env n = HttpOk statusResponse →
      (n < fuel)%nat →
      (is_string (get_opt statusResponse "status") STATUS_COMPLETED = true →
       outcome (pollForCompletion env fuel options)
       = match transcript_answer env with
         | HttpOk transcript =>
             Ok {| result_status := statusResponse;
                   result_transcript := transcript |}
         | HttpFail e => Throw (sonioxApiRequest_error e)
         end)
      ∧ (is_string (get_opt statusResponse "status") STATUS_ERROR = true →
         outcome (pollForCompletion env fuel options)
         = Throw (job_failed statusResponse JOB_FAILED_IS))
      ∧ (terminal statusResponse = true →
         ∀ m status, outcome (pollForCompletion env fuel options)
                     ≠ Throw (poll_timeout m status)).
Proof.
  split.
  - intros fuel. unfold pollForCompletion. rewrite trace_bind.
    destruct (poll_loop_first_request env options fuel 0) as (rest & Hrest).
    fold (deadline env options). rewrite Hrest. cbn. eauto.
  - intros n resp fuel Hrounds Hanswer Hfuel.
    assert (Hrun : outcome (poll_loop env options (deadline env options)
                     (Z.max 1 (opt_pollIntervalSec options) * 1000) fuel 0)
                   = if is_string (get_opt resp "status") STATUS_COMPLETED
                     then Ok resp
                     else if is_string (get_opt resp "status") STATUS_ERROR
                     then Throw (job_failed resp JOB_FAILED_IS)
                     else outcome (poll_loop env options (deadline env options)
                            (Z.max 1 (opt_pollIntervalSec options) * 1000)
                            (S (fuel - S n)) n)).
    { replace fuel with (n + S (fuel - S n))%nat at 1 by lia.
      rewrite (poll_loop_rounds env options n _ 0%nat); [|exact Hrounds].
      cbn [Nat.add]. rewrite (poll_loop_answered _ _ _ _ _ Hanswer).
      destruct (is_string _ STATUS_COMPLETED); [done|].
      by destruct (is_string _ STATUS_ERROR). }
    rewrite pollForCompletion_outcome, Hrun.
    assert (Hexcl : is_string (get_opt resp "status") STATUS_ERROR = true →
                    is_string (get_opt resp "status") STATUS_COMPLETED = false).
    { destruct (get_opt resp "status"); try done. simpl.
      intros ->%String.eqb_eq. reflexivity. }
    split; [|split].
    + by intros ->.
    + intros Herr. by rewrite (Hexcl Herr), Herr.
    + unfold terminal. intros Hterm m status Heq.
      apply (f_equal (fun r => match r with
                               | Throw e => message_head e
                               | _ => None
                               end)) in Heq.
      rewrite message_head_timeout in Heq.
      destruct (is_string _ STATUS_COMPLETED).
      * destruct (transcript_answer env); [done|].
        by rewrite message_head_api_error in Heq.
      * simpl in Hterm. rewrite Hterm in Heq.
        by rewrite message_head_job_failed in Heq.
Qed.

(** ** Create calls *)

Lemma create_calls_app (t1 t2 : list Event) :
  create_calls (t1 ++ t2) = create_calls t1 ++ create_calls t2.
Proof.
  induction t1 as [|[r|ms] t1 IH]; simpl; [done| |done].
  destruct (is_create_call r); simpl; by rewrite IH.
Qed.

Lemma quiet_ret {A} (a : A) : quiet (ret a).
Proof. reflexivity. Qed.

Lemma quiet_throw {A} (e : Error) : quiet (@throw A e).
Proof. reflexivity. Qed.

Lemma quiet_lift {A} (r : Res A) : quiet (lift r).
Proof. reflexivity. Qed.

Lemma quiet_bind {A B} (m : M A) (k : A → M B) :
  quiet m → (∀ a, outcome m = Ok a → quiet (k a)) → quiet (bind m k).
Proof.
  unfold quiet. intros Hm Hk. rewrite trace_bind, create_calls_app, Hm.
  destruct (outcome m) eqn:E; simpl; [by apply Hk | done | done].
Qed.

Lemma quiet_try_catch {A} (m : M A) (handler : Error → M A) :
  quiet m → (∀ e, outcome m = Throw e → quiet (handler e)) →
  quiet (try_catch m handler).
Proof.
  unfold quiet. intros Hm Hh. rewrite trace_try_catch, create_calls_app, Hm.
  destruct (outcome m) eqn:E; simpl; [done | by apply Hh | done].
Qed.

Lemma quiet_request (answer : HttpResult) (method url : string) (body : Body) :
  is_create_call {| req_method := method; req_url := url; req_body := body |}
    = false →
  quiet (sonioxApiRequest answer method url body).
Proof.
  intros H. unfold quiet. by destruct answer; cbn; rewrite H.
Qed.

Lemma quiet_poll_loop env options timeoutAt pollDelay fuel i :
  quiet (poll_loop env options timeoutAt pollDelay fuel i).
Proof.
  revert i. induction fuel as [|fuel IH]; intros i; [reflexivity|].
  cbn [poll_loop]. apply quiet_bind; [by apply quiet_request|].
  intros resp _.
  destruct (is_string _ STATUS_COMPLETED); [apply quiet_ret|].
  destruct (is_string _ STATUS_ERROR); [apply quiet_throw|].
  destruct (_ >? _); [apply quiet_throw|].
  apply quiet_bind; [|intros; apply IH].
  unfold sleepWithAbort, quiet. by destruct (sleep_aborted env i).
Qed.

Lemma quiet_pollForCompletion env fuel options :
  quiet (pollForCompletion env fuel options).
Proof.
  unfold pollForCompletion. apply quiet_bind; [apply quiet_poll_loop|].
  intros resp _. apply quiet_bind; [by apply quiet_request|].
  intros; apply quiet_ret.
Qed.

Lemma quiet_tryDeleteResource answer url description :
  quiet (tryDeleteResource answer url description).
Proof. unfold quiet. by destruct answer. Qed.

Lemma quiet_deleteResources env transcriptionId fileId :
  quiet (deleteResources env transcriptionId fileId).
Proof.
  unfold deleteResources. apply quiet_bind.
  - destruct (truthy transcriptionId); [|apply quiet_ret].
    apply quiet_bind; [apply quiet_tryDeleteResource|].
    intros [w|] _; apply quiet_ret.
  - intros result _. destruct (truthy fileId); [|apply quiet_ret].
    apply quiet_bind; [apply quiet_tryDeleteResource|].
    intros [w|] _; apply quiet_ret.
Qed.

Lemma isNonEmptyString_truthy (v : JsVal) :
  isNonEmptyString v = true → truthy v = true.
Proof.
  destruct v; simpl; try done. destruct s; [|done]. by vm_compute.
Qed.

Lemma own_set_if_ne (cond : bool) (k k' : string) (v : JsVal) body :
  k' ≠ k → own k' (set_if cond k v body) = own k' body.
Proof. intros H. unfold set_if. destruct cond; [by apply own_assign_ne | done]. Qed.

Lemma own_set_if_eq (cond : bool) (k : string) (v : JsVal) body :
  own k (set_if cond k v body) = if cond then Some v else own k body.
Proof. unfold set_if. destruct cond; [apply own_assign_eq | done]. Qed.

Lemma map_code_finishes languages : map_code languages ≠ OutOfFuel.
Proof.
  induction languages as [|entry rest IH]; simpl; [done|].
  destruct (get entry "code") eqn:E; [| done | by destruct entry].
  by destruct (map_code rest).
Qed.

Lemma normalizeLanguageHints_finishes input :
  normalizeLanguageHints input ≠ OutOfFuel.
Proof.
  destruct input as [| | | | | |fields]; simpl; try done.
  destruct (own "languages" fields) as [[| | | | |languages|]|]; try done.
  pose proof (map_code_finishes languages). by destruct (map_code languages).
Qed.

Lemma assemble_body_audio_url cfg a f hints context :
  own "audio_url" (assemble_body cfg a f hints context)
  = if truthy a then Some a else None.
Proof.
  unfold assemble_body.
  rewrite !own_set_if_ne by done.
  destruct context; rewrite !own_set_if_ne by done;
    by rewrite own_set_if_eq.
Qed.

Lemma assemble_body_file_id cfg a f hints context :
  own "file_id" (assemble_body cfg a f hints context)
  = if truthy f then Some f else None.
Proof.
  unfold assemble_body.
  rewrite !own_set_if_ne by done.
  destruct context; rewrite !own_set_if_ne by done;
    rewrite own_set_if_eq; rewrite own_set_if_ne by done; done.
Qed.

Lemma assemble_body_context cfg a f hints context :
  own "context" (assemble_body cfg a f hints context)
  = match context with
    | VStr _ => if isNonEmptyString context then Some context else None
    | _ => if truthy context && has_keys context then Some context else None
    end.
Proof.
  unfold assemble_body.
  rewrite !own_set_if_ne by done.
  destruct context; rewrite own_set_if_eq, !own_set_if_ne by done; done.
Qed.

Lemma translation_trace cfg body : trace (translation cfg body) = [].
Proof.
  unfold translation.
  destruct (String.eqb (translationType cfg) "one_way").
  { by destruct (negb _). }
  destruct (String.eqb (translationType cfg) "two_way"); [|done].
  by destruct (_ || _).
Qed.

Lemma translation_outcome cfg body :
  (∃ e, outcome (translation cfg body) = Throw e)
  ∨ ∃ body', outcome (translation cfg body) = Ok body'
             ∧ ∀ k, k ≠ "translation" → own k body' = own k body.
Proof.
  unfold translation.
  destruct (String.eqb (translationType cfg) "one_way").
  { destruct (negb _); [left; eauto|]. right. eexists. split; [done|].
    intros k Hk. by apply own_assign_ne. }
  destruct (String.eqb (translationType cfg) "two_way"); [|right; eauto].
  destruct (_ || _); [left; eauto|]. right. eexists. split; [done|].
  intros k Hk. by apply own_assign_ne.
Qed.

Lemma quiet_wait_and_clean env fuel cfg fileId' transcriptionId' :
  quiet (wait_and_clean env fuel cfg fileId' transcriptionId').
Proof.
  unfold wait_and_clean. apply quiet_bind.
  { apply quiet_try_catch; [|intros; apply quiet_ret].
    apply quiet_bind; [apply quiet_pollForCompletion | intros; apply quiet_ret]. }
  intros polled _. apply quiet_bind.
  { destruct (autoDelete cfg); [|apply quiet_ret].
    apply quiet_bind; [apply quiet_deleteResources | intros; apply quiet_ret]. }
  intros deleteWarnings _. destruct polled; [|apply quiet_throw].
  destruct deleteWarnings; [apply quiet_ret | apply quiet_lift].
Qed.

Lemma deleteResources_warnings env transcriptionId fileId :
  ∃ result,
    outcome (deleteResources env transcriptionId fileId) = Ok result
    ∧ length (warnings result) = failed_deletions env transcriptionId fileId.
Proof.
  unfold deleteResources, failed_deletions, tryDeleteResource.
  destruct (truthy transcriptionId), (delete_transcription_answer env),
    (truthy fileId), (delete_file_answer env); cbn; eauto.
Qed.

Lemma deleteResources_first_request env transcriptionId fileId :
  truthy transcriptionId = true →
  ∃ rest, trace (deleteResources env transcriptionId fileId)
          = delete_transcription_request transcriptionId :: rest.
Proof.
  intros Hid. unfold deleteResources. rewrite Hid, trace_bind, trace_bind.
  unfold tryDeleteResource at 1. rewrite trace_bind. cbn. eauto.
Qed.

(** What [wait_and_clean] does with auto-delete, by the outcome of the poll. *)
Lemma wait_and_clean_outcome env fuel cfg f id :
  autoDelete cfg = true →
  outcome (wait_and_clean env fuel cfg f id)
  = match outcome (poll_of env fuel cfg id) with
    | Ok result =>
        match outcome (cleanup_of env cfg f id) with
        | Ok deleteResult =>
            match warnings deleteResult with
            | [] => Ok (shape_output (outputMode cfg) (result_transcript result))
            | ws => set_prop (shape_output (outputMode cfg) (result_transcript result))
                      "_deleteWarnings" (VArr (map VStr ws))
            end
        | Throw e => Throw e
        | OutOfFuel => OutOfFuel
        end
    | Throw pollError =>
        match outcome (cleanup_of env cfg f id) with
        | Ok _ => Throw pollError
        | Throw e => Throw e
        | OutOfFuel => OutOfFuel
        end
    | OutOfFuel => OutOfFuel
    end.
Proof.
  intros Hauto. unfold wait_and_clean. rewrite Hauto.
  rewrite outcome_bind, outcome_try_catch, outcome_bind.
  fold (poll_of env fuel cfg id). fold (file_to_delete cfg f).
  fold (cleanup_of env cfg f id).
  destruct (outcome (poll_of env fuel cfg id)) as [result|pollError|]; [| |done].
  - cbn [outcome ret snd]. rewrite !outcome_bind.
    destruct (outcome (cleanup_of env cfg f id)) as [deleteResult|e|]; [|done|done].
    cbn [outcome ret snd]. by destruct (warnings deleteResult).
  - cbn [outcome ret snd]. rewrite !outcome_bind.
    by destruct (outcome (cleanup_of env cfg f id)).
Qed.

Lemma wait_and_clean_trace env fuel cfg f id pollError :
  autoDelete cfg = true →
  outcome (poll_of env fuel cfg id) = Throw pollError →
  trace (wait_and_clean env fuel cfg f id)
  = trace (poll_of env fuel cfg id) ++ trace (cleanup_of env cfg f id).
Proof.
  intros Hauto Hpoll. unfold wait_and_clean. rewrite Hauto.
  fold (poll_of env fuel cfg id). fold (file_to_delete cfg f).
  fold (cleanup_of env cfg f id).
  rewrite trace_bind, trace_try_catch, outcome_try_catch, !trace_bind, !outcome_bind.
  rewrite Hpoll. cbn [trace outcome ret fst snd]. rewrite !app_nil_r.
  f_equal. rewrite !trace_bind, outcome_bind.
  destruct (outcome (cleanup_of env cfg f id)); cbn; by rewrite ?app_nil_r.
Qed.

Section Create.
Variable JSON_parse : string → JsVal + string.

Lemma uploadFile_cases env name :
  quiet (uploadFile JSON_parse env name)
  ∧ ((∃ e, outcome (uploadFile JSON_parse env name) = Throw e)
     ∨ ∃ id, outcome (uploadFile JSON_parse env name) = Ok id
             ∧ truthy id = true).
Proof.
  unfold uploadFile, quiet.
  destruct (assertBinaryData env name) as [e|binaryData]; cbn [host bind throw ret].
  { split; [done | left; eauto]. }
  destruct (getBinaryDataBuffer env name) as [e|buffer]; cbn [host bind throw ret].
  { split; [done | left; eauto]. }
  destruct (upload_answer env) as [response|e]; cbn -[createMultipartPayload].
  - match goal with
    | |- context [truthy ?id] => destruct (truthy id) eqn:Hid
    end; cbn -[createMultipartPayload]; (split; [done|]); [right | left]; eauto.
  - split; [done | left; eauto].
Qed.

Lemma audio_source_quiet env cfg : quiet (audio_source JSON_parse env cfg).
Proof.
  unfold audio_source.
  destruct (String.eqb (audioSource cfg) "binary").
  { apply quiet_bind; [apply uploadFile_cases | intros; apply quiet_ret]. }
  destruct (String.eqb (audioSource cfg) "url").
  { by destruct (negb _). }
  destruct (String.eqb (audioSource cfg) "fileId"); [|done].
  by destruct (negb _).
Qed.

(** What the two locals hold once the audio source is read. *)
Lemma audio_source_cases env cfg :
  (url_populated cfg = false ∧ file_populated JSON_parse env cfg = false
   ∧ ∃ e, outcome (audio_source JSON_parse env cfg) = Throw e
          ∧ (audioSource cfg ≠ "binary" → is_validation_error e))
  ∨ ∃ a f, outcome (audio_source JSON_parse env cfg) = Ok (a, f)
           ∧ truthy a = url_populated cfg
           ∧ truthy f = file_populated JSON_parse env cfg
           ∧ xorb (truthy a) (truthy f) = true.
Proof.
  unfold audio_source, url_populated, file_populated, succeeds.
  destruct (String.eqb (audioSource cfg) "binary") eqn:Hbin.
  { apply String.eqb_eq in Hbin. rewrite Hbin. cbn [String.eqb andb orb].
    rewrite outcome_bind.
    destruct (uploadFile_cases env (binaryPropertyName cfg))
      as [_ [(e & ->)|(id & -> & Hid)]].
    - left. do 2 (split; [done|]). exists e. split; [done|]. by intros [].
    - right. exists VUndefined, id. cbn. by rewrite Hid. }
  destruct (String.eqb (audioSource cfg) "url") eqn:Hurl.
  { destruct (isNonEmptyString (audioUrl cfg)) eqn:Hne; cbn.
    - right. exists (audioUrl cfg), VUndefined.
      rewrite (isNonEmptyString_truthy _ Hne).
      apply String.eqb_eq in Hurl. by rewrite Hurl.
    - left. apply String.eqb_eq in Hurl. rewrite Hurl. cbn.
      do 2 (split; [done|]). eexists. split; [done|]. intros _. by eexists _, _. }
  destruct (String.eqb (audioSource cfg) "fileId") eqn:Hfile.
  { destruct (isNonEmptyString (fileId cfg)) eqn:Hne; cbn.
    - right. exists VUndefined, (fileId cfg).
      by rewrite (isNonEmptyString_truthy _ Hne).
    - left. do 2 (split; [done|]). eexists. split; [done|].
      intros _. by eexists _, _. }
  left. cbn. do 2 (split; [done|]). eexists. split; [done|].
  intros _. by eexists _, _.
Qed.
Lemma parseStructuredContext_cases value :
  (∃ e, parseStructuredContext JSON_parse value = Throw e)
  ∨ parseStructuredContext JSON_parse value = Ok VUndefined
  ∨ ∃ k v fields, parseStructuredContext JSON_parse value
                  = Ok (VObj ((k, v) :: fields)).
Proof.
  unfold parseStructuredContext. destruct (negb (truthy value)); [by right; left|].
  destruct value as [| | | |text| |fields]; try by right; left.
  - destruct (is_empty (trim text)); [by right; left|].
    destruct (JSON_parse (trim text)) as [[| | | | | |[|[k v] fields]]|msg];
      try (by left; eauto); [by right; left|].
    right; right. by exists k, v, fields.
  - destruct fields as [|[k v] fields]; [by right; left|].
    right; right. by exists k, v, fields.
Qed.

Lemma read_context_trace cfg : trace (read_context JSON_parse cfg) = [].
Proof.
  unfold read_context.
  destruct (String.eqb (contextMode cfg) "text"); [done|].
  destruct (String.eqb (contextMode cfg) "structured"); [|done].
  rewrite trace_try_catch, trace_lift, outcome_lift.
  by destruct (parseStructuredContext _ _).
Qed.

(** In structured mode the context read is [undefined] or an object with
    at least one key. *)
Lemma read_context_structured cfg :
  contextMode cfg = "structured" →
  (∃ e, outcome (read_context JSON_parse cfg) = Throw e)
  ∨ outcome (read_context JSON_parse cfg) = Ok VUndefined
  ∨ ∃ k v fields, outcome (read_context JSON_parse cfg)
                  = Ok (VObj ((k, v) :: fields)).
Proof.
  intros Hmode. unfold read_context.
  replace (String.eqb (contextMode cfg) "text") with false
    by (by rewrite Hmode).
  replace (String.eqb (contextMode cfg) "structured") with true
    by (by rewrite Hmode).
  rewrite outcome_try_catch, outcome_lift.
  destruct (parseStructuredContext_cases (contextJson cfg))
    as [(e & ->)|[->|(k & v & fields & ->)]].
  - left. eauto.
  - by right; left.
  - right; right. by exists k, v, fields.
Qed.

Lemma read_context_finishes cfg :
  outcome (read_context JSON_parse cfg) ≠ OutOfFuel.
Proof.
  unfold read_context.
  destruct (String.eqb (contextMode cfg) "text"); [done|].
  destruct (String.eqb (contextMode cfg) "structured"); [|done].
  rewrite outcome_try_catch, outcome_lift.
  by destruct (parseStructuredContext_cases (contextJson cfg))
    as [(e & ->)|[->|(k & v & fields & ->)]].
Qed.

(** The run of [create] up to the create call: it fails before the call,
    or it issues exactly one, with the body it assembled. *)
Lemma create_cases env fuel cfg :
  (quiet (create JSON_parse env fuel cfg)
   ∧ ∃ e, outcome (create JSON_parse env fuel cfg) = Throw e)
  ∨ ∃ a f hints context body,
      isNonEmptyString (model cfg) = true
      ∧ outcome (audio_source JSON_parse env cfg) = Ok (a, f)
      ∧ normalizeLanguageHints (languageHints cfg) = Ok hints
      ∧ outcome (read_context JSON_parse cfg) = Ok context
      ∧ outcome (translation cfg (assemble_body cfg a f hints context)) = Ok body
      ∧ create_calls (trace (create JSON_parse env fuel cfg)) = [JsonBody body].
Proof.
  unfold create.
  destruct (isNonEmptyString (model cfg)) eqn:Hmodel; cbn [negb];
    [|left; split; [done | eauto]].
  pose proof (audio_source_quiet env cfg) as Hq1.
  destruct (audio_source_cases env cfg)
    as [(_ & _ & e & He & _)|(a & f & Hsrc & _ & _ & Hxor)].
  { left. unfold quiet. rewrite trace_bind, outcome_bind, He, app_nil_r.
    split; [exact Hq1 | eauto]. }
  unfold quiet in *. rewrite trace_bind, outcome_bind, Hsrc. cbn [fst snd].
  rewrite create_calls_app, Hq1. cbn [app].
  replace (truthy a && truthy f || negb (truthy a) && negb (truthy f))
    with false by (by destruct (truthy a), (truthy f)).
  rewrite trace_bind, outcome_bind, trace_lift, outcome_lift. cbn [app].
  destruct (normalizeLanguageHints (languageHints cfg)) as [hints|e|] eqn:Hhints;
    [|left; split; [done | eauto]
     |by destruct (normalizeLanguageHints_finishes (languageHints cfg))].
  rewrite trace_bind, outcome_bind, read_context_trace. cbn [app].
  destruct (outcome (read_context JSON_parse cfg)) as [context|e|] eqn:Hctx;
    [|left; split; [done | eauto]
     |by destruct (read_context_finishes cfg)].
  rewrite trace_bind, outcome_bind, translation_trace. cbn [app].
  destruct (translation_outcome cfg (assemble_body cfg a f hints context))
    as [(e & He)|(body & Hbody & _)]; rewrite ?He, ?Hbody;
    [left; split; [done | eauto]|].
  right. exists a, f, hints, context, body. do 5 (split; [done|]).
  rewrite trace_bind, create_calls_app.
  assert (Hcall : ∀ answer,
            create_calls (trace (sonioxApiRequest answer "POST" CREATE_URL
                                   (JsonBody body))) = [JsonBody body])
    by (by intros []).
  rewrite Hcall. cbn [app]. f_equal.
  destruct (outcome (sonioxApiRequest _ _ _ _)) as [response| |]; [|done|done].
  destruct (waitForCompletion cfg); cbn [negb]; [|done].
  rewrite trace_bind, trace_lift, outcome_lift. cbn [app].
  destruct (get response "id") as [id| |]; [|done|done].
  destruct (truthy id); cbn [negb]; [|done].
  apply quiet_wait_and_clean.
Qed.

Lemma never_both_sources env cfg :
  url_populated cfg && file_populated JSON_parse env cfg = false.
Proof.
  unfold url_populated, file_populated.
  destruct (String.eqb (audioSource cfg) "url") eqn:E; [|done].
  apply String.eqb_eq in E. rewrite E. cbn.
  by destruct (isNonEmptyString (audioUrl cfg)).
Qed.

(** C1. A run of [create] issues no create call or exactly one, whose body
    has exactly one of [audio_url] and [file_id]. The parameters never
    populate both sources. When they populate both or neither, the run
    throws before any create call, and what it throws is an error of the
    node itself unless the source is a binary that failed to upload. *)
Theorem create_sends_exactly_one_source (env : Env) (fuel : nat) (cfg : Config) :
  (create_calls (trace (create JSON_parse env fuel cfg)) = []
   ∨ ∃ body, create_calls (trace (create JSON_parse env fuel cfg)) = [body]
             ∧ one_source body)
  ∧ url_populated cfg && file_populated JSON_parse env cfg = false
  ∧ (url_populated cfg = file_populated JSON_parse env cfg →
     create_calls (trace (create JSON_parse env fuel cfg)) = []
     ∧ ∃ e, outcome (create JSON_parse env fuel cfg) = Throw e
            ∧ (audioSource cfg ≠ "binary" → is_validation_error e)).
Proof.
  split; [|split; [apply never_both_sources|]].
  - destruct (create_cases env fuel cfg)
      as [[Hquiet _]|(a & f & hints & context & body & _ & Hsrc & _ & _ & Hbody & Hcalls)];
      [by left|].
    right. exists (JsonBody body). split; [done|]. exists body. split; [done|].
    destruct (translation_outcome cfg (assemble_body cfg a f hints context))
      as [(e & He)|(body' & Hbody' & Hkeep)]; [congruence|].
    assert (body' = body) as -> by congruence.
    unfold hasOwnProperty. rewrite !Hkeep by done.
    rewrite assemble_body_audio_url, assemble_body_file_id.
    destruct (audio_source_cases env cfg)
      as [(_ & _ & e & He & _)|(a' & f' & Hsrc' & _ & _ & Hxor)]; [congruence|].
    assert (a' = a ∧ f' = f) as [-> ->] by (split; congruence).
    by destruct (truthy a), (truthy f).
  - intros Hsame.
    destruct (audio_source_cases env cfg)
      as [(_ & _ & e & He & Hval)|(a & f & _ & Ha & Hf & Hxor)].
    + destruct (create_cases env fuel cfg)
        as [[Hquiet _]|(a & f & _ & _ & _ & _ & Hsrc & _)]; [|congruence].
      split; [exact Hquiet|]. unfold create.
      destruct (isNonEmptyString (model cfg)); cbn [negb].
      * exists e. by rewrite outcome_bind, He.
      * eexists. split; [done|]. intros _. by eexists _, _.
    + rewrite Ha, Hf, Hsame in Hxor. by destruct (file_populated _ _ _).
Qed.

(** C4. In structured context mode no create call carries an array as
    [context]. When the context is the text of a JSON array, the run throws
    before any create call; and if the model, the audio source and the
    language hints are accepted, what it throws is the error whose message
    says that the context must be an object, not an array or primitive. *)
Theorem array_context_rejected (env : Env) (fuel : nat) (cfg : Config) :
  contextMode cfg = "structured" →
  (∀ body items,
     JsonBody body ∈ create_calls (trace (create JSON_parse env fuel cfg)) →
     own "context" body ≠ Some (VArr items))
  ∧ ∀ text items,
      contextJson cfg = VStr text →
      is_empty (trim text) = false →
      JSON_parse (trim text) = inl (VArr items) →
      create_calls (trace (create JSON_parse env fuel cfg)) = []
      ∧ (∃ e, outcome (create JSON_parse env fuel cfg) = Throw e)
      ∧ (isNonEmptyString (model cfg) = true →
         succeeds (audio_source JSON_parse env cfg) = true →
         (∃ hints, normalizeLanguageHints (languageHints cfg) = Ok hints) →
         ∃ description,
           outcome (create JSON_parse env fuel cfg)
           = Throw (NodeOperationError
                      ("Invalid context: " +:+ CONTEXT_NOT_OBJECT) description)).
Proof.
  intros Hmode. split.
  - intros body items Hin.
    destruct (create_cases env fuel cfg)
      as [[Hquiet _]|(a & f & hints & context & body' & _ & _ & _ & Hctx & Hbody & Hcalls)].
    { unfold quiet in Hquiet. rewrite Hquiet in Hin. by apply elem_of_nil in Hin. }
    rewrite Hcalls in Hin. apply list_elem_of_singleton in Hin as [= ->].
    destruct (translation_outcome cfg (assemble_body cfg a f hints context))
      as [(e & He)|(body'' & Hbody'' & Hkeep)]; [congruence|].
    assert (body'' = body') as -> by congruence.
    rewrite Hkeep by done. rewrite assemble_body_context.
    destruct (read_context_structured cfg Hmode)
      as [(e & He)|[Hundef|(k & v & fields & Hobj)]]; [congruence| |].
    + assert (context = VUndefined) as -> by congruence. done.
    + assert (context = VObj ((k, v) :: fields)) as -> by congruence. done.
  - intros text items Hjson Htext Hparse.
    assert (Hthrow : outcome (read_context JSON_parse cfg)
                     = Throw (NodeOperationError
                                ("Invalid context: " +:+ CONTEXT_NOT_OBJECT)
                                (Some "Check that your context JSON is valid. The API expects an object with optional fields: general, text, terms, translation_terms."))).
    { unfold read_context.
      replace (String.eqb (contextMode cfg) "text") with false
        by (by rewrite Hmode).
      replace (String.eqb (contextMode cfg) "structured") with true
        by (by rewrite Hmode).
      rewrite outcome_try_catch, outcome_lift.
      unfold parseStructuredContext. rewrite Hjson. cbn [truthy].
      assert (is_empty text = false) as ->.
      { destruct text; [by vm_compute in Htext | done]. }
      cbn [negb]. by rewrite Htext, Hparse. }
    destruct (create_cases env fuel cfg)
      as [[Hquiet Hfails]|(a & f & hints & context & body' & _ & _ & _ & Hctx & _)];
      [|congruence].
    split; [exact Hquiet|]. split; [exact Hfails|].
    intros Hmodel Hsrc (hints & Hhints). eexists. unfold create.
    rewrite Hmodel. cbn [negb]. rewrite outcome_bind.
    unfold succeeds in Hsrc.
    destruct (audio_source_cases env cfg)
      as [(_ & _ & e & He & _)|(a & f & Hsrc' & _ & _ & Hxor)];
      [by rewrite He in Hsrc|].
    rewrite Hsrc'. cbn [fst snd].
    replace (truthy a && truthy f || negb (truthy a) && negb (truthy f))
      with false by (by destruct (truthy a), (truthy f)).
    rewrite outcome_bind, outcome_lift, Hhints.
    by rewrite outcome_bind, Hthrow.
Qed.
Lemma create_reaches_polling env fuel cfg f id :
  reaches_polling JSON_parse env cfg f id →
  outcome (create JSON_parse env fuel cfg)
  = outcome (wait_and_clean env fuel cfg f id)
  ∧ ∃ before, trace (create JSON_parse env fuel cfg)
              = before ++ trace (wait_and_clean env fuel cfg f id).
Proof.
  intros (Hmodel & Hwait & a & hints & context & body & response
          & Hsrc & Hhints & Hctx & Hbody & Hanswer & Hid & Htruthy).
  unfold create. rewrite Hmodel, Hwait. cbn [negb].
  remember (wait_and_clean env fuel cfg f) as tail eqn:Htail.
  destruct (audio_source_cases env cfg)
    as [(_ & _ & e & He & _)|(a' & f' & Hsrc' & _ & _ & Hxor)]; [congruence|].
  assert (a' = a ∧ f' = f) as [-> ->] by (split; congruence).
  rewrite !trace_bind, !outcome_bind, Hsrc. cbn [fst snd]. rewrite <- Htail.
  replace (truthy a && truthy f || negb (truthy a) && negb (truthy f))
    with false by (by destruct (truthy a), (truthy f)).
  rewrite !trace_bind, !outcome_bind, outcome_lift, Hhints. cbv beta iota.
  rewrite !trace_bind, !outcome_bind, Hctx. cbv beta iota.
  rewrite !trace_bind, !outcome_bind, Hbody. cbv beta iota.
  rewrite !trace_bind, !outcome_bind, Hanswer, sonioxApiRequest_ok, !outcome_pair.
  cbv beta iota.
  rewrite !trace_bind, !outcome_bind, outcome_lift, Hid. cbv beta iota.
  rewrite Htruthy. cbn [negb].
  split; [done|]. rewrite !app_assoc. eauto.
Qed.

(** C2. Take a run of [create] that reaches polling with auto-delete on.
    If the poll succeeds and the shaped output is an object, the item's
    output is that object, with each of its keys but [_deleteWarnings]
    unchanged; the cleanup yields one warning per failed deletion, and when
    there is any, [_deleteWarnings] holds them all. If the poll throws, the
    cleanup is still run after it (its first request deletes the
    transcription), and the run throws the poll's own error: no warning is
    attached to anything. *)
Theorem cleanup_after_polling (env : Env) (fuel : nat) (cfg : Config)
    (f id : JsVal) :
  reaches_polling JSON_parse env cfg f id →
  autoDelete cfg = true →
  (∀ result fields,
     outcome (poll_of env fuel cfg id) = Ok result →
     shape_output (outputMode cfg) (result_transcript result) = VObj fields →
     ∃ deleteResult output,
       outcome (cleanup_of env cfg f id) = Ok deleteResult
       ∧ length (warnings deleteResult)
         = failed_deletions env id (file_to_delete cfg f)
       ∧ outcome (create JSON_parse env fuel cfg) = Ok (VObj output)
       ∧ (∀ k, k ≠ "_deleteWarnings" → own k output = own k fields)
       ∧ (warnings deleteResult = [] → output = fields)
       ∧ (warnings deleteResult ≠ [] →
          own "_deleteWarnings" output
          = Some (VArr (map VStr (warnings deleteResult)))))
  ∧ (∀ pollError,
       outcome (poll_of env fuel cfg id) = Throw pollError →
       outcome (create JSON_parse env fuel cfg) = Throw pollError
       ∧ (∃ before,
            trace (create JSON_parse env fuel cfg)
            = before ++ trace (poll_of env fuel cfg id)
                ++ trace (cleanup_of env cfg f id))
       ∧ ∃ rest, trace (cleanup_of env cfg f id)
                 = delete_transcription_request id :: rest).
Proof.
  intros Hreach Hauto.
  destruct (create_reaches_polling env fuel cfg f id Hreach)
    as (Hout & before & Htrace).
  assert (Hid : truthy id = true).
  { by destruct Hreach as (_ & _ & ? & ? & ? & ? & ? & ? & ? & ? & ? & ? & ? & ?). }
  destruct (deleteResources_warnings env id (file_to_delete cfg f))
    as (deleteResult & Hclean & Hcount).
  rewrite Hout, (wait_and_clean_outcome _ _ _ _ _ Hauto).
  unfold cleanup_of in *. rewrite Hclean. split.
  - intros result fields -> Hshape. rewrite Hshape.
    destruct (warnings deleteResult) as [|w ws] eqn:Hws.
    + exists deleteResult, fields. rewrite Hws. by repeat split.
    + exists deleteResult,
        (assign "_deleteWarnings" (VArr (map VStr (w :: ws))) fields).
      rewrite Hws. split; [done|]. split; [done|]. split; [done|].
      split; [intros k Hk; by apply own_assign_ne|].
      split; [done|]. intros _. apply own_assign_eq.
  - intros pollError Hpoll. rewrite Hpoll. split; [done|]. split.
    + rewrite Htrace, (wait_and_clean_trace _ _ _ _ _ _ Hauto Hpoll).
      unfold cleanup_of. eauto.
    + apply deleteResources_first_request, Hid.
Qed.
End Create.

(** * Worked examples *)

(** The blank audio URL populates neither source: the run throws and issues
    no create call. *)
Lemma create_sends_exactly_one_source_witness :
  url_populated (sample_cfg (VStr "  ") VUndefined 2)
  = file_populated Reader.parse
      (sample_env (fun _ => with_status "processing") ticking (HttpOk VUndefined))
      (sample_cfg (VStr "  ") VUndefined 2)
  ∧ create_calls
      (trace (create Reader.parse
                (sample_env (fun _ => with_status "processing") ticking
                   (HttpOk VUndefined))
                5 (sample_cfg (VStr "  ") VUndefined 2))) = []
  ∧ ∃ e, outcome (create Reader.parse
                    (sample_env (fun _ => with_status "processing") ticking
                       (HttpOk VUndefined))
                    5 (sample_cfg (VStr "  ") VUndefined 2)) = Throw e.
Proof.
  split; [reflexivity|].
  destruct (create_sends_exactly_one_source Reader.parse
              (sample_env (fun _ => with_status "processing") ticking
                 (HttpOk VUndefined))
              5 (sample_cfg (VStr "  ") VUndefined 2)) as (_ & _ & Hneither).
  destruct (Hneither eq_refl) as (Hquiet & e & He & _).
  split; [exact Hquiet | exists e; exact He].
Defined.

(** Max-wait 2 s, interval 1 s, every status ["processing"]: the third
    check finds the deadline passed. *)
Lemma poll_times_out_witness :
  ∃ description,
    outcome (pollForCompletion
               (sample_env (fun _ => with_status "processing") ticking
                  (HttpOk VUndefined))
               5 (sample_options 2))
    = Throw (NodeOperationError
               "Polling timed out after 2 seconds (last status: processing)"
               description).
Proof.
  destruct (poll_times_out
              (sample_env (fun _ => with_status "processing") ticking
                 (HttpOk VUndefined))
              (sample_options 2) 2)
    with (fuel := 5%nat)
    as (statusResponse & message & description & Hanswer & Hrun & Hmessage & _).
  - intros i Hi. split; [|split].
    + exists (VObj [("id", VStr "t1"); ("status", VStr "processing")]).
      split; reflexivity.
    + unfold ticking, deadline. cbn. lia.
    + reflexivity.
  - exists (VObj [("id", VStr "t1"); ("status", VStr "processing")]).
    split; reflexivity.
  - reflexivity.
  - lia.
  - exists description. rewrite Hrun. f_equal. f_equal.
    rewrite Hmessage. cbn in Hanswer. injection Hanswer as <-. reflexivity.
Defined.

(** The poll succeeds and deleting the transcription fails: the output is
    the transcript with one warning. *)
Lemma cleanup_after_polling_witness :
  reaches_polling Reader.parse
    (sample_env (fun _ => with_status "completed") ticking (HttpFail plain_error))
    (sample_cfg sample_url VUndefined 2) VUndefined (VStr "t1")
  ∧ autoDelete (sample_cfg sample_url VUndefined 2) = true
  ∧ ∃ output,
      outcome (create Reader.parse
                 (sample_env (fun _ => with_status "completed") ticking
                    (HttpFail plain_error))
                 5 (sample_cfg sample_url VUndefined 2))
      = Ok (VObj output)
      ∧ own "text" output = Some (VStr "hello")
      ∧ own "_deleteWarnings" output
        = Some (VArr [VStr "Failed to delete transcription t1: Unknown error"]).
Proof.
  assert (Hreach : reaches_polling Reader.parse
            (sample_env (fun _ => with_status "completed") ticking
               (HttpFail plain_error))
            (sample_cfg sample_url VUndefined 2) VUndefined (VStr "t1")).
  { split; [reflexivity|]. split; [reflexivity|].
    exists sample_url, [], VUndefined,
      [("model", VStr "stt-async-v3"); ("audio_url", sample_url)],
      (VObj [("id", VStr "t1"); ("status", VStr "queued")]).
    repeat split; reflexivity. }
  split; [exact Hreach|]. split; [reflexivity|].
  destruct (cleanup_after_polling Reader.parse _ 5 _ _ _ Hreach eq_refl)
    as [Hsuccess _].
  destruct (Hsuccess
              {| result_status := VObj [("id", VStr "t1"); ("status", VStr "completed")];
                 result_transcript := VObj [("id", VStr "t1"); ("text", VStr "hello")] |}
              [("id", VStr "t1"); ("text", VStr "hello")] eq_refl eq_refl)
    as (deleteResult & output & Hclean & _ & Hrun & Hkeep & _ & Hwarn).
  exists output. split; [exact Hrun|]. split.
  - rewrite Hkeep; [reflexivity | discriminate].
  - vm_compute in Hclean. injection Hclean as <-.
    rewrite Hwarn; [reflexivity | discriminate].
Defined.

(** The context ["[1,2,3]"] is refused with the message about objects. *)
Lemma array_context_rejected_witness :
  contextMode (sample_cfg sample_url (VStr "[1,2,3]") 2) = "structured"
  ∧ Reader.parse (trim "[1,2,3]") = inl (VArr [VNum 1; VNum 2; VNum 3])
  ∧ create_calls
      (trace (create Reader.parse
                (sample_env (fun _ => with_status "completed") ticking
                   (HttpOk VUndefined))
                5 (sample_cfg sample_url (VStr "[1,2,3]") 2))) = []
  ∧ ∃ description,
      outcome (create Reader.parse
                 (sample_env (fun _ => with_status "completed") ticking
                    (HttpOk VUndefined))
                 5 (sample_cfg sample_url (VStr "[1,2,3]") 2))
      = Throw (NodeOperationError
                 "Invalid context: Context must be a JSON object, not an array or primitive"
                 description).
Proof.
  split; [reflexivity|]. split; [reflexivity|].
  destruct (array_context_rejected Reader.parse
              (sample_env (fun _ => with_status "completed") ticking
                 (HttpOk VUndefined))
              5 (sample_cfg sample_url (VStr "[1,2,3]") 2) eq_refl)
    as [_ Harray].
  destruct (Harray "[1,2,3]" [VNum 1; VNum 2; VNum 3] eq_refl eq_refl eq_refl)
    as (Hquiet & _ & Hmessage).
  split; [exact Hquiet|].
  apply Hmessage; [reflexivity | reflexivity | by exists []].
Defined.

(** An object with the secret and one other key, at location 1. *)
Lemma redaction_frame_witness :
  ∃ l' fields',
    Store.redactWebhookAuthHeaderValue
      {[ 1%positive := Store.CObj [("id", Store.RStr "t1");
                                   (SECRET_KEY, Store.RStr "secret")] ]}
      (Store.RPtr 1%positive)
    = (<[l' := Store.CObj fields']>
         {[ 1%positive := Store.CObj [("id", Store.RStr "t1");
                                      (SECRET_KEY, Store.RStr "secret")] ]},
       Store.RPtr l')
    ∧ l' ≠ 1%positive
    ∧ own SECRET_KEY fields' = Some (Store.RStr REDACTED)
    ∧ own "id" fields' = Some (Store.RStr "t1").
Proof.
  destruct (redaction_frame
              {[ 1%positive := Store.CObj [("id", Store.RStr "t1");
                                           (SECRET_KEY, Store.RStr "secret")] ]}
              1%positive
              [("id", Store.RStr "t1"); (SECRET_KEY, Store.RStr "secret")])
    as [Hhas _].
  - reflexivity.
  - destruct (Hhas eq_refl)
      as (l' & fields' & Hrun & Hne & _ & Hsecret & Hothers & _).
    exists l', fields'. split; [exact Hrun|]. split; [exact Hne|].
    split; [exact Hsecret|]. rewrite Hothers; [reflexivity | discriminate].
Defined.

(** A body message wins over the description; without any message the
    status code is named. *)
Lemma error_message_priority_witness :
  (∃ hint,
     outcome (sonioxApiRequest
                (HttpFail
                   {| err_message := Some "Request failed";
                      err_description := Some "described";
                      err_httpCode := None;
                      err_cause := None;
                      err_response :=
                        Some {| response_statusCode := Some 429;
                                response_body :=
                                  Some {| body_message := Some "Too many requests";
                                          body_detail := Some "";
                                          body_error := None;
                                          body_code := None |} |} |})
                "GET" "/v1/transcriptions/t1" NoBody)
     = Throw (NodeOperationError "Soniox API error: Too many requests" hint))
  ∧ ∃ hint,
      outcome (sonioxApiRequest
                 (HttpFail
                    {| err_message := None; err_description := None;
                       err_httpCode := Some 503; err_cause := None;
                       err_response := None |})
                 "GET" "/v1/transcriptions/t1" NoBody)
      = Throw (NodeOperationError "Soniox API error (HTTP 503)" hint).
Proof.
  split.
  - destruct (error_message_priority
                {| err_message := Some "Request failed";
                   err_description := Some "described";
                   err_httpCode := None;
                   err_cause := None;
                   err_response :=
                     Some {| response_statusCode := Some 429;
                             response_body :=
                               Some {| body_message := Some "Too many requests";
                                       body_detail := Some "";
                                       body_error := None;
                                       body_code := None |} |} |}
                "GET" "/v1/transcriptions/t1" NoBody) as (_ & Hfirst & _).
    exact (Hfirst "Too many requests" eq_refl).
  - destruct (error_message_priority
                {| err_message := None; err_description := None;
                   err_httpCode := Some 503; err_cause := None;
                   err_response := None |}
                "GET" "/v1/transcriptions/t1" NoBody) as (_ & _ & Hnone).
    apply (Hnone eq_refl 503 eq_refl). discriminate.
Defined.

(** The first status is ["completed"] while the clock is far past the
    deadline: the transcript is returned. *)
Lemma terminal_status_checked_first_witness :
  clock_at (sample_env (fun _ => with_status "completed")
              (fun _ => 1000000) (HttpOk VUndefined)) 0
    > deadline (sample_env (fun _ => with_status "completed")
                  (fun _ => 1000000) (HttpOk VUndefined)) (sample_options 2)
  ∧ outcome (pollForCompletion
               (sample_env (fun _ => with_status "completed")
                  (fun _ => 1000000) (HttpOk VUndefined))
               1 (sample_options 2))
    = Ok {| result_status := VObj [("id", VStr "t1"); ("status", VStr "completed")];
            result_transcript := VObj [("id", VStr "t1"); ("text", VStr "hello")] |}.
Proof.
  split; [reflexivity|].
  destruct (terminal_status_checked_first
              (sample_env (fun _ => with_status "completed")
                 (fun _ => 1000000) (HttpOk VUndefined))
              (sample_options 2)) as [_ Hterminal].
  destruct (Hterminal 0%nat
              (VObj [("id", VStr "t1"); ("status", VStr "completed")]) 1%nat)
    as (Hcompleted & _).
  - intros i Hi. lia.
  - reflexivity.
  - lia.
  - exact (Hcompleted eq_refl).
Defined.

(** A secret one level down stays in the output. *)
Lemma redaction_is_shallow_witness :
  redactWebhookAuthHeaderValue
    (VObj [("id", VStr "t1");
           ("request", VObj [(SECRET_KEY, VStr "secret")])])
  = VObj [("id", VStr "t1");
          ("request", VObj [(SECRET_KEY, VStr "secret")])]
  ∧ get_path
      (redactWebhookAuthHeaderValue
         (VObj [("id", VStr "t1");
                ("request", VObj [(SECRET_KEY, VStr "secret")])]))
      ([Prop_ "request"] ++ [Prop_ SECRET_KEY]) = Some (VStr "secret").
Proof.
  destruct (redaction_is_shallow
              [("id", VStr "t1");
               ("request", VObj [(SECRET_KEY, VStr "secret")])]
              [Prop_ "request"] (VStr "secret") eq_refl eq_refl)
    as (Hsame & _ & _ & Hsecret).
  split; [exact Hsame | exact Hsecret].
Defined.

(** Statuses processing, processing, completed with interval 1 s and
    max-wait 10 s: the transcript comes back after the third check. *)
Example poll_third_check :
  pollForCompletion
    (sample_env (fun i => with_status (if (i <? 2)%nat then "processing" else "completed"))
       ticking (HttpOk VUndefined))
    5 (sample_options 10)
  = ([status_request (sample_options 10); Sleep 1000;
      status_request (sample_options 10); Sleep 1000;
      status_request (sample_options 10);
      Call {| req_method := "GET"; req_url := "/v1/transcriptions/t1/transcript";
              req_body := NoBody |}],
     Ok {| result_status := VObj [("id", VStr "t1"); ("status", VStr "completed")];
           result_transcript := VObj [("id", VStr "t1"); ("text", VStr "hello")] |}).
Proof. reflexivity. Qed.

(** A failed job reports the message of the server. *)
Example poll_job_failed :
  outcome (pollForCompletion
             (sample_env (fun _ => HttpOk (VObj [("status", VStr "error");
                                                  ("error_message", VStr "bad audio")]))
                ticking (HttpOk VUndefined))
             5 (sample_options 10))
  = Throw (job_failed (VObj [("status", VStr "error");
                             ("error_message", VStr "bad audio")]) JOB_FAILED_IS)
  ∧ message_head (job_failed (VObj [("status", VStr "error");
                                    ("error_message", VStr "bad audio")])
                    JOB_FAILED_IS) = Some "T"%char.
Proof. split; reflexivity. Qed.

(** ** The earlier revision *)

(** X23. There an array read from the context text went into the body. *)
Lemma earlier_array_context_sent (JSON_parse : string → JsVal + string)
    (cfg : Config) (a f : JsVal) (hints : list JsVal)
    (text : string) (x : JsVal) (items : list JsVal) :
  contextMode cfg = "structured" →
  contextJson cfg = VStr text →
  is_empty text = false →
  JSON_parse text = inl (VArr (x :: items)) →
  own "context"
    (assemble_body cfg a f hints (Earlier.read_context JSON_parse cfg))
  = Some (VArr (x :: items)).
Proof.
  intros Hmode Hjson Htext Hparse. rewrite assemble_body_context.
  unfold Earlier.read_context, Earlier.parseJsonValue.
  replace (String.eqb (contextMode cfg) "text") with false by (by rewrite Hmode).
  replace (String.eqb (contextMode cfg) "structured") with true
    by (by rewrite Hmode).
  rewrite Hjson. cbn [truthy]. by rewrite Htext, Hparse.
Qed.

(** X24. There a failure without any detail was rethrown as it came, with
    no message naming the status code. *)
Lemma earlier_no_status_fallback (e : SonioxApiError) :
  first_present (take 6 message_probes) e = None →
  Earlier.sonioxApiRequest_error e = RequestError e.
Proof.
  unfold message_probes. cbn [take]. rewrite !first_present_cons.
  unfold Earlier.sonioxApiRequest_error, cause_error_of, response_body_of.
  repeat (match goal with
          | |- context [if text_truthy ?t then _ else _] =>
              destruct (text_truthy t) eqn:E
          end;
          [intros Hnone; rewrite Hnone in E; discriminate | clear E]).
  done.
Qed.

(** ** The credential test *)

(** The test is a GET of /v1/transcriptions/credential-test, and its one
    rule is on the response code 404. *)
Lemma credential_test_declared :
  test_method SonioxApi_test = "GET"
  ∧ test_url SonioxApi_test = "/v1/transcriptions/credential-test"
  ∧ ∀ rule, rule ∈ test_rules SonioxApi_test →
      rule_type rule = "responseCode" ∧ rule_value rule = 404
      ∧ rule_message rule = "Authentication failed. Verify your Soniox API key.".
Proof.
  split; [done|]. split; [done|].
  intros rule Hrule. apply list_elem_of_singleton in Hrule. by subst.
Qed.

(** * Further properties *)

(** ** Errors of remote calls *)







(** X2. The error code of a failed call is the first non-empty one among
    cause.error.code, cause.code and response.body.code; the status code is
    httpCode when that is a number other than zero, else
    response.statusCode. *)
Theorem error_code_priority (e : SonioxApiError) :
  details_errorCode (extractErrorDetails e) = first_present code_probes e
  ∧ details_statusCode (extractErrorDetails e)
    = match err_httpCode e with
      | Some 0 | None => err_response e ≫= response_statusCode
      | Some code => Some code
      end.
Proof.
  split.
  - unfold code_probes. rewrite !first_present_cons.
    unfold extractErrorDetails, cause_error_of, response_body_of, or_text.
    cbn [details_errorCode first_present].
    set (a := (err_cause e ≫= cause_error) ≫= inner_code).
    set (b := err_cause e ≫= cause_code).
    set (c := (err_response e ≫= response_body) ≫= body_code).
    destruct (text_truthy a) eqn:Ha; rewrite ?Ha; [done|].
    destruct (text_truthy b) eqn:Hb; rewrite ?Hb; [done|].
    by destruct (text_truthy c) eqn:Hc; rewrite ?Hc.
  - unfold extractErrorDetails, or_num. cbn [details_statusCode].
    by destruct (err_httpCode e) as [[| |]|].
Qed.


(** ** Upload *)

Lemma safeFileName_chars (name : string) :
  list_ascii_of_string (safeFileName name)
  = List.filter (fun c => negb (breaks_header c)) (list_ascii_of_string name).
Proof.
  induction name as [|c name IH]; [done|]. simpl. unfold breaks_header.
  destruct (Ascii.eqb c CR || Ascii.eqb c LF || Ascii.eqb c QUOTE); simpl;
    by rewrite IH.
Qed.

(** X4. The file name that goes into the part header holds no CR, LF or
    double quote; it is the given name with exactly these characters left
    out, so a name without them is used as it is. *)
Theorem safeFileName_clean (name : string) :
  Forall (fun c => breaks_header c = false)
    (list_ascii_of_string (safeFileName name))
  ∧ list_ascii_of_string (safeFileName name)
      `sublist_of` list_ascii_of_string name
  ∧ (∀ c, c ∈ list_ascii_of_string name → breaks_header c = false →
          c ∈ list_ascii_of_string (safeFileName name))
  ∧ (Forall (fun c => breaks_header c = false) (list_ascii_of_string name) →
     safeFileName name = name).
Proof.
  rewrite safeFileName_chars. split; [|split; [|split]].
  - apply Forall_forall. intros c Hc.
    apply list_elem_of_In, filter_In in Hc as [_ Hc]. by destruct (breaks_header c).
  - apply filter_sublist.
  - intros c Hc Hok. apply list_elem_of_In, filter_In.
    split; [by apply list_elem_of_In | by rewrite Hok].
  - intros Hclean. induction name as [|c name IH]; [done|].
    simpl in *. inversion Hclean as [|? ? Hc Hrest]; subst.
    unfold breaks_header in Hc. rewrite Hc. f_equal. by apply IH.
Qed.

Lemma safeFileName_clean_witness :
  safeFileName ("my" +:+ String QUOTE (String CR (String LF "audio.wav")))
    = "myaudio.wav"
  ∧ safeFileName "audio.wav" = "audio.wav".
Proof.
  split; [reflexivity|].
  destruct (safeFileName_clean "audio.wav") as (_ & _ & _ & Hsame).
  apply Hsame. repeat constructor.
Defined.

Section Upload.
Variable JSON_parse : string → JsVal + string.

(** X5. The upload asks the host for the binary data first and issues no
    request when that fails; otherwise it issues exactly one request, the
    POST of the multipart body to /v1/files. When that is answered, the
    upload returns a truthy id or throws the error that no file id came
    back, whatever the answer holds: a text that is no JSON is not a syntax
    error. A text answer and the object it parses to give the same. *)
Theorem uploadFile_behaviour (env : Env) (name : string) :
  (∀ e, assertBinaryData env name = inl e →
        uploadFile JSON_parse env name = ([], Throw e))
  ∧ (∀ data e, assertBinaryData env name = inr data →
               getBinaryDataBuffer env name = inl e →
               uploadFile JSON_parse env name = ([], Throw e))
  ∧ (∀ data buffer, assertBinaryData env name = inr data →
                    getBinaryDataBuffer env name = inr buffer →
       (∃ call, trace (uploadFile JSON_parse env name) = [call]
                ∧ is_upload_call call = true)
       ∧ (∀ response, upload_answer env = RawOk response →
            (∃ id, outcome (uploadFile JSON_parse env name) = Ok id
                   ∧ truthy id = true)
            ∨ ∃ description,
                outcome (uploadFile JSON_parse env name)
                = Throw (NodeOperationError NO_FILE_ID description))
       ∧ (∀ text msg, upload_answer env = RawOk (Buffer text) →
            JSON_parse text = inr msg →
            ∃ description,
              outcome (uploadFile JSON_parse env name)
              = Throw (NodeOperationError NO_FILE_ID description))
       ∧ (∀ text fields, JSON_parse text = inl (VObj fields) →
            outcome (uploadFile JSON_parse
                       (with_upload env (RawOk (Buffer text))) name)
            = outcome (uploadFile JSON_parse
                         (with_upload env (RawOk (Structured (VObj fields)))) name))).
Proof.
  split; [|split].
  - intros e He. unfold uploadFile. by rewrite He.
  - intros data e Hdata He. unfold uploadFile. by rewrite Hdata, He.
  - intros data buffer Hdata Hbuffer. split; [|split; [|split]].
    + unfold uploadFile. rewrite Hdata, Hbuffer.
      cbn -[createMultipartPayload]. eexists.
      destruct (upload_answer env) as [response|e];
        [|split; reflexivity].
      match goal with
      | |- context [truthy ?id] => destruct (truthy id)
      end; split; reflexivity.
    + intros response Hanswer. unfold uploadFile.
      rewrite Hdata, Hbuffer, Hanswer. cbn -[createMultipartPayload].
      match goal with
      | |- context [truthy ?id] => destruct (truthy id) eqn:Hid
      end; cbn -[createMultipartPayload]; [left | right]; eauto.
    + intros text msg Hanswer Hparse. unfold uploadFile.
      rewrite Hdata, Hbuffer, Hanswer. unfold parse_or_null. rewrite Hparse.
      cbn -[createMultipartPayload]. eauto.
    + intros text fields Hparse. unfold uploadFile, with_upload.
      cbn [assertBinaryData getBinaryDataBuffer upload_answer].
      rewrite Hdata, Hbuffer. unfold parse_or_null. rewrite Hparse.
      reflexivity.
Qed.
End Upload.

Lemma uploadFile_behaviour_witness :
  outcome (uploadFile Reader.parse
             (with_upload upload_env (RawOk (Buffer upload_text))) "data")
  = Ok (VStr "f1").
Proof.
  destruct (uploadFile_behaviour Reader.parse upload_env "data")
    as (_ & _ & Hrun).
  destruct (Hrun {| fileName := None; fileExtension := Some "mp3"; mimeType := None |}
              "RIFF" eq_refl eq_refl) as (_ & _ & _ & Hsame).
  rewrite (Hsame upload_text [("id", VStr "f1")] eq_refl). reflexivity.
Defined.

(** ** The trace of polling *)

Lemma trace_pair {A} (t : list Event) (r : Res A) : trace (t, r) = t.
Proof. reflexivity. Qed.

Lemma poll_loop_rounds_trace env options (n fuel start : nat) :
  (∀ i, (i < n)%nat → goes_round env options (start + i)) →
  trace (poll_loop env options (deadline env options) (poll_delay options)
           (n + fuel) start)
  = rounds n options
    ++ trace (poll_loop env options (deadline env options) (poll_delay options)
                fuel (start + n)).
Proof.
  revert start. induction n as [|n IH]; intros start Hround.
  - by rewrite Nat.add_0_r.
  - destruct (Hround 0%nat ltac:(lia)) as ((resp & Hanswer & Hterm) & Hclock & Hsleep).
    rewrite Nat.add_0_r in Hanswer, Hclock, Hsleep.
    cbn [Nat.add poll_loop rounds].
    rewrite trace_bind, Hanswer, sonioxApiRequest_ok, trace_pair, outcome_pair.
    unfold terminal in Hterm. apply orb_false_elim in Hterm as [-> ->].
    destruct (clock_at env start >? deadline env options) eqn:E; [lia|].
    rewrite trace_bind. unfold sleepWithAbort at 1 2. rewrite Hsleep.
    cbn [bind emit ret trace outcome fst snd app]. rewrite IH.
    + replace (start + S n)%nat with (S start + n)%nat by lia. reflexivity.
    + intros i Hi. replace (S start + i)%nat with (start + S i)%nat by lia.
      apply Hround. lia.
Qed.

Lemma poll_delay_min (options : PollOptions) : 1000 <= poll_delay options.
Proof. unfold poll_delay. lia. Qed.

(** X6. The requests of a poll. When [n] iterations go round and the next
    one ends the loop, polling issues [n] times a status request followed by
    a sleep of the poll delay, which is never under one second, then one
    more status request; the transcript is requested after that exactly
    when the status was ["completed"], and a last sleep is started only to
    be cancelled. *)
Theorem poll_trace (env : Env) (options : PollOptions) (n fuel : nat) :
  (∀ i, (i < n)%nat → goes_round env options i) →
  stops env options n →
  (n < fuel)%nat →
  trace (pollForCompletion env fuel options)
  = rounds n options ++ status_request options :: poll_tail env options n
  ∧ 1000 <= poll_delay options.
Proof.
  intros Hrounds Hstop Hfuel. split; [|apply poll_delay_min].
  unfold pollForCompletion. rewrite trace_bind.
  fold (deadline env options). fold (poll_delay options).
  replace fuel with (n + S (fuel - S n))%nat by lia.
  rewrite (poll_loop_rounds_trace env options n _ 0%nat Hrounds).
  rewrite (poll_loop_rounds env options n _ 0%nat Hrounds).
  cbn [Nat.add]. rewrite <- app_assoc. f_equal.
  unfold stops in Hstop. unfold poll_tail.
  cbn [poll_loop]. rewrite trace_bind, outcome_bind.
  destruct (status_answer env n) as [resp|e].
  - rewrite sonioxApiRequest_ok, trace_pair, outcome_pair.
    unfold terminal in Hstop.
    destruct (is_string (get_opt resp "status") STATUS_COMPLETED).
    { cbn [ret trace outcome fst snd app]. rewrite trace_bind.
      by destruct (transcript_answer env). }
    destruct (is_string (get_opt resp "status") STATUS_ERROR); [done|].
    destruct (clock_at env n >? deadline env options) eqn:E; [done|].
    destruct Hstop as [?|[?|Habort]]; [done|lia|].
    rewrite trace_bind, outcome_bind. unfold sleepWithAbort. by rewrite Habort.
  - by rewrite sonioxApiRequest_fail.
Qed.

Lemma poll_trace_witness :
  trace (pollForCompletion
           (sample_env (fun i => with_status (if (i <? 1)%nat then "queued" else "error"))
              ticking (HttpOk VUndefined))
           5 (sample_options 10))
  = [status_request (sample_options 10); Sleep 1000;
     status_request (sample_options 10)].
Proof.
  destruct (poll_trace
              (sample_env (fun i => with_status (if (i <? 1)%nat then "queued" else "error"))
                 ticking (HttpOk VUndefined))
              (sample_options 10) 1 5) as [Htrace _].
  - intros i Hi. assert (i = 0%nat) as -> by lia. split; [|split].
    + eexists. split; reflexivity.
    + unfold ticking, deadline. cbn. lia.
    + reflexivity.
  - left. reflexivity.
  - lia.
  - exact Htrace.
Defined.

(** X7. What ends a poll early. After iterations that go round, a status
    request that fails makes the poll throw the error of that call, and a
    cancelled sleep makes it throw the cancellation. *)
Theorem poll_stops_early (env : Env) (options : PollOptions) (n fuel : nat) :
  (∀ i, (i < n)%nat → goes_round env options i) →
  (n < fuel)%nat →
  (∀ e, status_answer env n = HttpFail e →
        outcome (pollForCompletion env fuel options)
        = Throw (sonioxApiRequest_error e))
  ∧ (pending env n → clock_at env n <= deadline env options →
     sleep_aborted env n = true →
     outcome (pollForCompletion env fuel options) = Throw ExecutionCancelled).
Proof.
  intros Hrounds Hfuel. rewrite pollForCompletion_outcome.
  replace fuel with (n + S (fuel - S n))%nat by lia.
  rewrite (poll_loop_rounds env options n _ 0%nat Hrounds). cbn [Nat.add].
  split.
  - intros e He. cbn [poll_loop]. by rewrite outcome_bind, He, sonioxApiRequest_fail.
  - intros (resp & Hanswer & Hterm) Hclock Habort.
    rewrite (poll_loop_answered _ _ _ _ _ Hanswer).
    unfold terminal in Hterm. apply orb_false_elim in Hterm as [-> ->].
    destruct (clock_at env n >? deadline env options) eqn:E; [lia|].
    by rewrite Habort.
Qed.

Lemma poll_stops_early_witness :
  outcome (pollForCompletion
             (sample_env (fun i => if (i <? 1)%nat then with_status "queued"
                                   else HttpFail plain_error)
                ticking (HttpOk VUndefined))
             5 (sample_options 10))
  = Throw (NodeOperationError "Soniox API error" None).
Proof.
  destruct (poll_stops_early
              (sample_env (fun i => if (i <? 1)%nat then with_status "queued"
                                    else HttpFail plain_error)
                 ticking (HttpOk VUndefined))
              (sample_options 10) 1 5) as [Hfail _].
  - intros i Hi. assert (i = 0%nat) as -> by lia. split; [|split].
    + eexists. split; reflexivity.
    + unfold ticking, deadline. cbn. lia.
    + reflexivity.
  - lia.
  - rewrite (Hfail plain_error eq_refl). reflexivity.
Defined.

(** X8. Polling is bounded. If the clock shows at least one poll delay more
    in each iteration, fuel for max-wait / interval + 2 status checks (both
    taken as at least 1) is enough for the poll to end. *)
Theorem poll_ends_in_time (env : Env) (options : PollOptions) :
  clock_advances env options →
  outcome (pollForCompletion env (enough_fuel options) options) ≠ OutOfFuel.
Proof.
  intros Hclock. unfold clock_advances, poll_delay in Hclock.
  pose proof (poll_loop_bounded env options (enough_fuel options) 0) as Hend.
  cbv zeta in Hend. rewrite pollForCompletion_outcome.
  assert (Hq : 0 <= Z.max 1 (opt_maxWaitSec options)
                    / Z.max 1 (opt_pollIntervalSec options))
    by (apply Z.div_pos; lia).
  assert (Hdiv : (deadline env options - poll_start env)
                 / (Z.max 1 (opt_pollIntervalSec options) * 1000)
                 = Z.max 1 (opt_maxWaitSec options)
                   / Z.max 1 (opt_pollIntervalSec options)).
  { unfold deadline.
    replace (poll_start env + Z.max 1 (opt_maxWaitSec options) * 1000
             - poll_start env)
      with (Z.max 1 (opt_maxWaitSec options) * 1000) by lia.
    apply Z.div_mul_cancel_r; lia. }
  pose proof (Z.mul_succ_div_gt (deadline env options - poll_start env)
                (Z.max 1 (opt_pollIntervalSec options) * 1000) ltac:(lia)) as Hgt.
  rewrite Hdiv in Hgt.
  destruct (outcome (poll_loop _ _ _ _ _ _)) eqn:E; [|done|].
  - by destruct (transcript_answer env).
  - exfalso. apply Hend; [exact Hclock| |unfold enough_fuel; lia|reflexivity].
    unfold enough_fuel. rewrite Z2Nat.id by lia. nia.
Qed.

Lemma poll_ends_in_time_witness :
  clock_advances
    (sample_env (fun _ => with_status "processing") ticking (HttpOk VUndefined))
    (sample_options 2)
  ∧ enough_fuel (sample_options 2) = 4%nat
  ∧ outcome (pollForCompletion
               (sample_env (fun _ => with_status "processing") ticking
                  (HttpOk VUndefined))
               4 (sample_options 2)) ≠ OutOfFuel.
Proof.
  assert (Hclock : clock_advances
            (sample_env (fun _ => with_status "processing") ticking
               (HttpOk VUndefined))
            (sample_options 2)).
  { intros j. unfold ticking, poll_delay. cbn. lia. }
  split; [exact Hclock|]. split; [reflexivity|].
  exact (poll_ends_in_time _ _ Hclock).
Defined.

(** ** Reading operations *)

Lemma reads_only_app (t1 t2 : list Event) :
  reads_only t1 → reads_only t2 → reads_only (t1 ++ t2).
Proof. apply Forall_app_2. Qed.

Lemma reads_only_get answer url :
  reads_only (trace (sonioxApiRequest answer "GET" url NoBody)).
Proof. destruct answer; by repeat constructor. Qed.

Lemma reads_only_poll_loop env options timeoutAt pollDelay fuel i :
  reads_only (trace (poll_loop env options timeoutAt pollDelay fuel i)).
Proof.
  revert i. induction fuel as [|fuel IH]; intros i; [constructor|].
  cbn [poll_loop]. rewrite trace_bind.
  apply reads_only_app; [apply reads_only_get|].
  destruct (outcome _) as [resp| |]; [|constructor|constructor].
  destruct (is_string _ STATUS_COMPLETED); [constructor|].
  destruct (is_string _ STATUS_ERROR); [constructor|].
  destruct (_ >? _); [constructor|].
  rewrite trace_bind. apply reads_only_app.
  - unfold sleepWithAbort. destruct (sleep_aborted env i); by repeat constructor.
  - destruct (outcome _); [apply IH|constructor|constructor].
Qed.

Lemma reads_only_pollForCompletion env fuel options :
  reads_only (trace (pollForCompletion env fuel options)).
Proof.
  unfold pollForCompletion. rewrite trace_bind.
  apply reads_only_app; [apply reads_only_poll_loop|].
  destruct (outcome _); [|constructor|constructor].
  rewrite trace_bind. apply reads_only_app; [apply reads_only_get|].
  destruct (outcome _); constructor.
Qed.

(** ** Deleting *)

(** X9. The two deletions are independent. Each identifier that is truthy
    is deleted by one request, the file also when deleting the
    transcription failed; nothing is thrown; an identifier is listed under
    [deleted] exactly when its request succeeded, and every failure gives
    one warning. *)
Theorem deletions_independent (env : Env) (transcriptionId fileId : JsVal) :
  trace (deleteResources env transcriptionId fileId)
  = (if truthy transcriptionId
     then [delete_transcription_request transcriptionId] else [])
    ++ (if truthy fileId then [delete_file_request fileId] else [])
  ∧ ∃ result,
      outcome (deleteResources env transcriptionId fileId) = Ok result
      ∧ own "transcription" (deleted result)
        = (if truthy transcriptionId && answered (delete_transcription_answer env)
           then Some transcriptionId else None)
      ∧ own "file" (deleted result)
        = (if truthy fileId && answered (delete_file_answer env)
           then Some fileId else None)
      ∧ length (warnings result) = failed_deletions env transcriptionId fileId
      ∧ Forall (fun w => String.prefix "Failed to delete " w = true)
          (warnings result).
Proof.
  unfold deleteResources, failed_deletions, tryDeleteResource.
  destruct (truthy transcriptionId), (delete_transcription_answer env),
    (truthy fileId), (delete_file_answer env); cbn;
    (split; [reflexivity|]); eexists; (split; [reflexivity|]);
    repeat split; repeat constructor.
Qed.

(** X10. The [delete] operation. A blank transcription id is refused
    before any request. Otherwise the operation asks for the details and
    then deletes the transcription, and the file named in the details, also
    when the details do not come; it does not throw, and reports success
    exactly when no deletion failed. *)
Theorem delete_operation (env : Env) (cfg : Config) :
  (isNonEmptyString (deleteTranscriptionId cfg) = false →
   trace (delete env cfg) = []
   ∧ ∃ description,
       outcome (delete env cfg)
       = Throw (NodeOperationError "Transcription ID is required" description))
  ∧ (isNonEmptyString (deleteTranscriptionId cfg) = true →
     trace (delete env cfg)
     = details_request cfg
       :: trace (deleteResources env (deleteTranscriptionId cfg)
                   (file_of_details env))
     ∧ ∃ result,
         outcome (deleteResources env (deleteTranscriptionId cfg)
                    (file_of_details env)) = Ok result
         ∧ outcome (delete env cfg)
           = Ok (VObj [("success",
                        VBool (Nat.eqb (failed_deletions env
                                          (deleteTranscriptionId cfg)
                                          (file_of_details env)) 0));
                       ("deleted", VObj (deleted result));
                       ("warnings", match warnings result with
                                    | [] => VUndefined
                                    | ws => VArr (map VStr ws)
                                    end)])).
Proof.
  split; intros Hid; unfold delete; rewrite Hid; cbn [negb].
  { split; [reflexivity | eauto]. }
  destruct (deletions_independent env (deleteTranscriptionId cfg)
              (file_of_details env)) as (_ & result & Hrun & _ & _ & Hcount & _).
  rewrite trace_bind, outcome_bind, trace_try_catch, outcome_try_catch.
  rewrite trace_bind, outcome_bind. unfold file_of_details in *.
  destruct (details_answer env) as [details|e].
  - rewrite sonioxApiRequest_ok, trace_pair, outcome_pair.
    cbn [ret trace outcome fst snd app].
    rewrite trace_bind, outcome_bind, Hrun. cbn [ret trace outcome fst snd].
    rewrite app_nil_r, <- Hcount. split; [reflexivity | eauto].
  - rewrite sonioxApiRequest_fail, trace_pair, outcome_pair.
    cbn [ret trace outcome fst snd app isNonEmptyString].
    cbn [isNonEmptyString] in Hrun.
    rewrite trace_bind, outcome_bind, Hrun. cbn [ret trace outcome fst snd].
    rewrite app_nil_r, <- Hcount. split; [reflexivity | eauto].
Qed.

Lemma delete_operation_witness :
  outcome (delete
             (sample_env (fun _ => with_status "completed") ticking
                (HttpFail plain_error))
             (sample_cfg sample_url VUndefined 2))
  = Throw (NodeOperationError "Transcription ID is required"
             (Some "Provide the ID of the transcription you want to delete.")).
Proof.
  destruct (delete_operation
              (sample_env (fun _ => with_status "completed") ticking
                 (HttpFail plain_error))
              (sample_cfg sample_url VUndefined 2)) as [Hblank _].
  destruct (Hblank eq_refl) as (_ & description & Hrun).
  rewrite Hrun. vm_compute in Hrun. by injection Hrun as <-.
Defined.

(** ** What computations return and issue *)

Lemma returns_bind {A B} (m : M A) (k : A → M B) (Q : B → Prop) :
  (∀ a, outcome m = Ok a → returns (k a) Q) → returns (bind m k) Q.
Proof.
  unfold returns. intros Hk b. rewrite outcome_bind.
  destruct (outcome m) as [a| |]; [|done|done]. by apply Hk.
Qed.

Lemma returns_ret {A} (a : A) (Q : A → Prop) : Q a → returns (ret a) Q.
Proof. unfold returns. by intros Ha b [= <-]. Qed.

Lemma returns_throw {A} (e : Error) (Q : A → Prop) : returns (throw e) Q.
Proof. by intros a. Qed.

Lemma issues_bind {A B} (m : M A) (k : A → M B) (P : Event → Prop) :
  issues m P → (∀ a, outcome m = Ok a → issues (k a) P) → issues (bind m k) P.
Proof.
  unfold issues. intros Hm Hk. rewrite trace_bind. apply Forall_app_2; [done|].
  destruct (outcome m) as [a| |]; [by apply Hk | constructor | constructor].
Qed.

Lemma issues_try_catch {A} (m : M A) (handler : Error → M A) (P : Event → Prop) :
  issues m P → (∀ e, issues (handler e) P) → issues (try_catch m handler) P.
Proof.
  unfold issues. intros Hm Hh. rewrite trace_try_catch.
  apply Forall_app_2; [done|].
  destruct (outcome m); [constructor | apply Hh | constructor].
Qed.

Lemma M_eq {A} (m : M A) (t : list Event) (r : Res A) :
  trace m = t → outcome m = r → m = (t, r).
Proof. destruct m. unfold trace, outcome. simpl. by intros -> ->. Qed.

Lemma issues_nothing {A} (m : M A) (P : Event → Prop) :
  trace m = [] → issues m P.
Proof. unfold issues. intros ->. constructor. Qed.

Lemma issues_weaken {A} (m : M A) (P Q : Event → Prop) :
  (∀ ev, P ev → Q ev) → issues m P → issues m Q.
Proof. unfold issues. intros H Hm. by eapply Forall_impl. Qed.

(** ** Fetching results *)

(** X11. [getResults] only reads: it issues nothing but GET requests and
    sleeps. A blank transcription id is refused before any request. Without
    waiting it asks for the status once, and for the transcript only when
    the status is ["completed"]; a job still under way gives the status
    response, redacted. *)
Theorem getResults_reads (env : Env) (fuel : nat) (cfg : Config) :
  reads_only (trace (getResults env fuel cfg))
  ∧ (isNonEmptyString (transcriptionId cfg) = false →
     trace (getResults env fuel cfg) = []
     ∧ ∃ description,
         outcome (getResults env fuel cfg)
         = Throw (NodeOperationError "Transcription ID is required" description))
  ∧ (isNonEmptyString (transcriptionId cfg) = true →
     waitForCompletion cfg = false →
     ∀ statusResponse, status_answer env 0 = HttpOk statusResponse →
       (terminal statusResponse = false →
        getResults env fuel cfg
        = ([results_request cfg],
           Ok (redactWebhookAuthHeaderValue statusResponse)))
       ∧ (is_string (get_opt statusResponse "status") STATUS_ERROR = true →
          getResults env fuel cfg
          = ([results_request cfg],
             Throw (job_failed statusResponse JOB_FAILED_WAS)))
       ∧ (is_string (get_opt statusResponse "status") STATUS_COMPLETED = true →
          ∃ transcript_call,
            trace (getResults env fuel cfg)
            = [results_request cfg; transcript_call]
            ∧ ∀ transcript, transcript_answer env = HttpOk transcript →
                outcome (getResults env fuel cfg)
                = Ok (shape_output (outputMode cfg) transcript))).
Proof.
  split; [|split].
  - unfold getResults. destruct (negb (isNonEmptyString _)); [constructor|].
    destruct (negb (waitForCompletion cfg)).
    + rewrite trace_bind. apply reads_only_app; [apply reads_only_get|].
      destruct (outcome _) as [resp| |]; [|constructor|constructor].
      destruct (is_string _ STATUS_COMPLETED).
      { rewrite trace_bind. apply reads_only_app; [apply reads_only_get|].
        destruct (outcome _); constructor. }
      destruct (is_string _ STATUS_ERROR); constructor.
    + rewrite trace_bind. apply reads_only_app; [apply reads_only_pollForCompletion|].
      destruct (outcome _); constructor.
  - intros Hid. unfold getResults. rewrite Hid. split; [reflexivity | eauto].
  - intros Hid Hwait resp Hanswer. unfold getResults, terminal.
    rewrite Hid, Hwait, Hanswer. cbn [negb]. split; [|split].
    + intros [Hdone Herr]%orb_false_elim. apply M_eq.
      * rewrite trace_bind, sonioxApiRequest_ok, trace_pair, outcome_pair.
        by rewrite Hdone, Herr.
      * rewrite outcome_bind, sonioxApiRequest_ok, outcome_pair.
        by rewrite Hdone, Herr.
    + intros Herr.
      assert (Hdone : is_string (get_opt resp "status") STATUS_COMPLETED = false).
      { destruct (get_opt resp "status"); try done. simpl in *.
        apply String.eqb_eq in Herr. by subst. }
      apply M_eq.
      * rewrite trace_bind, sonioxApiRequest_ok, trace_pair, outcome_pair.
        by rewrite Hdone, Herr.
      * rewrite outcome_bind, sonioxApiRequest_ok, outcome_pair.
        by rewrite Hdone, Herr.
    + intros Hdone. eexists. split.
      * rewrite trace_bind, sonioxApiRequest_ok, trace_pair, outcome_pair.
        rewrite Hdone, trace_bind.
        by destruct (transcript_answer env).
      * intros transcript Ht.
        rewrite outcome_bind, sonioxApiRequest_ok, outcome_pair, Hdone.
        by rewrite outcome_bind, Ht, sonioxApiRequest_ok, outcome_pair.
Qed.

Lemma getResults_reads_witness :
  getResults (sample_env (fun _ => with_status "processing") ticking (HttpOk VUndefined))
    0 {| resource := "transcription"; operation := "getResults";
         audioSource := "binary"; model := VStr ""; binaryPropertyName := "data";
         audioUrl := VStr ""; fileId := VStr ""; languageHints := VObj [];
         languageHintsStrict := false; enableLanguageIdentification := false;
         enableSpeakerDiarization := false; contextMode := "text";
         contextText := VStr ""; contextJson := VUndefined;
         clientReferenceId := VStr ""; webhookUrl := VStr "";
         webhookAuthHeaderName := VStr ""; webhookAuthHeaderValue := VStr "";
         translationType := "none"; targetLanguage := VStr "";
         languageA := VStr ""; languageB := VStr "";
         waitForCompletion := false; pollIntervalSec := 1; maxWaitSec := 180;
         outputMode := "full"; autoDelete := true;
         transcriptionId := VStr "t1"; deleteTranscriptionId := VStr "" |}
  = ([Call {| req_method := "GET"; req_url := "/v1/transcriptions/t1";
              req_body := NoBody |}],
     Ok (VObj [("id", VStr "t1"); ("status", VStr "processing")])).
Proof.
  match goal with
  | |- getResults ?env ?fuel ?cfg = _ =>
      destruct (getResults_reads env fuel cfg) as (_ & _ & Hnowait)
  end.
  destruct (Hnowait eq_refl eq_refl
              (VObj [("id", VStr "t1"); ("status", VStr "processing")]) eq_refl)
    as (Hpending & _).
  exact (Hpending eq_refl).
Defined.

(** X12. Fetching the results of a job with waiting gives what [create]
    gives when it waits for the same job without auto-delete, and issues
    the same requests. *)
Theorem getResults_as_waiting (env : Env) (fuel : nat) (cfg : Config)
    (fileId' : JsVal) :
  isNonEmptyString (transcriptionId cfg) = true →
  waitForCompletion cfg = true →
  autoDelete cfg = false →
  getResults env fuel cfg
  = wait_and_clean env fuel cfg fileId' (transcriptionId cfg).
Proof.
  intros Hid Hwait Hauto. unfold getResults, wait_and_clean.
  rewrite Hid, Hwait, Hauto. cbn [negb].
  destruct (pollForCompletion env fuel _) as [t [result|e|]]; cbn;
    by rewrite ?app_nil_r.
Qed.

(** ** The body of the create call *)

Lemma own_None_keys {V} (k : string) (fields : list (string * V)) :
  own k fields = None → k ∉ map fst fields.
Proof.
  induction fields as [|[k' v] rest IH]; simpl; [intros _; apply not_elem_of_nil|].
  destruct (String.eqb k k') eqn:E; [done|]. intros Hrest.
  apply not_elem_of_cons. split; [|by apply IH].
  intros ->. by rewrite String.eqb_refl in E.
Qed.

Lemma assign_keys_new {V} (k : string) (v : V) (fields : list (string * V)) :
  own k fields = None → map fst (assign k v fields) = map fst fields ++ [k].
Proof.
  induction fields as [|[k' v'] rest IH]; simpl; [done|].
  destruct (String.eqb k k'); [done|]. intros H. simpl. by rewrite IH.
Qed.

Lemma assign_well_formed (k : string) (v : JsVal) fields :
  truthy v = true → well_formed fields → well_formed (assign k v fields).
Proof.
  intros Hv [Hkeys Hvalues]. split.
  - destruct (own k fields) eqn:Hk.
    + rewrite assign_keys; [done|]. unfold hasOwnProperty. by rewrite Hk.
    + rewrite (assign_keys_new _ _ _ Hk). apply NoDup_app.
      split; [done|]. split; [|apply NoDup_singleton].
      intros k' Hin ->%list_elem_of_singleton.
      by apply (own_None_keys _ _ Hk).
  - clear Hkeys. induction Hvalues as [|[k' v'] rest Hv' Hrest IH]; simpl.
    + by repeat constructor.
    + destruct (String.eqb k k'); constructor; auto.
Qed.

Lemma set_if_well_formed (cond : bool) (k : string) (v : JsVal) fields :
  (cond = true → truthy v = true) →
  well_formed fields → well_formed (set_if cond k v fields).
Proof.
  intros Hv Hwf. unfold set_if. destruct cond; [|done].
  by apply assign_well_formed; [apply Hv|].
Qed.

Lemma assemble_body_well_formed cfg a f hints context :
  isNonEmptyString (model cfg) = true →
  well_formed (assemble_body cfg a f hints context).
Proof.
  intros Hmodel. unfold assemble_body.
  do 4 (apply set_if_well_formed; [apply isNonEmptyString_truthy|]).
  assert (Hbase : well_formed
            (set_if (enableSpeakerDiarization cfg) "enable_speaker_diarization"
               (VBool true)
               (set_if (enableLanguageIdentification cfg)
                  "enable_language_identification" (VBool true)
                  (set_if (languageHintsStrict cfg) "language_hints_strict"
                     (VBool true)
                     (set_if (negb (Nat.eqb (length hints) 0)) "language_hints"
                        (VArr hints)
                        (set_if (truthy f) "file_id" f
                           (set_if (truthy a) "audio_url" a
                              [("model", model cfg)]))))))).
  { do 6 (apply set_if_well_formed; [done|]).
    split; [apply NoDup_singleton|].
    repeat constructor. by apply isNonEmptyString_truthy. }
  destruct context; apply set_if_well_formed; try done;
    try (by intros [H _]%andb_true_iff).
  apply isNonEmptyString_truthy.
Qed.

Lemma assemble_body_model cfg a f hints context :
  own "model" (assemble_body cfg a f hints context) = Some (model cfg).
Proof.
  unfold assemble_body. rewrite !own_set_if_ne by done.
  destruct context; by rewrite !own_set_if_ne by done.
Qed.

Lemma assemble_body_translation cfg a f hints context :
  own "translation" (assemble_body cfg a f hints context) = None.
Proof.
  unfold assemble_body. rewrite !own_set_if_ne by done.
  destruct context; by rewrite !own_set_if_ne by done.
Qed.

Lemma translation_result cfg body :
  if translation_refused cfg
  then ∃ e, outcome (translation cfg body) = Throw e
  else outcome (translation cfg body)
       = Ok match translation_of cfg with
            | Some settings => assign "translation" settings body
            | None => body
            end.
Proof.
  unfold translation, translation_refused, translation_of.
  destruct (String.eqb (translationType cfg) "one_way") eqn:Hone.
  { apply String.eqb_eq in Hone. rewrite Hone. cbn.
    destruct (isNonEmptyString (targetLanguage cfg)); cbn; eauto. }
  destruct (String.eqb (translationType cfg) "two_way"); [|done].
  destruct (isNonEmptyString (languageA cfg)), (isNonEmptyString (languageB cfg));
    cbn; eauto.
Qed.

Section CreateBody.
Variable JSON_parse : string → JsVal + string.

Lemma read_context_sent cfg context :
  outcome (read_context JSON_parse cfg) = Ok context →
  match context with
  | VStr _ => if isNonEmptyString context then Some context else None
  | _ => if truthy context && has_keys context then Some context else None
  end = context_of JSON_parse cfg.
Proof.
  unfold read_context, context_of.
  destruct (String.eqb (contextMode cfg) "text").
  { destruct (isNonEmptyString (contextText cfg)) eqn:Htext; intros [= <-]; [|done].
    destruct (contextText cfg); try done. by rewrite Htext. }
  destruct (String.eqb (contextMode cfg) "structured"); [|by intros [= <-]].
  rewrite outcome_try_catch, outcome_lift.
  destruct (parseStructuredContext_cases JSON_parse (contextJson cfg))
    as [(e & ->)|[->|(k & v & fields & ->)]]; [done| |]; by intros [= <-].
Qed.

(** X13. What the create call carries. Its body has each key once and no
    falsy value, so an option that is off or empty is left out rather than
    sent empty. It names the model. Its [context] is the context text as
    entered when that is not blank, or the object that the structured
    context is or parses to when that has keys, and is absent otherwise.
    Its [translation] is the settings of the direction asked for, and is
    absent when none is. *)
Theorem create_body (env : Env) (fuel : nat) (cfg : Config)
    (body : list (string * JsVal)) :
  JsonBody body ∈ create_calls (trace (create JSON_parse env fuel cfg)) →
  well_formed body
  ∧ own "model" body = Some (model cfg)
  ∧ own "context" body = context_of JSON_parse cfg
  ∧ own "translation" body = translation_of cfg.
Proof.
  intros Hin.
  destruct (create_cases JSON_parse env fuel cfg)
    as [[Hquiet _]|(a & f & hints & context & body' & Hmodel & _ & _ & Hctx & Hbody & Hcalls)].
  { unfold quiet in Hquiet. rewrite Hquiet in Hin. by apply elem_of_nil in Hin. }
  rewrite Hcalls in Hin. apply list_elem_of_singleton in Hin as [= ->].
  pose proof (translation_result cfg (assemble_body cfg a f hints context))
    as Hresult.
  destruct (translation_refused cfg);
    [destruct Hresult as (e & He); congruence|].
  rewrite Hresult in Hbody. injection Hbody as <-.
  pose proof (assemble_body_well_formed cfg a f hints context Hmodel) as Hwf.
  unfold translation_of in *.
  destruct (String.eqb (translationType cfg) "one_way");
    [|destruct (String.eqb (translationType cfg) "two_way")].
  - split; [by apply assign_well_formed|].
    rewrite !own_assign_ne by done. rewrite own_assign_eq.
    by rewrite assemble_body_model, assemble_body_context, (read_context_sent _ _ Hctx).
  - split; [by apply assign_well_formed|].
    rewrite !own_assign_ne by done. rewrite own_assign_eq.
    by rewrite assemble_body_model, assemble_body_context, (read_context_sent _ _ Hctx).
  - split; [done|].
    by rewrite assemble_body_model, assemble_body_context,
      (read_context_sent _ _ Hctx), assemble_body_translation.
Qed.

(** X14. A direction of translation without its language is refused: the
    run issues no create call. *)
Theorem translation_checked (env : Env) (fuel : nat) (cfg : Config) :
  translation_refused cfg = true →
  create_calls (trace (create JSON_parse env fuel cfg)) = []
  ∧ ∃ e, outcome (create JSON_parse env fuel cfg) = Throw e.
Proof.
  intros Hrefused.
  destruct (create_cases JSON_parse env fuel cfg)
    as [[Hquiet Hthrow]|(a & f & hints & context & body' & _ & _ & _ & _ & Hbody & _)];
    [done|].
  pose proof (translation_result cfg (assemble_body cfg a f hints context))
    as Hresult.
  rewrite Hrefused in Hresult. destruct Hresult as (e & He). congruence.
Qed.
End CreateBody.

Lemma create_body_witness :
  ∃ body,
    JsonBody body
      ∈ create_calls (trace (create Reader.parse echo_env 5
                               (other_cfg "create" "two_way" (VStr "") false true)))
    ∧ own "context" body = Some (VStr " names: Ada ")
    ∧ own "translation" body
      = Some (VObj [("type", VStr "two_way"); ("language_a", VStr "en");
                    ("language_b", VStr "es")])
    ∧ own "language_hints" body = None.
Proof.
  exists [("model", VStr "stt-async-v3"); ("audio_url", sample_url);
          ("context", VStr " names: Ada ");
          ("webhook_url", VStr "https://example.com/hook");
          ("webhook_auth_header_name", VStr "X-Auth");
          ("webhook_auth_header_value", VStr "s3cret");
          ("translation", VObj [("type", VStr "two_way"); ("language_a", VStr "en");
                                ("language_b", VStr "es")])].
  assert (Hin : JsonBody
                  [("model", VStr "stt-async-v3"); ("audio_url", sample_url);
                   ("context", VStr " names: Ada ");
                   ("webhook_url", VStr "https://example.com/hook");
                   ("webhook_auth_header_name", VStr "X-Auth");
                   ("webhook_auth_header_value", VStr "s3cret");
                   ("translation", VObj [("type", VStr "two_way");
                                         ("language_a", VStr "en");
                                         ("language_b", VStr "es")])]
                ∈ create_calls
                    (trace (create Reader.parse echo_env 5
                              (other_cfg "create" "two_way" (VStr "") false true)))).
  { apply list_elem_of_singleton. reflexivity. }
  split; [exact Hin|].
  destruct (create_body Reader.parse _ _ _ _ Hin) as (_ & _ & Hcontext & Htranslation).
  rewrite Hcontext, Htranslation. repeat split; reflexivity.
Defined.

Lemma translation_checked_witness :
  translation_refused (other_cfg "create" "one_way" (VStr "") false true) = true
  ∧ trace (create Reader.parse echo_env 5
             (other_cfg "create" "one_way" (VStr "") false true)) = []
  ∧ create_calls
      (trace (create Reader.parse echo_env 5
                (other_cfg "create" "one_way" (VStr "") false true))) = [].
Proof.
  split; [reflexivity|]. split; [reflexivity|].
  by destruct (translation_checked Reader.parse echo_env 5
                 (other_cfg "create" "one_way" (VStr "") false true) eq_refl).
Defined.

Lemma getResults_as_waiting_witness :
  getResults echo_env 5 (other_cfg "getResults" "none" (VStr "t1") true false)
  = wait_and_clean echo_env 5 (other_cfg "getResults" "none" (VStr "t1") true false)
      (VStr "f9") (VStr "t1")
  ∧ outcome (getResults echo_env 5
               (other_cfg "getResults" "none" (VStr "t1") true false))
    = Ok (VObj [("text", VStr "hello"); (SECRET_KEY, VStr REDACTED)]).
Proof.
  split; [|reflexivity].
  exact (getResults_as_waiting echo_env 5
           (other_cfg "getResults" "none" (VStr "t1") true false)
           (VStr "f9") eq_refl eq_refl eq_refl).
Defined.

(** ** What create leaves on the server *)

Local Ltac silent := by (intros; apply issues_nothing).

Lemma reads_only_keeps (t : list Event) : reads_only t → Forall keeps t.
Proof.
  unfold reads_only. intros H. eapply Forall_impl; [exact H|].
  intros [r|ms] Hev; [|done]. unfold keeps. simpl in *. by rewrite Hev.
Qed.

Lemma request_keeps answer method url body :
  String.eqb method "DELETE" = false →
  issues (sonioxApiRequest answer method url body) keeps.
Proof.
  intros H. unfold issues. by destruct answer; repeat constructor.
Qed.

Lemma wait_and_clean_keeps env fuel cfg f id :
  autoDelete cfg = false → issues (wait_and_clean env fuel cfg f id) keeps.
Proof.
  intros Hauto. unfold wait_and_clean. rewrite Hauto.
  apply issues_bind.
  { apply issues_try_catch; [|silent].
    apply issues_bind;
      [apply reads_only_keeps, reads_only_pollForCompletion | silent]. }
  intros polled _. apply issues_bind; [silent|]. intros deleteWarnings _.
  destruct polled as [result|pollError]; [|silent].
  destruct deleteWarnings; silent.
Qed.

Section Resources.
Variable JSON_parse : string → JsVal + string.

Lemma uploadFile_keeps env name : issues (uploadFile JSON_parse env name) keeps.
Proof.
  unfold uploadFile, issues.
  destruct (assertBinaryData env name) as [e|binaryData]; cbn [host bind throw ret];
    [constructor|].
  destruct (getBinaryDataBuffer env name) as [e|buffer]; cbn [host bind throw ret];
    [constructor|].
  destruct (upload_answer env) as [response|e]; cbn -[createMultipartPayload].
  - match goal with
    | |- context [truthy ?id] => destruct (truthy id)
    end; cbn -[createMultipartPayload]; by repeat constructor.
  - by repeat constructor.
Qed.

Lemma audio_source_keeps env cfg : issues (audio_source JSON_parse env cfg) keeps.
Proof.
  unfold audio_source.
  destruct (String.eqb (audioSource cfg) "binary").
  { apply issues_bind; [apply uploadFile_keeps | silent]. }
  destruct (String.eqb (audioSource cfg) "url").
  { destruct (negb (isNonEmptyString (audioUrl cfg))); silent. }
  destruct (String.eqb (audioSource cfg) "fileId"); [|silent].
  destruct (negb (isNonEmptyString (fileId cfg))); silent.
Qed.

(** X15. [create] deletes nothing unless it waits with auto-delete on and
    the job was created: without waiting, without auto-delete, or when the
    create call fails, no DELETE request is issued, so a file uploaded for
    the job stays on the server. *)
Theorem create_keeps_resources (env : Env) (fuel : nat) (cfg : Config) :
  autoDelete cfg = false ∨ waitForCompletion cfg = false
  ∨ answered (create_answer env) = false →
  issues (create JSON_parse env fuel cfg) keeps.
Proof.
  intros H. unfold create.
  destruct (negb (isNonEmptyString (model cfg))); [silent|].
  apply issues_bind; [apply audio_source_keeps|]. intros [a f] _.
  cbv beta zeta. cbn [fst snd].
  destruct (truthy a && truthy f || negb (truthy a) && negb (truthy f)); [silent|].
  apply issues_bind; [silent|]. intros hints _.
  apply issues_bind; [apply issues_nothing, read_context_trace|]. intros context _.
  apply issues_bind; [apply issues_nothing, translation_trace|]. intros body _.
  apply issues_bind; [by apply request_keeps|]. intros response Hresponse.
  destruct (waitForCompletion cfg) eqn:Hwait; cbn [negb]; [|silent].
  apply issues_bind; [silent|]. intros id _.
  destruct (negb (truthy id)); [silent|].
  apply wait_and_clean_keeps. destruct H as [H|[H|H]]; [done|done|].
  by destruct (create_answer env).
Qed.

(** X16. With the audio in a binary property, the file is uploaded before
    the translation settings are checked: refused settings end the run
    after the upload, with nothing issued but the upload and so no create
    call and no deletion of the file. *)
Theorem upload_precedes_checks (env : Env) (fuel : nat) (cfg : Config) :
  isNonEmptyString (model cfg) = true →
  audioSource cfg = "binary" →
  translation_refused cfg = true →
  trace (create JSON_parse env fuel cfg)
  = trace (uploadFile JSON_parse env (binaryPropertyName cfg))
  ∧ ∃ e, outcome (create JSON_parse env fuel cfg) = Throw e.
Proof.
  intros Hmodel Hsource Hrefused. unfold create, audio_source.
  rewrite Hmodel.
  replace (String.eqb (audioSource cfg) "binary") with true by (by rewrite Hsource).
  cbn [negb].
  remember (uploadFile JSON_parse env (binaryPropertyName cfg)) as upload eqn:Hupload.
  destruct (uploadFile_cases JSON_parse env (binaryPropertyName cfg))
    as [_ [[e He]|(id & Hid & Htruthy)]]; rewrite <- Hupload in *.
  { rewrite !trace_bind, !outcome_bind, He. cbn [app fst snd].
    rewrite !app_nil_r. eauto. }
  assert (Hsource_outcome :
            outcome (let! id0 := upload in ret (VUndefined, id0))
            = Ok (VUndefined, id)) by (by rewrite outcome_bind, Hid).
  assert (Hsource_trace :
            trace (let! id0 := upload in ret (VUndefined, id0)) = trace upload).
  { rewrite trace_bind, Hid. apply app_nil_r. }
  set (source := let! id0 := upload in ret (VUndefined, id0)) in *.
  rewrite trace_bind, outcome_bind, Hsource_outcome, Hsource_trace.
  cbn [fst snd truthy]. rewrite Htruthy. cbn [negb andb orb].
  destruct (normalizeLanguageHints (languageHints cfg)) as [hints|e|] eqn:Hhints;
    [|rewrite trace_bind, outcome_bind, trace_lift, outcome_lift, app_nil_r; eauto
     |by destruct (normalizeLanguageHints_finishes (languageHints cfg))].
  rewrite trace_bind, outcome_bind, trace_lift, outcome_lift. cbn [app].
  rewrite trace_bind, outcome_bind, read_context_trace. cbn [app].
  destruct (outcome (read_context JSON_parse cfg)) as [context|e|] eqn:Hcontext;
    [|rewrite app_nil_r; eauto|by destruct (read_context_finishes JSON_parse cfg)].
  rewrite trace_bind, outcome_bind, translation_trace. cbn [app].
  pose proof (translation_result cfg
                (assemble_body cfg VUndefined id hints context)) as Hresult.
  rewrite Hrefused in Hresult. destruct Hresult as [e He].
  rewrite He, app_nil_r. eauto.
Qed.
End Resources.

Lemma create_keeps_resources_witness :
  Forall keeps
    (trace (create Reader.parse echo_env 5
              (other_cfg "create" "none" (VStr "") true false)))
  ∧ length (trace (create Reader.parse echo_env 5
                     (other_cfg "create" "none" (VStr "") true false))) = 3%nat.
Proof.
  split; [|reflexivity].
  exact (create_keeps_resources Reader.parse echo_env 5
           (other_cfg "create" "none" (VStr "") true false) (or_introl eq_refl)).
Defined.

Lemma upload_precedes_checks_witness :
  ∃ e, outcome (create Reader.parse
                  (with_upload upload_env (RawOk (Buffer upload_text))) 5
                  (from_binary (other_cfg "create" "one_way" (VStr "") true true)))
       = Throw e
       ∧ outcome (uploadFile Reader.parse
                    (with_upload upload_env (RawOk (Buffer upload_text))) "data")
         = Ok (VStr "f1")
       ∧ length (trace (create Reader.parse
                          (with_upload upload_env (RawOk (Buffer upload_text))) 5
                          (from_binary
                             (other_cfg "create" "one_way" (VStr "") true true))))
         = 1%nat.
Proof.
  destruct (upload_precedes_checks Reader.parse
              (with_upload upload_env (RawOk (Buffer upload_text))) 5
              (from_binary (other_cfg "create" "one_way" (VStr "") true true))
              eq_refl eq_refl eq_refl) as [Htrace [e He]].
  exists e. split; [exact He|]. split; [reflexivity|].
  rewrite Htrace. reflexivity.
Defined.


(** ** What an item gives back *)

Lemma redact_hides (v : JsVal) : hides_secret (redactWebhookAuthHeaderValue v).
Proof.
  intros fields. destruct v as [| | | | |items|fields0]; try done.
  unfold redactWebhookAuthHeaderValue, hasOwnProperty, spread_with.
  destruct (own SECRET_KEY fields0) eqn:Hown; intros [= <-].
  - right. apply own_assign_eq.
  - by left.
Qed.

Lemma shape_output_hides (outputMode : string) (transcript : JsVal) :
  hides_secret (shape_output outputMode transcript).
Proof.
  unfold shape_output. destruct (String.eqb outputMode "textOnly");
    [|apply redact_hides].
  intros fields [= <-]. by left.
Qed.

Lemma set_prop_hides (output : JsVal) (k : string) (v result : JsVal) :
  SECRET_KEY ≠ k → hides_secret output →
  set_prop output k v = Ok result → hides_secret result.
Proof.
  intros Hk Houtput. destruct output as [| | | | |items|fields0]; try done.
  - by intros [= <-] fields.
  - intros [= <-] fields [= <-]. rewrite own_assign_ne by done.
    by apply Houtput.
Qed.

Lemma wait_and_clean_hides env fuel cfg f id :
  returns (wait_and_clean env fuel cfg f id) hides_secret.
Proof.
  unfold wait_and_clean. apply returns_bind. intros polled _.
  apply returns_bind. intros deleteWarnings _.
  destruct polled as [result|pollError]; [|apply returns_throw].
  destruct deleteWarnings as [|w ws]; [apply returns_ret, shape_output_hides|].
  intros output Houtput.
  by eapply set_prop_hides; [|apply shape_output_hides|exact Houtput].
Qed.

Lemma delete_hides env cfg : returns (delete env cfg) hides_secret.
Proof.
  unfold delete. destruct (negb _); [apply returns_throw|].
  apply returns_bind. intros fileIdToDelete _.
  apply returns_bind. intros deleteResult _.
  apply returns_ret. intros fields [= <-]. by left.
Qed.

Lemma getResults_hides env fuel cfg : returns (getResults env fuel cfg) hides_secret.
Proof.
  unfold getResults. destruct (negb (isNonEmptyString _)); [apply returns_throw|].
  destruct (negb (waitForCompletion cfg)).
  - apply returns_bind. intros statusResponse _.
    destruct (is_string _ STATUS_COMPLETED).
    { apply returns_bind. intros transcript _.
      apply returns_ret, shape_output_hides. }
    destruct (is_string _ STATUS_ERROR);
      [apply returns_throw | apply returns_ret, redact_hides].
  - apply returns_bind. intros result _. apply returns_ret, shape_output_hides.
Qed.

Section Outputs.
Variable JSON_parse : string → JsVal + string.

Lemma create_hides env fuel cfg :
  returns (create JSON_parse env fuel cfg) hides_secret.
Proof.
  unfold create. destruct (negb (isNonEmptyString _)); [apply returns_throw|].
  apply returns_bind. intros [a f] _. cbv beta zeta. cbn [fst snd].
  destruct (truthy a && truthy f || negb (truthy a) && negb (truthy f));
    [apply returns_throw|].
  apply returns_bind. intros hints _.
  apply returns_bind. intros context _.
  apply returns_bind. intros body _.
  apply returns_bind. intros response _.
  destruct (negb (waitForCompletion cfg)); [apply returns_ret, redact_hides|].
  apply returns_bind. intros id _.
  destruct (negb (truthy id)); [apply returns_throw | apply wait_and_clean_hides].
Qed.

(** X17. Whatever the service answers, an object that an operation returns
    for an item never shows a webhook secret at its top level: it has no
    [webhook_auth_header_value], or the placeholder in its place. *)
Theorem item_output_hides_secret (env : Env) (fuel : nat) (cfg : Config) :
  returns (item_body JSON_parse env fuel cfg) hides_secret.
Proof.
  unfold item_body. destruct (negb _); [apply returns_throw|].
  destruct (String.eqb (operation cfg) "create"); [apply create_hides|].
  destruct (String.eqb (operation cfg) "delete"); [apply delete_hides|].
  destruct (String.eqb (operation cfg) "getResults");
    [apply getResults_hides | apply returns_throw].
Qed.

(** X18. Parameters are checked before anything is sent: an unsupported
    resource or operation, a blank model, a blank or unsupported audio
    source, or a blank transcription id ends the item with a
    NodeOperationError and without any request. *)
Theorem refused_before_requests (env : Env) (fuel : nat) (cfg : Config) :
  refused cfg = true →
  trace (item_body JSON_parse env fuel cfg) = []
  ∧ ∃ message description,
      outcome (item_body JSON_parse env fuel cfg)
      = Throw (NodeOperationError message description).
Proof.
  unfold refused, item_body.
  destruct (String.eqb (resource cfg) "transcription"); cbn [negb orb]; [|eauto].
  destruct (String.eqb (operation cfg) "create").
  { unfold create.
    destruct (isNonEmptyString (model cfg)); cbn [negb orb]; [|eauto].
    unfold audio_source.
    destruct (String.eqb (audioSource cfg) "binary") eqn:Hbinary.
    { apply String.eqb_eq in Hbinary. rewrite Hbinary. by cbn. }
    destruct (String.eqb (audioSource cfg) "url") eqn:Hurl.
    { apply String.eqb_eq in Hurl. rewrite Hurl. cbn [String.eqb Ascii.eqb].
      destruct (isNonEmptyString (audioUrl cfg)); [by cbn|].
      intros _. cbn. eauto. }
    destruct (String.eqb (audioSource cfg) "fileId") eqn:Hfile.
    { destruct (isNonEmptyString (fileId cfg)); [by cbn|].
      intros _. cbn. eauto. }
    intros _. cbn. eauto. }
  destruct (String.eqb (operation cfg) "delete").
  { unfold delete. destruct (isNonEmptyString _); cbn [negb]; [done | eauto]. }
  destruct (String.eqb (operation cfg) "getResults"); [|eauto].
  unfold getResults. destruct (isNonEmptyString _); cbn [negb]; [done | eauto].
Qed.
End Outputs.

Lemma item_output_hides_secret_witness :
  outcome (item_body Reader.parse echo_env 5
             (other_cfg "create" "none" (VStr "") false true))
  = Ok (VObj [("id", VStr "t1"); (SECRET_KEY, VStr REDACTED)])
  ∧ (own SECRET_KEY [("id", VStr "t1"); (SECRET_KEY, VStr REDACTED)] = None
     ∨ own SECRET_KEY [("id", VStr "t1"); (SECRET_KEY, VStr REDACTED)]
       = Some (VStr REDACTED)).
Proof.
  split; [reflexivity|].
  exact (item_output_hides_secret Reader.parse echo_env 5
           (other_cfg "create" "none" (VStr "") false true)
           (VObj [("id", VStr "t1"); (SECRET_KEY, VStr REDACTED)])
           eq_refl _ eq_refl).
Defined.

Lemma refused_before_requests_witness :
  refused (other_cfg "getResults" "none" (VStr "  ") false true) = true
  ∧ trace (item_body Reader.parse echo_env 5
             (other_cfg "getResults" "none" (VStr "  ") false true)) = [].
Proof.
  split; [reflexivity|].
  by destruct (refused_before_requests Reader.parse echo_env 5
                 (other_cfg "getResults" "none" (VStr "  ") false true) eq_refl).
Defined.


(** ** All items *)

Section Execute.
Variable JSON_parse : string → JsVal + string.

Lemma execute_item_continues fuel itemIndex item :
  continueOnFail (item_env item) = true →
  finishes JSON_parse fuel item →
  ∃ output,
    outcome (execute_item JSON_parse fuel itemIndex item) = Ok output
    ∧ output_of JSON_parse fuel itemIndex item output.
Proof.
  unfold execute_item, output_of, finishes. intros Hcontinue Hfinishes.
  destruct (item_body _ _ _ _) as [t [json|e|]]; cbn in *.
  - eexists. split; [reflexivity | done].
  - rewrite Hcontinue. cbn. eexists. split; [reflexivity | done].
  - done.
Qed.

Lemma execute_from_continues fuel items start :
  Forall (fun item => continueOnFail (item_env item) = true
                      ∧ finishes JSON_parse fuel item) items →
  ∃ outputs,
    outcome (execute_from JSON_parse fuel start items) = Ok outputs
    ∧ length outputs = length items
    ∧ ∀ (i : nat) item output,
        items !! i = Some item → outputs !! i = Some output →
        output_of JSON_parse fuel (start + i) item output.
Proof.
  intros Hitems. revert start.
  induction Hitems as [|item rest [Hcontinue Hfinishes] _ IH]; intros start.
  { exists []. split; [done|]. split; [done|]. by intros i item output. }
  destruct (execute_item_continues fuel start item Hcontinue Hfinishes)
    as (output & Houtput & Hof).
  destruct (IH (S start)) as (outputs & Houtputs & Hlength & Hall).
  exists (output :: outputs). cbn [execute_from].
  rewrite outcome_bind, Houtput. cbv beta iota.
  rewrite outcome_bind, Houtputs. split; [done|].
  split; [by cbn; rewrite Hlength|].
  intros [|i] item' output'; cbn.
  - intros [= <-] [= <-]. by rewrite Nat.add_0_r.
  - intros Hitem Hout. rewrite Nat.add_succ_r. by apply (Hall i).
Qed.

(** X19. With the node set to continue on failure, a run in which every
    item's operation ends gives one output per item, in order, each paired
    with the index of its item: the result of the operation, or, when it
    failed, the item's own json with the error attached. *)
Theorem execute_continues (fuel : nat) (items : list Item) :
  Forall (fun item => continueOnFail (item_env item) = true
                      ∧ finishes JSON_parse fuel item) items →
  ∃ outputs,
    outcome (execute JSON_parse fuel items) = Ok outputs
    ∧ length outputs = length items
    ∧ ∀ (i : nat) item output,
        items !! i = Some item → outputs !! i = Some output →
        output_of JSON_parse fuel i item output.
Proof. intros Hitems. exact (execute_from_continues fuel items 0 Hitems). Qed.

Lemma execute_item_stops fuel itemIndex item e :
  outcome (item_body JSON_parse (item_env item) fuel (item_config item)) = Throw e →
  continueOnFail (item_env item) = false →
  outcome (execute_item JSON_parse fuel itemIndex item)
  = Throw (rethrown e itemIndex)
  ∧ trace (execute_item JSON_parse fuel itemIndex item)
    = trace (item_body JSON_parse (item_env item) fuel (item_config item)).
Proof.
  unfold execute_item. intros Hbody Hcontinue.
  destruct (item_body _ _ _ _) as [t [json|e'|]]; cbn in Hbody; [done| |done].
  injection Hbody as ->. cbn. rewrite Hcontinue.
  destruct e; cbn; by rewrite app_nil_r.
Qed.

Lemma execute_from_stops fuel before item after e :
  outcome (item_body JSON_parse (item_env item) fuel (item_config item)) = Throw e →
  continueOnFail (item_env item) = false →
  ∀ start outputs,
    outcome (execute_from JSON_parse fuel start before) = Ok outputs →
    outcome (execute_from JSON_parse fuel start (before ++ item :: after))
    = Throw (rethrown e (start + length before))
    ∧ trace (execute_from JSON_parse fuel start (before ++ item :: after))
      = trace (execute_from JSON_parse fuel start before)
        ++ trace (item_body JSON_parse (item_env item) fuel (item_config item)).
Proof.
  intros Hbody Hcontinue.
  induction before as [|first before IH]; intros start outputs Hbefore.
  - destruct (execute_item_stops fuel start item e Hbody Hcontinue)
      as [Houtcome Htrace].
    cbn [app execute_from length]. rewrite Nat.add_0_r.
    rewrite outcome_bind, trace_bind, Houtcome, Htrace. cbn [trace ret fst app].
    by rewrite app_nil_r.
  - cbn [app execute_from length] in *. revert Hbefore.
    rewrite !outcome_bind, !trace_bind.
    destruct (outcome (execute_item JSON_parse fuel start first))
      as [output| |]; [|done|done].
    cbv beta iota. rewrite !outcome_bind, !trace_bind.
    destruct (outcome (execute_from JSON_parse fuel (S start) before))
      as [outputs'| |] eqn:Hrest; [|done|done].
    intros _. destruct (IH (S start) outputs' Hrest) as [Houtcome Htrace].
    rewrite Houtcome, Htrace, Nat.add_succ_r. split; [done|].
    cbn [trace ret fst]. by rewrite !app_nil_r, !app_assoc.
Qed.

(** X20. Without continue-on-failure the first item whose operation fails
    ends the run: [execute] throws that error, as it is when it is a
    NodeOperationError and otherwise wrapped with the index of the item, and
    nothing is requested for the items after it. *)
Theorem execute_stops (fuel : nat) (before after : list Item) (item : Item)
    (outputs : list ItemOutput) (e : Error) :
  outcome (execute JSON_parse fuel before) = Ok outputs →
  outcome (item_body JSON_parse (item_env item) fuel (item_config item)) = Throw e →
  continueOnFail (item_env item) = false →
  outcome (execute JSON_parse fuel (before ++ item :: after))
  = Throw (rethrown e (length before))
  ∧ trace (execute JSON_parse fuel (before ++ item :: after))
    = trace (execute JSON_parse fuel before)
      ++ trace (item_body JSON_parse (item_env item) fuel (item_config item)).
Proof.
  intros Hbefore Hbody Hcontinue.
  exact (execute_from_stops fuel before item after e Hbody Hcontinue 0 outputs
           Hbefore).
Qed.
End Execute.

Lemma execute_continues_witness :
  ∃ outputs,
    outcome (execute Reader.parse 5
               [sample_item (continuing echo_env)
                  (other_cfg "getResults" "none" (VStr "") false true);
                sample_item (continuing echo_env)
                  (other_cfg "create" "none" (VStr "") false true)])
    = Ok outputs
    ∧ map out_pairedItem outputs = [0; 1]%nat
    ∧ length outputs = 2%nat.
Proof.
  assert (Hitems :
            Forall (fun item => continueOnFail (item_env item) = true
                                ∧ finishes Reader.parse 5 item)
              [sample_item (continuing echo_env)
                 (other_cfg "getResults" "none" (VStr "") false true);
               sample_item (continuing echo_env)
                 (other_cfg "create" "none" (VStr "") false true)]).
  { repeat (constructor; [split; [reflexivity | by vm_compute]|]). constructor. }
  destruct (execute_continues Reader.parse 5 _ Hitems)
    as (outputs & Houtputs & Hlength & _).
  exists outputs. split; [exact Houtputs|]. split; [|exact Hlength].
  vm_compute in Houtputs. by injection Houtputs as <-.
Defined.

Lemma execute_stops_witness :
  outcome (execute Reader.parse 5
             ([sample_item echo_env
                 (other_cfg "create" "none" (VStr "") false true)]
              ++ sample_item echo_env
                   (from_binary (other_cfg "create" "none" (VStr "") false true))
              :: [sample_item echo_env
                    (other_cfg "create" "none" (VStr "") false true)]))
  = Throw (WrappedError (HostError "no binary data") 1)
  ∧ length (trace (execute Reader.parse 5
                     ([sample_item echo_env
                         (other_cfg "create" "none" (VStr "") false true)]
                      ++ sample_item echo_env
                           (from_binary
                              (other_cfg "create" "none" (VStr "") false true))
                      :: [sample_item echo_env
                            (other_cfg "create" "none" (VStr "") false true)])))
    = 1%nat.
Proof.
  destruct (execute_stops Reader.parse 5
              [sample_item echo_env
                 (other_cfg "create" "none" (VStr "") false true)]
              [sample_item echo_env
                 (other_cfg "create" "none" (VStr "") false true)]
              (sample_item echo_env
                 (from_binary (other_cfg "create" "none" (VStr "") false true)))
              _ _ eq_refl eq_refl eq_refl) as [Houtcome Htrace].
  split; [exact Houtcome|]. rewrite Htrace. reflexivity.
Defined.


(** ** The credentials *)

Lemma dropFinalSlash_slash (stem : string) : dropFinalSlash (stem +:+ "/") = stem.
Proof.
  induction stem as [|c rest IH]; [reflexivity|].
  change (String c rest +:+ "/") with (String c (rest +:+ "/")).
  cbn [dropFinalSlash]. rewrite IH.
  destruct rest; reflexivity.
Qed.

Lemma dropFinalSlash_other (s : string) :
  (∀ stem, s ≠ stem +:+ "/") → dropFinalSlash s = s.
Proof.
  induction s as [|c rest IH]; [done|]. intros Hs.
  destruct rest as [|c' rest'].
  - cbn. destruct (Ascii.eqb c "/") eqn:Hc; [|done].
    apply Ascii.eqb_eq in Hc. subst c. by destruct (Hs "").
  - cbn [dropFinalSlash]. f_equal. apply IH. intros stem Hstem.
    apply (Hs (String c stem)).
    change (String c stem +:+ "/") with (String c (stem +:+ "/")).
    by rewrite Hstem.
Qed.

Lemma named_base_url_chosen (credentials : Credentials) :
  (if text_truthy (baseUrl credentials)
   then default "" (baseUrl credentials) else DEFAULT_BASE_URL)
  = named_base_url credentials.
Proof.
  unfold named_base_url, text_truthy.
  destruct (baseUrl credentials) as [url|]; [|done]. cbn.
  by destruct (is_empty url).
Qed.

(** X21. [authenticate] sends the request to the base URL of the
    credentials, the default when none is entered, without its final slash
    (one slash is removed, a URL without one is kept as it is), and with the
    header Authorization set to Bearer and the API key; a header
    Authorization that was there is replaced, every other header and every
    other option is kept. *)
Theorem authenticate_request (credentials : Credentials)
    (requestOptions : RequestOptions) :
  (∀ stem, named_base_url credentials = stem +:+ "/" →
           baseURL (authenticate credentials requestOptions) = Some stem)
  ∧ ((∀ stem, named_base_url credentials ≠ stem +:+ "/") →
     baseURL (authenticate credentials requestOptions)
     = Some (named_base_url credentials))
  ∧ own "Authorization" (headers_of (authenticate credentials requestOptions))
    = Some (VStr ("Bearer " +:+ to_text (apiKey credentials)))
  ∧ (∀ k, k ≠ "Authorization" →
          own k (headers_of (authenticate credentials requestOptions))
          = own k (headers_of requestOptions))
  ∧ map fst (headers_of (authenticate credentials requestOptions))
    = (if hasOwnProperty "Authorization" (headers_of requestOptions)
       then map fst (headers_of requestOptions)
       else map fst (headers_of requestOptions) ++ ["Authorization"])
  ∧ otherOptions (authenticate credentials requestOptions)
    = otherOptions requestOptions.
Proof.
  unfold authenticate, headers_of. cbn [baseURL headers otherOptions default].
  rewrite named_base_url_chosen. unfold spread_with.
  split; [|split; [|split; [|split; [|split]]]].
  - intros stem ->. by rewrite dropFinalSlash_slash.
  - intros Hs. by rewrite dropFinalSlash_other.
  - apply own_assign_eq.
  - intros k Hk. by apply own_assign_ne.
  - destruct (hasOwnProperty "Authorization" _) eqn:Hthere.
    + by apply assign_keys.
    + apply assign_keys_new. unfold hasOwnProperty in Hthere.
      by destruct (own "Authorization" _).
  - done.
Qed.

Lemma authenticate_request_witness :
  baseURL (authenticate
             {| apiKey := VStr "k1"; baseUrl := Some "https://eu.soniox.com/" |}
             sample_options_in)
  = Some "https://eu.soniox.com"
  ∧ headers (authenticate
               {| apiKey := VStr "k1"; baseUrl := Some "https://eu.soniox.com/" |}
               sample_options_in)
    = Some [("Authorization", VStr "Bearer k1"); ("Accept", VStr "*/*")]
  ∧ baseURL (authenticate {| apiKey := VStr "k1"; baseUrl := Some "" |}
               sample_options_in)
    = Some "https://api.soniox.com".
Proof.
  destruct (authenticate_request
              {| apiKey := VStr "k1"; baseUrl := Some "https://eu.soniox.com/" |}
              sample_options_in) as (Hslash & _).
  split; [exact (Hslash "https://eu.soniox.com" eq_refl)|].
  split; reflexivity.
Defined.

(** ** Language hints outside their declared shape *)

Lemma map_code_nullish (languages : list JsVal) :
  Exists (fun entry => nullish entry = true) languages →
  map_code languages = Throw TypeError.
Proof.
  induction 1 as [entry rest Hentry|entry rest _ IH].
  - by destruct entry.
  - cbn [map_code]. rewrite IH. by destruct entry.
Qed.

(** X22. Language hints that are not given as an object with a list
    [languages] count as no hints. A list with a [null] or [undefined] entry
    gives no hints either but a TypeError, whatever its other entries. *)
Theorem language_hints_off_shape (input : JsVal) :
  ((∀ languages, get_opt input "languages" ≠ VArr languages) →
   normalizeLanguageHints input = Ok [])
  ∧ (∀ languages, get_opt input "languages" = VArr languages →
       Exists (fun entry => nullish entry = true) languages →
       normalizeLanguageHints input = Throw TypeError).
Proof.
  unfold normalizeLanguageHints, get_opt.
  destruct input as [| | | | |items|fields]; try (split; [done | by intros ? ?]).
  destruct (own "languages" fields) as [[| | | | |languages|]|]; cbn [default];
    try (split; [done | by intros ? ?]).
  split; [intros Hnone; by destruct (Hnone languages)|].
  intros ? [= <-] Hex. by rewrite map_code_nullish.
Qed.

Lemma language_hints_off_shape_witness :
  normalizeLanguageHints
    (VObj [("languages", VArr [VObj [("code", VStr "en")]; VNull])])
  = Throw TypeError
  ∧ normalizeLanguageHints (VObj [("languages", VStr "en")]) = Ok [].
Proof.
  destruct (language_hints_off_shape
              (VObj [("languages", VArr [VObj [("code", VStr "en")]; VNull])]))
    as [_ Hnull].
  destruct (language_hints_off_shape (VObj [("languages", VStr "en")]))
    as [Hnone _].
  split.
  - apply (Hnull _ eq_refl). right. by left.
  - apply Hnone. by intros languages.
Defined.

(** ** Worked examples of the earlier revision *)

Lemma earlier_array_context_sent_witness :
  own "context"
    (assemble_body (sample_cfg sample_url (VStr "[1,2,3]") 2) sample_url VUndefined []
       (Earlier.read_context Reader.parse (sample_cfg sample_url (VStr "[1,2,3]") 2)))
  = Some (VArr [VNum 1; VNum 2; VNum 3]).
Proof.
  exact (earlier_array_context_sent Reader.parse
           (sample_cfg sample_url (VStr "[1,2,3]") 2) sample_url VUndefined []
           "[1,2,3]" (VNum 1) [VNum 2; VNum 3] eq_refl eq_refl eq_refl eq_refl).
Defined.

Lemma earlier_no_status_fallback_witness :
  Earlier.sonioxApiRequest_error
    {| err_message := None; err_description := None;
       err_httpCode := Some 500; err_cause := None; err_response := None |}
  = RequestError
      {| err_message := None; err_description := None;
         err_httpCode := Some 500; err_cause := None; err_response := None |}
  ∧ sonioxApiRequest_error
      {| err_message := None; err_description := None;
         err_httpCode := Some 500; err_cause := None; err_response := None |}
    = NodeOperationError "Soniox API error (HTTP 500)"
        (Some "Soniox server error. Try again later or contact Soniox support.").
Proof.
  split; [|reflexivity].
  exact (earlier_no_status_fallback
           {| err_message := None; err_description := None;
              err_httpCode := Some 500; err_cause := None; err_response := None |}
           eq_refl).
Defined.
